(** * Twitter-SEO agent: scheduling, ranking and scoring core

    A shallow embedding of the JavaScript sources
    ([src/utils/date-utils.js], [src/constants/posting-schedule.js],
    [src/utils/text-utils.js], [src/utils/validator.js],
    [src/agents/filter.js], [src/services/scheduler.js],
    [src/agents/poster.js], [src/agents/scraper.js], [src/index.js])
    together with the
    properties the specification states about them.

    Conventions.
    - A JavaScript [Date] is its time value: milliseconds since the epoch
      as a [Z], taken within the range ECMAScript allows; an Invalid Date
      (time value NaN) is [None].
    - A JavaScript string is a Rocq [string]: a sequence of code units,
      restricted to the range 0..255.
    - A [Map] is a [gmap] and a [Set] a [gset]; a plain object used as
      a dictionary is the [gmap] of its own keys, the property names it
      inherits being treated where the source reads them.
    - An awaited call to an external collaborator is an [outcome]: either
      the value it resolves to or the message of the error it throws.
    - The host's local time zone is a fixed offset [tza] from UTC, in
      milliseconds; a Workers host has [tza = 0]. *)

From Stdlib Require Import ZArith QArith Lqa Ascii String List Bool Sorted Lia.
From stdpp Require Import base option list gmap strings pretty.

Local Open Scope Z_scope.

(** ** ECMAScript time values (ECMA-262, section "Time Values and Time Range") *)

Module JsDate.

Definition msPerDay : Z := 86400000.
Definition msPerHour : Z := 3600000.

Definition Day (t : Z) : Z := t / msPerDay.
Definition TimeWithinDay (t : Z) : Z := t mod msPerDay.

Definition DayFromYear (y : Z) : Z :=
  365 * (y - 1970) + (y - 1969) / 4 - (y - 1901) / 100 + (y - 1601) / 400.

Definition isLeap (y : Z) : bool :=
  if negb (y mod 4 =? 0) then false
  else if negb (y mod 100 =? 0) then true
  else if negb (y mod 400 =? 0) then false
  else true.

Definition DaysInYear (y : Z) : Z := if isLeap y then 366 else 365.

(** The largest [y] with [DayFromYear y <= Day t]: an estimate from the
    mean year length, corrected by at most one year. *)
Definition YearFromDay (d : Z) : Z :=
  let y := 1970 + (400 * d) / 146097 in
  if DayFromYear (y + 1) <=? d then y + 1
  else if DayFromYear y <=? d then y
  else y - 1.

Definition YearFromTime (t : Z) : Z := YearFromDay (Day t).

Definition DayWithinYear (t : Z) : Z := Day t - DayFromYear (YearFromTime t).

Definition InLeapYear (t : Z) : Z := if isLeap (YearFromTime t) then 1 else 0.

(** Month number 0..11. *)
Definition MonthFromTime (t : Z) : Z :=
  let d := DayWithinYear t in
  let l := InLeapYear t in
  if d <? 31 then 0
  else if d <? 59 + l then 1
  else if d <? 90 + l then 2
  else if d <? 120 + l then 3
  else if d <? 151 + l then 4
  else if d <? 181 + l then 5
  else if d <? 212 + l then 6
  else if d <? 243 + l then 7
  else if d <? 273 + l then 8
  else if d <? 304 + l then 9
  else if d <? 334 + l then 10
  else 11.

(** First day-within-year of month [m] (0..11); [l] is 1 in a leap year. *)
Definition monthStart (m l : Z) : Z :=
  if m =? 0 then 0
  else if m =? 1 then 31
  else if m =? 2 then 59 + l
  else if m =? 3 then 90 + l
  else if m =? 4 then 120 + l
  else if m =? 5 then 151 + l
  else if m =? 6 then 181 + l
  else if m =? 7 then 212 + l
  else if m =? 8 then 243 + l
  else if m =? 9 then 273 + l
  else if m =? 10 then 304 + l
  else 334 + l.

(** Day of the month 1..31. *)
Definition DateFromTime (t : Z) : Z :=
  DayWithinYear t - monthStart (MonthFromTime t) (InLeapYear t) + 1.

(** 0 is Sunday; day 0 of the epoch was a Thursday. *)
Definition WeekDayOfDay (d : Z) : Z := (d + 4) mod 7.
Definition WeekDay (t : Z) : Z := WeekDayOfDay (Day t).

Definition HourFromTime (t : Z) : Z := (t / msPerHour) mod 24.

(** [MakeDay]: month overflow is carried into the year, the date is added
    linearly. *)
Definition MakeDay (year month date : Z) : Z :=
  let ym := year + month / 12 in
  let mn := month mod 12 in
  DayFromYear ym + monthStart mn (if isLeap ym then 1 else 0) + date - 1.

(** [Date.UTC] and the [Date] constructor read a year 0..99 as
    1900..1999. *)
Definition fullYear (year : Z) : Z :=
  if (0 <=? year) && (year <=? 99) then 1900 + year else year.

(** [Date.UTC(year, month, date, hours)]. *)
Definition UTC (year month date hours : Z) : Z :=
  MakeDay (fullYear year) month date * msPerDay + hours * msPerHour.

Definition getUTCFullYear (t : Z) : Z := YearFromTime t.
Definition getUTCDay (t : Z) : Z := WeekDay t.
Definition getUTCHours (t : Z) : Z := HourFromTime t.

(** Local time on a host whose zone is a fixed offset [tza] (in ms, east
    of Greenwich positive); a Workers host runs with [tza = 0]. *)
Definition getFullYear (tza t : Z) : Z := YearFromTime (t + tza).
Definition getDay (tza t : Z) : Z := WeekDay (t + tza).
(** [new Date(year, month, date)]: local midnight. *)
Definition newDateLocal (tza year month date : Z) : Z :=
  MakeDay (fullYear year) month date * msPerDay - tza.

(** Exactly [w] decimal digits of [n], least significant last. *)
Fixpoint zpad (w : nat) (n : Z) : string :=
  match w with
  | O => EmptyString
  | S w' =>
      (zpad w' (n / 10) +:+
         String (ascii_of_nat (48 + Z.to_nat (n mod 10))) EmptyString)%string
  end.

(** The date part of [toISOString()]: [YYYY-MM-DD], with the expanded
    signed six-digit year outside 0..9999. *)
Definition isoDate (t : Z) : string :=
  let y := YearFromTime t in
  let ys :=
    if (0 <=? y) && (y <=? 9999) then zpad 4 y
    else ((if Z.ltb y 0 then "-" else "+") +:+ zpad 6 (Z.abs y))%string in
  (ys +:+ "-" +:+ zpad 2 (MonthFromTime t + 1) +:+ "-" +:+
     zpad 2 (DateFromTime t))%string.

Definition MinFromTime (t : Z) : Z := (t / 60000) mod 60.
Definition getUTCMinutes (t : Z) : Z := MinFromTime t.

End JsDate.

(** ** [src/utils/date-utils.js] *)

Module DateUtils.
Import JsDate.

Definition TIMEZONE_OFFSETS_EST : Z := -5.
Definition TIMEZONE_OFFSETS_EDT : Z := -4.

Definition dstStart (year : Z) : Z :=
  let marchFirst := UTC year 2 1 0 in
  let daysToSecondSunday := (7 - getUTCDay marchFirst) mod 7 + 7 in
  UTC year 2 (1 + daysToSecondSunday) 7.

Definition dstEnd (year : Z) : Z :=
  let novFirst := UTC year 10 1 0 in
  let daysToFirstSunday := (7 - getUTCDay novFirst) mod 7 in
  UTC year 10 (1 + daysToFirstSunday) 6.

Definition isEasternDST (date : Z) : bool :=
  let year := getUTCFullYear date in
  (dstStart year <=? date) && (date <? dstEnd year).

Definition getEasternOffset (date : Z) : Z :=
  if isEasternDST date then TIMEZONE_OFFSETS_EDT else TIMEZONE_OFFSETS_EST.

Definition utcToEastern (utcDate : Z) : Z :=
  utcDate + getEasternOffset utcDate * 60 * 60 * 1000.

Definition getTodayString (date : Z) : string :=
  isoDate (utcToEastern date).

(** [(date2 - date1) / (1000 * 60 * 60)].  Both time values are integers,
    so the quotient is an exact rational; a NaN operand gives NaN.  The
    double the source computes compares with 0, 6, 12, 18 and 24 as this
    rational does: a non-zero difference from one of these bounds is at
    least 1/3600000, far above the rounding error of one division. *)
Definition hoursBetween (date1 date2 : option Z) : option Q :=
  match date1, date2 with
  | Some d1, Some d2 => Some (inject_Z (d2 - d1) / inject_Z (1000 * 60 * 60))%Q
  | _, _ => None
  end.

(** The argument of [calculateRecencyScore]: a string, parsed by the
    [Date] constructor, or a [Date] object (its time value). *)
Inductive PublishDate :=
| PdString (s : string)
| PdDate (tv : option Z).

(** Comparisons with a NaN operand are false. *)
Definition ltNum (h : option Q) (b : Q) : bool :=
  match h with Some q => negb (Qle_bool b q) | None => false end.
Definition leNum (h : option Q) (b : Q) : bool :=
  match h with Some q => Qle_bool q b | None => false end.

Section Recency.
(** The host's date-string parser: the time value or NaN. *)
Variable Date_parse : string -> option Z.

Definition toDate (publishDate : PublishDate) : option Z :=
  match publishDate with
  | PdString s => Date_parse s
  | PdDate tv => tv
  end.

(** [now] is the time value of the [new Date()] the function takes. *)
Definition calculateRecencyScore (now : Z) (publishDate : PublishDate) : Z :=
  let date := toDate publishDate in
  let hoursAgo := hoursBetween date (Some now) in
  if ltNum hoursAgo 0 then 0
  else if leNum hoursAgo 6 then 20
  else if leNum hoursAgo 12 then 15
  else if leNum hoursAgo 18 then 10
  else if leNum hoursAgo 24 then 5
  else 0.
End Recency.

Definition getEasternHour (date : Z) : Z :=
  getUTCHours (utcToEastern date).

(** [Date.UTC(year, 0, 0)] is the last day of the year before. *)
Definition getDayOfYear (date : Z) : Z :=
  let start := UTC (getUTCFullYear date) 0 0 0 in
  let diff := date - start in
  let oneDay := 1000 * 60 * 60 * 24 in
  diff / oneDay.

End DateUtils.

(** ** [src/constants/posting-schedule.js] *)

Module PostingSchedule.
Import JsDate.

Record TimeSlot := {
  hour : Z;
  utcHour : Z;
  utcHourDST : Z;
  postNumber : Z;
  categoryId : string;
  categoryRank : Z;
  includeQuote : bool
}.

Definition POSTING_SCHEDULE : list TimeSlot := [
  {| hour := 9;  utcHour := 14; utcHourDST := 13; postNumber := 1;
     categoryId := "ai-providers"; categoryRank := 1; includeQuote := false |};
  {| hour := 10; utcHour := 15; utcHourDST := 14; postNumber := 2;
     categoryId := "business-ai"; categoryRank := 1; includeQuote := false |};
  {| hour := 11; utcHour := 16; utcHourDST := 15; postNumber := 3;
     categoryId := "ai-safety"; categoryRank := 1; includeQuote := true |};
  {| hour := 12; utcHour := 17; utcHourDST := 16; postNumber := 4;
     categoryId := "ai-providers"; categoryRank := 2; includeQuote := false |};
  {| hour := 13; utcHour := 18; utcHourDST := 17; postNumber := 5;
     categoryId := "business-ai"; categoryRank := 2; includeQuote := false |};
  {| hour := 14; utcHour := 19; utcHourDST := 18; postNumber := 6;
     categoryId := "ai-safety"; categoryRank := 2; includeQuote := true |};
  {| hour := 15; utcHour := 20; utcHourDST := 19; postNumber := 7;
     categoryId := "ai-providers"; categoryRank := 3; includeQuote := false |};
  {| hour := 16; utcHour := 21; utcHourDST := 20; postNumber := 8;
     categoryId := "business-ai"; categoryRank := 3; includeQuote := false |};
  {| hour := 17; utcHour := 22; utcHourDST := 21; postNumber := 9;
     categoryId := "ai-safety"; categoryRank := 3; includeQuote := true |}
].

Definition getTimeSlotForUTCHour (h : Z) (isDST : bool) : option TimeSlot :=
  find (fun slot => if isDST then utcHourDST slot =? h else utcHour slot =? h)
       POSTING_SCHEDULE.

Definition dstStart (tza year : Z) : Z :=
  let marchFirst := newDateLocal tza year 2 1 in
  let marchFirstDay := getDay tza marchFirst in
  newDateLocal tza year 2 (8 + (7 - marchFirstDay) mod 7 + 7).

Definition dstEnd (tza year : Z) : Z :=
  let novFirst := newDateLocal tza year 10 1 in
  let novFirstDay := getDay tza novFirst in
  newDateLocal tza year 10 (1 + (7 - novFirstDay) mod 7).

Definition isEasternDST (tza date : Z) : bool :=
  let year := getFullYear tza date in
  (dstStart tza year <=? date) && (date <? dstEnd tza year).

Definition getTimeSlotForESTHour (estHour : Z) : option TimeSlot :=
  find (fun slot => hour slot =? estHour) POSTING_SCHEDULE.

(** The UTC hour of a slot under the given daylight-saving flag. *)
Definition slotUTCHour (isDST : bool) (slot : TimeSlot) : Z :=
  if isDST then utcHourDST slot else utcHour slot.

(** The loop of [getNextPostingSlot] and of [getTimeUntilNextPost]: the
    first slot whose UTC hour lies after the current one. *)
Definition firstSlotAfter (isDST : bool) (currentUTCHour : Z) : option TimeSlot :=
  find (fun slot => currentUTCHour <? slotUTCHour isDST slot) POSTING_SCHEDULE.

(** [POSTING_SCHEDULE[0]] when no slot is left today. *)
Definition getNextPostingSlot (tza now : Z) : option TimeSlot :=
  match firstSlotAfter (isEasternDST tza now) (getUTCHours now) with
  | Some slot => Some slot
  | None => head POSTING_SCHEDULE
  end.

End PostingSchedule.

(** ** JavaScript strings and the regular expressions the sources use *)

Module JsString.

Definition chars (s : string) : list ascii := list_ascii_of_string s.

Definition code (c : ascii) : N := N_of_ascii c.

Definition inRange (lo hi : N) (c : ascii) : bool :=
  (lo <=? code c)%N && (code c <=? hi)%N.

(** [\d], [\w] and [\s] (with the line terminators) on code units 0..255. *)
Definition isDigit (c : ascii) : bool := inRange 48 57 c.
Definition isUpper (c : ascii) : bool := inRange 65 90 c.
Definition isLower (c : ascii) : bool := inRange 97 122 c.
Definition isWordChar (c : ascii) : bool :=
  isDigit c || isUpper c || isLower c || (code c =? 95)%N.
Definition isSpace (c : ascii) : bool :=
  inRange 9 13 c || (code c =? 32)%N || (code c =? 160)%N.
Definition isLineTerminator (c : ascii) : bool :=
  (code c =? 10)%N || (code c =? 13)%N.

(** [toLowerCase] of one code unit: A-Z, and the Latin-1 capitals
    except the multiplication sign. *)
Definition lowerChar (c : ascii) : ascii :=
  if isUpper c || (inRange 192 222 c && negb (code c =? 215)%N)
  then ascii_of_N (code c + 32) else c.

Definition toLowerCase (s : list ascii) : list ascii := map lowerChar s.

Definition eqc (a b : ascii) : bool := Ascii.eqb a b.

Fixpoint startsWith (p s : list ascii) : bool :=
  match p, s with
  | [], _ => true
  | a :: p', b :: s' => if eqc a b then startsWith p' s' else false
  | _ :: _, [] => false
  end.

(** [s.includes(sub)] *)
Fixpoint includes (s sub : list ascii) : bool :=
  if startsWith sub s then true
  else match s with
       | [] => false
       | _ :: s' => includes s' sub
       end.

Fixpoint trimStart (s : list ascii) : list ascii :=
  match s with
  | c :: s' => if isSpace c then trimStart s' else s
  | [] => []
  end.

Definition trim (s : list ascii) : list ascii :=
  rev (trimStart (rev (trimStart s))).

(** Regular expressions: the fragment the sources use.  [Cls p] is one
    code unit satisfying [p]; [WordB] is the assertion [\b]. *)
Inductive re :=
| Eps
| Cls (p : ascii -> bool)
| Cat (r1 r2 : re)
| Alt (r1 r2 : re)
| Star (r : re)
| WordB.

Definition isWordOpt (o : option ascii) : bool :=
  match o with Some c => isWordChar c | None => false end.

(** Backtracking matcher in continuation-passing style.  [prev] is the
    code unit before the current position (for [\b]), [s] the rest of
    the input; [k] receives the position after the match.  An iteration
    of [Star] that makes progress consumes a code unit, so [length s]
    iterations suffice.  The conditionals are the short-circuit [&&] and
    [||]. *)
Fixpoint matchRe (r : re) (prev : option ascii) (s : list ascii)
         (k : option ascii -> list ascii -> bool) {struct r} : bool :=
  match r with
  | Eps => k prev s
  | Cls p =>
      match s with
      | c :: s' => if p c then k (Some c) s' else false
      | [] => false
      end
  | Cat r1 r2 => matchRe r1 prev s (fun p' s' => matchRe r2 p' s' k)
  | Alt r1 r2 => if matchRe r1 prev s k then true else matchRe r2 prev s k
  | Star r1 =>
      (fix iter (n : nat) (prev : option ascii) (s : list ascii) : bool :=
         if k prev s then true
         else match n with
              | O => false
              | S n' => matchRe r1 prev s (fun p' s' => iter n' p' s')
              end) (length s) prev s
  | WordB =>
      if xorb (isWordOpt prev) (isWordOpt (head s)) then k prev s else false
  end.

Definition accept : option ascii -> list ascii -> bool := fun _ _ => true.

(** A match starting at the beginning of the input (a pattern with [^]). *)
Definition testAnchored (r : re) (s : list ascii) : bool :=
  matchRe r None s accept.

(** [r.test(s)]: a match starting at some position. *)
Fixpoint testFrom (r : re) (prev : option ascii) (s : list ascii) : bool :=
  if matchRe r prev s accept then true
  else match s with
       | c :: s' => testFrom r (Some c) s'
       | [] => false
       end.

Definition test (r : re) (s : list ascii) : bool := testFrom r None s.

(** Pattern builders. *)
Definition Plus (r : re) : re := Cat r (Star r).
Definition Opt (r : re) : re := Alt r Eps.
Definition chr (c : ascii) : re := Cls (eqc c).
(** A letter under the [i] flag matches both of its cases. *)
Definition chrI (c : ascii) : re :=
  Cls (fun x => eqc (lowerChar c) x || (isLower (lowerChar c) &&
                 eqc (ascii_of_N (code (lowerChar c) - 32)) x)).
Fixpoint lit (w : list ascii) : re :=
  match w with
  | [] => Eps
  | c :: w' => Cat (chr c) (lit w')
  end.
Fixpoint litI (w : list ascii) : re :=
  match w with
  | [] => Eps
  | c :: w' => Cat (chrI c) (litI w')
  end.
(** A never-matching pattern: the unit of [Alt]. *)
Definition Fail : re := Cls (fun _ => false).
Fixpoint alts (rs : list re) : re :=
  match rs with
  | [] => Fail
  | [r] => r
  | r :: rs' => Alt r (alts rs')
  end.
Definition wordsI (ws : list string) : re := alts (map (fun w => litI (chars w)) ws).
(** [/\b(w1|w2|...)\b/i] *)
Definition boundedWordsI (ws : list string) : re :=
  Cat WordB (Cat (wordsI ws) WordB).
Definition digits : re := Plus (Cls isDigit).
Definition spaces : re := Star (Cls isSpace).
Definition anyChar : re := Cls (fun c => negb (isLineTerminator c)).

End JsString.

(** ** [src/utils/text-utils.js] *)

Module TextUtils.
Import JsString.

Definition TWITTER_URL_LENGTH : Z := 23.
Definition MAX_TWEET_LENGTH : Z := 280.

(** The pattern [/https?:\/\/[^\s]+/] itself. *)
Definition urlPattern : re :=
  Cat (lit (chars "http"))
      (Cat (Opt (chr "s"))
           (Cat (lit (chars "://")) (Plus (Cls (fun c => negb (isSpace c)))))).

(** The start of a match of [/https?:\/\/[^\s]+/]: the scheme, the
    separator and one code unit that is not white space. *)
Definition afterScheme (s : list ascii) : option (list ascii) :=
  if startsWith (chars "https://") s then Some (drop 8 s)
  else if startsWith (chars "http://") s then Some (drop 7 s)
  else None.

Definition isUrlStart (s : list ascii) : bool :=
  match afterScheme s with
  | Some (c :: _) => negb (isSpace c)
  | _ => false
  end.

(** [text.match(/https?:\/\/[^\s]+/g)]: the matches from left to right.
    [cur] holds the match being read, reversed; a match runs up to the
    next white space, and the search resumes behind it. *)
Fixpoint scanUrls (cur : option (list ascii)) (s : list ascii)
  : list (list ascii) :=
  match s with
  | [] => match cur with Some u => [rev u] | None => [] end
  | c :: s' =>
      match cur with
      | Some u =>
          if isSpace c then rev u :: scanUrls None s'
          else scanUrls (Some (c :: u)) s'
      | None =>
          if isUrlStart s then scanUrls (Some [c]) s'
          else scanUrls None s'
      end
  end.

Definition extractUrls (text : string) : list (list ascii) :=
  scanUrls None (chars text).

Definition calculateTweetLength (text : string) : Z :=
  fold_left
    (fun len url => len - Z.of_nat (length url) + TWITTER_URL_LENGTH)
    (extractUrls text)
    (Z.of_nat (String.length text)).

Definition isValidTweetLength (text : string) : bool :=
  calculateTweetLength text <=? MAX_TWEET_LENGTH.

Definition containsKeywords (text : string) (keywords : list string) : bool :=
  let lowerText := toLowerCase (chars text) in
  existsb (fun keyword => includes lowerText (toLowerCase (chars keyword)))
          keywords.

(** [/\d+%/], [/\$[\d,.]+[BMKk]?/],
    [/\d+\s*(million|billion|trillion|thousand)/i], [/\d+[xX]/],
    [/\d+\s*times/i], [/\d+\.\d+/] *)
Definition statisticsPatterns : list re := [
  Cat digits (chr "%");
  Cat (chr "$")
      (Cat (Plus (Cls (fun c => isDigit c || eqc "," c || eqc "." c)))
           (Opt (Cls (fun c => eqc "B" c || eqc "M" c || eqc "K" c || eqc "k" c))));
  Cat digits (Cat spaces (wordsI ["million"; "billion"; "trillion"; "thousand"]%string));
  Cat digits (Cls (fun c => eqc "x" c || eqc "X" c));
  Cat digits (Cat spaces (litI (chars "times")));
  Cat digits (Cat (chr ".") digits)
]%char.

Definition containsStatistics (text : string) : bool :=
  existsb (fun pattern => test pattern (chars text)) statisticsPatterns.

(** The alternatives of
    [/^(who|what|when|where|why|how|is|are|can|will|should|could|would)/i] *)
Definition questionWords : list string :=
  ["who"; "what"; "when"; "where"; "why"; "how"; "is"; "are"; "can";
   "will"; "should"; "could"; "would"]%string.

Definition containsQuestion (text : string) : bool :=
  includes (chars text) (chars "?") ||
  testAnchored (wordsI questionWords) (trim (chars text)).

(** [/\b(never|always|every|no one|everyone)\b/i],
    [/\b(wrong|right|must|need to)\b/i], [/\b(actually|really|truth|fact)\b/i],
    [/\b(hot take|controversial|unpopular opinion)\b/i],
    [/\b(game.?changer|revolutionary|breakthrough)\b/i], [/!{2,}/] *)
Definition provocativePatterns : list re := [
  boundedWordsI ["never"; "always"; "every"; "no one"; "everyone"]%string;
  boundedWordsI ["wrong"; "right"; "must"; "need to"]%string;
  boundedWordsI ["actually"; "really"; "truth"; "fact"]%string;
  boundedWordsI ["hot take"; "controversial"; "unpopular opinion"]%string;
  Cat WordB
      (Cat (alts [Cat (litI (chars "game")) (Cat (Opt anyChar) (litI (chars "changer")));
                  litI (chars "revolutionary");
                  litI (chars "breakthrough")])
           WordB);
  Cat (chr "!") (Cat (chr "!") (Star (chr "!")))
]%char.

Definition isProvocative (text : string) : bool :=
  existsb (fun pattern => test pattern (chars text)) provocativePatterns.

End TextUtils.

(** ** [src/constants/categories.js] and [src/constants/mab-quotes.js] *)

Module Categories.
Record Category := { id : string; name : string; description : string }.

Definition CATEGORIES : list Category := [
  {| id := "ai-providers"; name := "AI News from Major Providers";
     description := "AI News from Google, OpenAI, Anthropic and other major providers" |};
  {| id := "business-ai"; name := "Business AI and Automation";
     description := "Business (mid-markets) AI and Automation" |};
  {| id := "ai-safety"; name := "AI Safety and Regulation";
     description := "AI Safety and Regulation" |}
].
End Categories.

Module MabQuotes.
Import JsDate.

(** The ids of [MAB_QUOTES], in order. *)
Definition MAB_QUOTE_IDS : list Z := [1; 2; 3; 4; 5].

(** [getQuoteForDay(date).id]; [%] is the remainder with the sign of the
    dividend. *)
Definition getQuoteForDay (tza date : Z) : option Z :=
  let start := newDateLocal tza (getFullYear tza date) 0 0 in
  let diff := date - start in
  let oneDay := 1000 * 60 * 60 * 24 in
  let dayOfYear := diff / oneDay in
  let quoteIndex := Z.rem (dayOfYear - 1) (Z.of_nat (length MAB_QUOTE_IDS)) in
  if quoteIndex <? 0 then None else MAB_QUOTE_IDS !! Z.to_nat quoteIndex.

Definition shouldIncludeQuote (postNumber : Z) : bool :=
  (postNumber =? 3) || (postNumber =? 6) || (postNumber =? 9).
End MabQuotes.

(** ** Outcomes of calls that may throw *)

Inductive outcome (A : Type) :=
| Ok (a : A)
| Err (msg : string).
Arguments Ok {A} a.
Arguments Err {A} msg.

(** [try { body } catch (error) { handler(error.message) }] *)
Definition tryCatch {A : Type} (body : outcome A) (handler : string -> outcome A)
  : outcome A :=
  match body with
  | Ok a => Ok a
  | Err msg => handler msg
  end.

(** ** [src/agents/filter.js] *)

Module Filter.
Import JsString TextUtils.

Record Article := {
  headline : string;
  url : string;
  source : string;
  publishDate : DateUtils.PublishDate;
  summary : string;
  category : string;
  apiUsed : string
}.

Record ScoredArticle := {
  article : Article;
  score : Z;
  recencyScore : Z;
  authorityScore : Z;
  engagementScore : Z;
  viralityScore : Z;
  seoScore : Z;
  categoryRank : option Z;
  postingSlot : option string;
  postNumber : option Z;
  mabQuoteNumber : option Z
}.

Definition SOURCE_TIERS : list (Z * list string) := [
  (25, ["techcrunch"; "the verge"; "bloomberg"; "reuters"; "wsj";
        "wall street journal"; "nyt"; "new york times"; "wired"]);
  (20, ["venturebeat"; "ars technica"; "mit technology review";
        "the information"; "protocol"; "axios"]);
  (15, ["forbes"; "business insider"; "zdnet"; "cnet"; "engadget"]);
  (10, ["openai"; "google"; "anthropic"; "microsoft"; "meta";
        "deepmind"; "blog.google"; "openai.com"]);
  (5, [])
]%string.

Definition MIN_SCORE_THRESHOLD : Z := 60.
Definition ARTICLES_PER_CATEGORY : nat := 3.

Definition calculateAuthorityScore (source : string) : Z :=
  let sourceLower := toLowerCase (chars source) in
  match find (fun tier => existsb (fun s => includes sourceLower (chars s)) (snd tier))
             SOURCE_TIERS with
  | Some tier => fst tier
  | None => 5
  end.

(** [`${article.headline} ${article.summary}`] *)
Definition textOf (a : Article) : string :=
  (headline a +:+ " " +:+ summary a)%string.

(** [/\b(should|must|need|wrong|right|better|worse|best|worst)\b/i] *)
Definition opinionPattern : re :=
  boundedWordsI ["should"; "must"; "need"; "wrong"; "right"; "better";
                 "worse"; "best"; "worst"]%string.

Definition businessKeywords : list string :=
  ["ROI"; "revenue"; "growth"; "efficiency"; "productivity";
   "cost"; "profit"; "implementation"; "adoption"; "strategy"]%string.

(** [/\b(study|research|report|survey|data|announce|launch|release|unveil)\b/i] *)
Definition researchPattern : re :=
  boundedWordsI ["study"; "research"; "report"; "survey"; "data";
                 "announce"; "launch"; "release"; "unveil"]%string.

Definition calculateEngagementScoreHeuristic (a : Article) : Z :=
  let text := textOf a in
  let score := 0 in
  let score := if isProvocative text then score + 5 else score in
  let score := if containsQuestion text then score + 3 else score in
  let score := if test opinionPattern (chars text) then score + 2 else score in
  let businessMatches :=
    List.filter (fun k => includes (toLowerCase (chars text)) (toLowerCase (chars k)))
                businessKeywords in
  let score := score + Z.min (Z.of_nat (length businessMatches) * 2) 10 in
  let score := if test researchPattern (chars text) then score + 5 else score in
  Z.min score 25.

Definition majorEntities : list string :=
  ["OpenAI"; "Google"; "Microsoft"; "Apple"; "Meta"; "Amazon"; "Anthropic";
   "Elon Musk"; "Sam Altman"; "Satya Nadella"; "Sundar Pichai"; "Mark Zuckerberg";
   "GPT"; "ChatGPT"; "Claude"; "Gemini"; "Copilot"]%string.

(** [/\b(just|breaking|now|today|announces?|launches?|reveals?)\b/i] *)
Definition breakingPattern : re :=
  Cat WordB
      (Cat (alts [litI (chars "just"); litI (chars "breaking"); litI (chars "now");
                  litI (chars "today");
                  Cat (litI (chars "announce")) (Opt (chrI "s"));
                  Cat (litI (chars "launche")) (Opt (chrI "s"));
                  Cat (litI (chars "reveal")) (Opt (chrI "s"))])
           WordB).

Definition calculateViralityScore (a : Article) : Z :=
  let text := textOf a in
  let score := 0 in
  let score := if containsStatistics text then score + 5 else score in
  let score := if containsQuestion (headline a) || isProvocative (headline a)
               then score + 5 else score in
  let score := if containsKeywords text majorEntities then score + 5 else score in
  let score := if test breakingPattern (chars text) then score + 5 else score in
  Z.min score 20.

Definition seoKeywords : list string :=
  ["AI strategy"; "automation"; "mid-market"; "enterprise";
   "digital transformation"; "business intelligence"; "ROI"]%string.

Definition b2bKeywords : list string :=
  ["B2B"; "enterprise"; "business"; "corporate"; "company";
   "organization"; "industry"; "sector"; "market"]%string.

Definition calculateSeoScore (a : Article) : Z :=
  let text := textOf a in
  let score := 0 in
  let score := if containsKeywords text seoKeywords then score + 5 else score in
  let score := if containsKeywords text b2bKeywords then score + 5 else score in
  Z.min score 10.

(** [src/utils/config.js], [getAIProvider]: the first configured key wins. *)
Inductive AIProvider := openai | anthropic | heuristic.

Definition getAIProvider (openaiKey anthropicKey : string) : AIProvider :=
  if negb (String.eqb openaiKey "") then openai
  else if negb (String.eqb anthropicKey "") then anthropic
  else heuristic.

(** What the request to the completion service does: the [fetch], the
    [json()] call or the access to [data.choices[0]] / [data.content[0]]
    throws; the response arrives with [ok] false; or the score text is
    extracted ([None] when the optional chain yields [undefined]). *)
Inductive AiReply :=
| AiThrows (msg : string)
| AiNotOk
| AiText (scoreText : option string).

Fixpoint digitsValue (acc : Z) (s : list ascii) : Z :=
  match s with
  | c :: s' =>
      if isDigit c then digitsValue (10 * acc + (Z.of_N (code c) - 48)) s'
      else acc
  | [] => acc
  end.

(** [parseInt(scoreText, 10)]: leading white space, an optional sign and
    the longest run of decimal digits; [None] is NaN. *)
Definition parseInt (scoreText : option string) : option Z :=
  match scoreText with
  | None => None
  | Some t =>
      let s := trimStart (chars t) in
      let '(sign, s) :=
        match s with
        | c :: s' =>
            if eqc "-" c then (-1, s')
            else if eqc "+" c then (1, s')
            else (1, s)
        | [] => (1, s)
        end in
      match s with
      | c :: _ => if isDigit c then Some (sign * digitsValue 0 s) else None
      | [] => None
      end
  end.

Definition scoreOfReply (reply : AiReply) (notOkMessage : string) : outcome Z :=
  match reply with
  | AiThrows msg => Err msg
  | AiNotOk => Err notOkMessage
  | AiText scoreText =>
      match parseInt scoreText with
      | None => Ok 12
      | Some score => Ok (Z.min (Z.max score 0) 25)
      end
  end.

Definition calculateEngagementScoreAI (aiProvider : AIProvider) (reply : AiReply)
           (a : Article) : outcome Z :=
  match aiProvider with
  | openai => scoreOfReply reply "OpenAI API error"
  | anthropic => scoreOfReply reply "Anthropic API error"
  | heuristic => Ok (calculateEngagementScoreHeuristic a)
  end.

Definition calculateEngagementScore (aiProvider : AIProvider) (reply : AiReply)
           (a : Article) : outcome Z :=
  match aiProvider with
  | heuristic => Ok (calculateEngagementScoreHeuristic a)
  | _ =>
      tryCatch (calculateEngagementScoreAI aiProvider reply a)
               (fun _ => Ok (calculateEngagementScoreHeuristic a))
  end.

Section Scoring.
Variable Date_parse : string -> option Z.
Variable aiProvider : AIProvider.
(** The reply the completion service gives for each article. *)
Variable aiReply : Article -> AiReply.
Variable now : Z.

Definition scoreArticle (a : Article) : outcome ScoredArticle :=
  let recency := DateUtils.calculateRecencyScore Date_parse now (publishDate a) in
  let authority := calculateAuthorityScore (source a) in
  match calculateEngagementScore aiProvider (aiReply a) a with
  | Err msg => Err msg
  | Ok engagement =>
      let virality := calculateViralityScore a in
      let seo := calculateSeoScore a in
      Ok {| article := a;
            score := recency + authority + engagement + virality + seo;
            recencyScore := recency; authorityScore := authority;
            engagementScore := engagement; viralityScore := virality;
            seoScore := seo;
            categoryRank := None; postingSlot := None; postNumber := None;
            mabQuoteNumber := None |}
  end.

(** Stable insertion for [sort((a, b) => b.score - a.score)]: [x] goes
    before the first element whose score does not exceed its own. *)
Fixpoint insertDesc (x : ScoredArticle) (l : list ScoredArticle)
  : list ScoredArticle :=
  match l with
  | [] => [x]
  | y :: l' => if score y <=? score x then x :: l else y :: insertDesc x l'
  end.

Definition sortByScoreDesc (l : list ScoredArticle) : list ScoredArticle :=
  foldr insertDesc [] l.

(** An article whose scoring throws is skipped. *)
Definition scoreArticles (articles : list Article) : list ScoredArticle :=
  sortByScoreDesc
    (omap (fun a => match scoreArticle a with Ok s => Some s | Err _ => None end)
          articles).
End Scoring.

Definition setRank (r : Z) (a : ScoredArticle) : ScoredArticle :=
  {| article := article a; score := score a; recencyScore := recencyScore a;
     authorityScore := authorityScore a; engagementScore := engagementScore a;
     viralityScore := viralityScore a; seoScore := seoScore a;
     categoryRank := Some r; postingSlot := postingSlot a;
     postNumber := postNumber a; mabQuoteNumber := mabQuoteNumber a |}.

Definition setSlot (slot : PostingSchedule.TimeSlot) (quoteId : option Z)
           (a : ScoredArticle) : ScoredArticle :=
  {| article := article a; score := score a; recencyScore := recencyScore a;
     authorityScore := authorityScore a; engagementScore := engagementScore a;
     viralityScore := viralityScore a; seoScore := seoScore a;
     categoryRank := categoryRank a;
     postingSlot := Some (pretty (PostingSchedule.hour slot) +:+ ":00")%string;
     postNumber := Some (PostingSchedule.postNumber slot);
     mabQuoteNumber :=
       if PostingSchedule.includeQuote slot then quoteId else mabQuoteNumber a |}.

Definition categoryOf (a : ScoredArticle) : string := category (article a).

(** The property names a plain object [{}] inherits from
    [Object.prototype].  Read on such an object, each yields a function,
    [__proto__] the prototype object itself: a truthy value that has no
    [push] method. *)
Definition OBJECT_PROTOTYPE_KEYS : list string :=
  ["constructor"; "__defineGetter__"; "__defineSetter__"; "hasOwnProperty";
   "__lookupGetter__"; "__lookupSetter__"; "isPrototypeOf";
   "propertyIsEnumerable"; "toString"; "valueOf"; "__proto__";
   "toLocaleString"]%string.

Definition isInheritedKey (key : string) : bool :=
  existsb (String.eqb key) OBJECT_PROTOTYPE_KEYS.

(** The [TypeError] of calling the missing [push]. *)
Definition pushIsNotAFunction : string :=
  "articlesByCategory[article.category].push is not a function".

(** One round of the grouping loop on a category that is no inherited
    name: the array stored under the category is created when missing,
    and the article is pushed onto it. *)
Definition pushByCategory (m : gmap string (list ScoredArticle)) (a : ScoredArticle)
  : gmap string (list ScoredArticle) :=
  <[categoryOf a := default [] (m !! categoryOf a) ++ [a]]> m.

(** The grouping loop over the dictionary [articlesByCategory = {}].
    For a category that is an inherited name the test
    [!articlesByCategory[article.category]] finds the inherited value,
    no array is created, and the call of [push] throws. *)
Definition groupByCategory (l : list ScoredArticle)
  : outcome (gmap string (list ScoredArticle)) :=
  fold_left
    (fun acc a =>
       match acc with
       | Err msg => Err msg
       | Ok m =>
           if isInheritedKey (categoryOf a) then Err pushIsNotAFunction
           else Ok (pushByCategory m a)
       end)
    l (Ok ∅).

(** [forEach((article, index) => article.categoryRank = index + 1)] *)
Definition assignRanks (l : list ScoredArticle) : list ScoredArticle :=
  imap (fun index a => setRank (Z.of_nat index + 1) a) l.

Definition selectForCategory (byCategory : gmap string (list ScoredArticle))
           (categoryId : string) : list ScoredArticle :=
  let categoryArticles := default [] (byCategory !! categoryId) in
  let qualifiedArticles :=
    List.filter (fun a => MIN_SCORE_THRESHOLD <=? score a) categoryArticles in
  let articlesToSelect :=
    if (ARTICLES_PER_CATEGORY <=? length qualifiedArticles)%nat
    then take ARTICLES_PER_CATEGORY qualifiedArticles
    else take ARTICLES_PER_CATEGORY categoryArticles in
  assignRanks articlesToSelect.

Fixpoint updateFirst (p : ScoredArticle -> bool) (f : ScoredArticle -> ScoredArticle)
         (l : list ScoredArticle) : list ScoredArticle :=
  match l with
  | [] => []
  | x :: l' => if p x then f x :: l' else x :: updateFirst p f l'
  end.

Definition matchesSlot (slot : PostingSchedule.TimeSlot) (a : ScoredArticle) : bool :=
  String.eqb (categoryOf a) (PostingSchedule.categoryId slot) &&
  match categoryRank a with
  | Some r => r =? PostingSchedule.categoryRank slot
  | None => false
  end.

(** [quoteId] is [getQuoteForDay().id]. *)
Definition assignPostingSlots (quoteId : option Z) (articles : list ScoredArticle)
  : list ScoredArticle :=
  fold_left
    (fun arts slot => updateFirst (matchesSlot slot) (setSlot slot quoteId) arts)
    PostingSchedule.POSTING_SCHEDULE articles.

(** The selection of the three categories, in their order, from the
    grouped articles. *)
Definition selectFromGroups (quoteId : option Z)
           (articlesByCategory : gmap string (list ScoredArticle))
  : list ScoredArticle :=
  let selectedArticles :=
    concat (map (fun c => selectForCategory articlesByCategory (Categories.id c))
                Categories.CATEGORIES) in
  assignPostingSlots quoteId selectedArticles.

(** An error of the grouping loop leaves the method before anything is
    selected. *)
Definition selectTopArticles (quoteId : option Z) (scoredArticles : list ScoredArticle)
  : outcome (list ScoredArticle) :=
  match groupByCategory scoredArticles with
  | Err msg => Err msg
  | Ok articlesByCategory => Ok (selectFromGroups quoteId articlesByCategory)
  end.

End Filter.

(** ** [src/services/scheduler.js] *)

Module Scheduler.
Import PostingSchedule.

Inductive Status := pending | ready | noArticle | posted | failed.

Record ScheduledPost := {
  id : string;
  postNumber : Z;
  hour : Z;
  utcHour : Z;
  categoryId : string;
  categoryRank : Z;
  includeQuote : bool;
  quoteId : option Z;
  article : option Filter.ScoredArticle;
  tweetText : option string;
  hashtags : list string;
  status : Status;
  tweetId : option string;
  postedAt : option Z;
  error : option string
}.

Definition statusName (st : Status) : string :=
  match st with
  | pending => "pending"
  | ready => "ready"
  | noArticle => "no-article"
  | posted => "posted"
  | failed => "failed"
  end.

(** The service object: [this.queue] and [this.postedToday]. *)
Record State := {
  queue : gmap string ScheduledPost;
  postedToday : gset string
}.

Definition constructor : State := {| queue := ∅; postedToday := ∅ |}.

Definition withStatus (st : Status) (p : ScheduledPost) : ScheduledPost :=
  {| id := id p; postNumber := postNumber p; hour := hour p; utcHour := utcHour p;
     categoryId := categoryId p; categoryRank := categoryRank p;
     includeQuote := includeQuote p; quoteId := quoteId p; article := article p;
     tweetText := tweetText p; hashtags := hashtags p; status := st;
     tweetId := tweetId p; postedAt := postedAt p; error := error p |}.

Definition withArticle (a : Filter.ScoredArticle) (p : ScheduledPost) : ScheduledPost :=
  {| id := id p; postNumber := postNumber p; hour := hour p; utcHour := utcHour p;
     categoryId := categoryId p; categoryRank := categoryRank p;
     includeQuote := includeQuote p; quoteId := quoteId p; article := Some a;
     tweetText := tweetText p; hashtags := hashtags p; status := status p;
     tweetId := tweetId p; postedAt := postedAt p; error := error p |}.

Definition withTweet (tid : string) (at_ : Z) (p : ScheduledPost) : ScheduledPost :=
  {| id := id p; postNumber := postNumber p; hour := hour p; utcHour := utcHour p;
     categoryId := categoryId p; categoryRank := categoryRank p;
     includeQuote := includeQuote p; quoteId := quoteId p; article := article p;
     tweetText := tweetText p; hashtags := hashtags p; status := status p;
     tweetId := Some tid; postedAt := Some at_; error := error p |}.

Definition withError (e : string) (p : ScheduledPost) : ScheduledPost :=
  {| id := id p; postNumber := postNumber p; hour := hour p; utcHour := utcHour p;
     categoryId := categoryId p; categoryRank := categoryRank p;
     includeQuote := includeQuote p; quoteId := quoteId p; article := article p;
     tweetText := tweetText p; hashtags := hashtags p; status := status p;
     tweetId := tweetId p; postedAt := postedAt p; error := Some e |}.

Definition withContent (text : string) (tags : list string) (p : ScheduledPost)
  : ScheduledPost :=
  {| id := id p; postNumber := postNumber p; hour := hour p; utcHour := utcHour p;
     categoryId := categoryId p; categoryRank := categoryRank p;
     includeQuote := includeQuote p; quoteId := quoteId p; article := article p;
     tweetText := Some text; hashtags := tags; status := status p;
     tweetId := tweetId p; postedAt := postedAt p; error := error p |}.

(** [`${today}-${slot.postNumber}`] *)
Definition postIdOf (today : string) (n : Z) : string :=
  (today +:+ "-" +:+ pretty n)%string.

Definition newPost (tza now : Z) (today : string) (quoteOfDay : option Z)
           (slot : TimeSlot) : ScheduledPost :=
  {| id := postIdOf today (PostingSchedule.postNumber slot);
     postNumber := PostingSchedule.postNumber slot;
     hour := PostingSchedule.hour slot;
     utcHour := if isEasternDST tza now then PostingSchedule.utcHourDST slot
                else PostingSchedule.utcHour slot;
     categoryId := PostingSchedule.categoryId slot;
     categoryRank := PostingSchedule.categoryRank slot;
     includeQuote := PostingSchedule.includeQuote slot;
     quoteId := if PostingSchedule.includeQuote slot then quoteOfDay else None;
     article := None; tweetText := None; hashtags := []; status := pending;
     tweetId := None; postedAt := None; error := None |}.

(** [now] is the time value of the [new Date()] each helper takes; the
    calls happen within the same millisecond range of one invocation. *)
Definition initializeDailySchedule (tza now : Z) (s : State) : State :=
  let today := DateUtils.getTodayString now in
  let quoteOfDay := MabQuotes.getQuoteForDay tza now in
  {| queue :=
       fold_left (fun q slot =>
                    let post := newPost tza now today quoteOfDay slot in
                    <[id post := post]> q)
                 POSTING_SCHEDULE (queue s);
     postedToday := postedToday s |}.

(** The slot lookup of [assignArticlesToSchedule]:
    [categoryArticles[post.categoryRank - 1]], [undefined] outside the
    array. *)
Definition articleForPost (byCategory : gmap string (list Filter.ScoredArticle))
           (post : ScheduledPost) : option Filter.ScoredArticle :=
  let categoryArticles := default [] (byCategory !! categoryId post) in
  let index := categoryRank post - 1 in
  if index <? 0 then None else categoryArticles !! Z.to_nat index.

Definition assignPost (byCategory : gmap string (list Filter.ScoredArticle))
           (post : ScheduledPost) : ScheduledPost :=
  match articleForPost byCategory post with
  | Some a => withStatus ready (withArticle a post)
  | None => withStatus noArticle post
  end.

(** Every post of the queue is rewritten under its own key.  The
    grouping loop comes first: when it throws, the method is left with
    no post touched. *)
Definition assignArticlesToSchedule (rankedArticles : list Filter.ScoredArticle)
           (s : State) : outcome State :=
  match Filter.groupByCategory rankedArticles with
  | Err msg => Err msg
  | Ok articlesByCategory =>
      Ok {| queue := assignPost articlesByCategory <$> queue s;
            postedToday := postedToday s |}
  end.

(** The id [getCurrentPost] resolves the instant [now] to. *)
Definition currentPostId (tza now : Z) : option string :=
  let isDST := isEasternDST tza now in
  let utcHour := JsDate.getUTCHours now in
  match getTimeSlotForUTCHour utcHour isDST with
  | None => None
  | Some timeSlot =>
      Some (postIdOf (DateUtils.getTodayString now)
                     (PostingSchedule.postNumber timeSlot))
  end.

Definition getCurrentPost (tza now : Z) (s : State) : option ScheduledPost :=
  match currentPostId tza now with
  | None => None
  | Some postId =>
      match queue s !! postId with
      | None => None
      | Some post =>
          if decide (postId ∈ postedToday s) then None else Some post
      end
  end.

Definition markPosted (now : Z) (postId tweetId : string) (s : State) : State :=
  match queue s !! postId with
  | Some post =>
      {| queue := <[postId := withTweet tweetId now (withStatus posted post)]> (queue s);
         postedToday := {[postId]} ∪ postedToday s |}
  | None => s
  end.

Definition markFailed (postId error : string) (s : State) : State :=
  match queue s !! postId with
  | Some post =>
      {| queue := <[postId := withError error (withStatus failed post)]> (queue s);
         postedToday := postedToday s |}
  | None => s
  end.

Definition setTweetContent (postId tweetText : string) (tags : list string)
           (s : State) : State :=
  match queue s !! postId with
  | Some post =>
      {| queue := <[postId := withContent tweetText tags post]> (queue s);
         postedToday := postedToday s |}
  | None => s
  end.

Definition clearSchedule (s : State) : State := constructor.

(** The queue is emptied, the posted set is kept and extended. *)
Definition importSchedule (schedule : list ScheduledPost) (s : State) : State :=
  fold_left
    (fun st post =>
       {| queue := <[id post := post]> (queue st);
          postedToday :=
            match status post with
            | posted => {[id post]} ∪ postedToday st
            | _ => postedToday st
            end |})
    schedule
    {| queue := ∅; postedToday := postedToday s |}.

(** The copy of an article [exportSchedule] makes: headline, URL and
    source.  The fields the copy lacks read as the empty value of their
    type. *)
Definition exportedArticle (a : Filter.ScoredArticle) : Filter.ScoredArticle :=
  {| Filter.article :=
       {| Filter.headline := Filter.headline (Filter.article a);
          Filter.url := Filter.url (Filter.article a);
          Filter.source := Filter.source (Filter.article a);
          Filter.publishDate := DateUtils.PdDate None;
          Filter.summary := "";
          Filter.category := "";
          Filter.apiUsed := "" |};
     Filter.score := 0;
     Filter.recencyScore := 0; Filter.authorityScore := 0;
     Filter.engagementScore := 0; Filter.viralityScore := 0;
     Filter.seoScore := 0;
     Filter.categoryRank := None; Filter.postingSlot := None;
     Filter.postNumber := None; Filter.mabQuoteNumber := None |}.

Definition exportedPost (p : ScheduledPost) : ScheduledPost :=
  {| id := id p; postNumber := postNumber p; hour := hour p; utcHour := utcHour p;
     categoryId := categoryId p; categoryRank := categoryRank p;
     includeQuote := includeQuote p; quoteId := quoteId p;
     article := exportedArticle <$> article p;
     tweetText := tweetText p; hashtags := hashtags p; status := status p;
     tweetId := tweetId p; postedAt := postedAt p; error := error p |}.

(** [exportSchedule]: the posts of the queue, copied.  The list is in
    the order of the keys where the source lists the posts in the order
    in which their keys were first set; what [importSchedule] makes of a
    list of posts with distinct ids does not depend on its order. *)
Definition exportSchedule (s : State) : list ScheduledPost :=
  (fun entry => exportedPost entry.2) <$> map_to_list (queue s).

Definition shouldRunScraping (tza now : Z) : bool :=
  let isDST := isEasternDST tza now in
  let utcHour := JsDate.getUTCHours now in
  let utcMinute := JsDate.getUTCMinutes now in
  let targetHour := if isDST then 11 else 12 in
  let targetMinute := 30 in
  (utcHour =? targetHour) && (targetMinute <=? utcMinute) &&
  (utcMinute <? targetMinute + 5).

Definition shouldRunPosting (tza now : Z) : bool :=
  match getTimeSlotForUTCHour (JsDate.getUTCHours now) (isEasternDST tza now) with
  | Some _ => true
  | None => false
  end.

Record TimeUntil := {
  hours : Z;
  minutes : Z;
  nextSlot : option TimeSlot
}.

(** [Math.floor(minutesUntil / 60)] and [minutesUntil % 60] on a
    positive count of minutes. *)
Definition timeUntilSlot (isDST : bool) (currentUTCHour currentMinutes : Z) : TimeUntil :=
  match firstSlotAfter isDST currentUTCHour with
  | Some slot =>
      let slotHour := slotUTCHour isDST slot in
      let hoursUntil := slotHour - currentUTCHour - 1 in
      let minutesUntil := 60 - currentMinutes in
      {| hours := hoursUntil + minutesUntil / 60;
         minutes := Z.rem minutesUntil 60;
         nextSlot := Some slot |}
  | None => {| hours := 0; minutes := 0; nextSlot := None |}
  end.

Definition getTimeUntilNextPost (tza now : Z) : TimeUntil :=
  timeUntilSlot (isEasternDST tza now) (JsDate.getUTCHours now)
                (JsDate.getUTCMinutes now).

End Scheduler.

(** ** [src/agents/poster.js] *)

Module Poster.
Import Scheduler.

Record TweetContent := {
  text : string;
  contentHashtags : list string;
  tone : string
}.

(** What one invocation observes of its collaborators. *)
Record World := {
  (** [createTweetContent(post, forceTone)]: summary service, hashtag
      lookup and the random choice of a hook, or the error it throws *)
  createTweetContent : ScheduledPost -> option string -> outcome TweetContent;
  (** [twitter.isDuplicate(text)] *)
  isDuplicate : string -> outcome bool;
  (** the request behind [twitter.postTweet(text)]: the id of the tweet *)
  postRequest : string -> outcome string;
  (** [logPostedTweet] *)
  logPostedTweet : ScheduledPost -> outcome unit;
  dryRun : bool;
  (** [Date.now()] for the synthetic id of a dry run *)
  clock : Z
}.

Inductive Event :=
| Published (tweetText : string)
| Logged (postId : string)
| Alerted (phase message : string).

Record ResultPost := {
  rId : string;
  rTweetId : string;
  rText : string
}.

Record Result := {
  success : bool;
  post : option ResultPost;
  resultError : option string;
  message : option string
}.

(** [twitter.postTweet]: the length check comes before the request. *)
Definition postTweet (w : World) (tweetText : string) : outcome string :=
  let length := TextUtils.calculateTweetLength tweetText in
  if TextUtils.MAX_TWEET_LENGTH <? length
  then Err ("Tweet too long: " +:+ pretty length +:+ " characters (max " +:+
            pretty TextUtils.MAX_TWEET_LENGTH +:+ ")")%string
  else postRequest w tweetText.

(** The [catch] block of [run]: the result records the failure and an
    alert is sent; the scheduler is left as the [try] block left it. *)
Definition caught (s : State) (p : option ResultPost) (evs : list Event)
           (msg : string) : State * Result * list Event :=
  (s,
   {| success := false; post := p; resultError := Some msg; message := None |},
   evs ++ [Alerted "poster" msg]).

Definition run (tza now : Z) (w : World) (s : State)
  : State * Result * list Event :=
  match getCurrentPost tza now s with
  | None =>
      (s, {| success := true; post := None; resultError := None;
             message := Some "No post scheduled"%string |}, [])
  | Some p =>
      match status p with
      | ready =>
          match createTweetContent w p None with
          | Err msg => caught s None [] msg
          | Ok tweetContent =>
              match isDuplicate w (text tweetContent) with
              | Err msg => caught s None [] msg
              | Ok dup =>
                  let alternate :=
                    if dup then createTweetContent w p (Some "contrarian"%string)
                    else Ok tweetContent in
                  match alternate with
                  | Err msg => caught s None [] msg
                  | Ok alt =>
                      let tweetText := text alt in
                      let posting :=
                        if dryRun w
                        then Ok ("dry-run-" +:+ pretty (clock w))%string
                        else postTweet w tweetText in
                      match posting with
                      | Err msg => caught s None [] msg
                      | Ok tid =>
                          let evs := if dryRun w then [] else [Published tweetText] in
                          let s' := markPosted now (id p) tid s in
                          let logging :=
                            if dryRun w then Ok tt else logPostedTweet w p in
                          match logging with
                          | Err msg => caught s' None evs msg
                          | Ok _ =>
                              (s',
                               {| success := true;
                                  post := Some {| rId := id p; rTweetId := tid;
                                                  rText := tweetText |};
                                  resultError := None; message := None |},
                               evs ++ (if dryRun w then [] else [Logged (id p)]))
                          end
                      end
                  end
              end
          end
      | _ =>
          (s, {| success := false; post := None;
                 resultError := Some ("Post not ready: " +:+ statusName (status p))%string;
                 message := None |}, [])
      end
  end.

(** [retryPost]: a failed post is put back to [ready] and [run] is
    called; [None] stands for the early returns. *)
Definition retryPost (tza now : Z) (w : World) (postId : string) (s : State)
  : option (State * Result * list Event) :=
  match queue s !! postId with
  | None => None
  | Some p =>
      match status p with
      | failed =>
          Some (run tza now w
                    {| queue := <[postId := withStatus ready p]> (queue s);
                       postedToday := postedToday s |})
      | _ => None
      end
  end.

End Poster.

(** ** [src/index.js]: the posting trigger *)

Module Worker.
Import Scheduler.

(** A data row of the sheet [Headlines_<today>], in the cells
    [runPosting] reads: rank, category, headline, URL, source, total
    score, posting slot and quote number.  The numeric cells hold what
    [parseInt] and [parseFloat] read from them ([None] for NaN and for an
    empty quote cell), the total being an integer as the selection
    writes it. *)
Record HeadlineRow := {
  rowRank : option Z;
  rowCategory : string;
  rowHeadline : string;
  rowUrl : string;
  rowSource : string;
  rowScore : Z;
  rowPostingSlot : option string;
  rowQuote : option Z
}.

(** The article object built from a row.  The fields the object lacks
    read as the empty value of their type. *)
Definition articleOfRow (row : HeadlineRow) : Filter.ScoredArticle :=
  {| Filter.article :=
       {| Filter.headline := rowHeadline row;
          Filter.url := rowUrl row;
          Filter.source := rowSource row;
          Filter.publishDate := DateUtils.PdDate None;
          Filter.summary := "";
          Filter.category := rowCategory row;
          Filter.apiUsed := "" |};
     Filter.score := rowScore row;
     Filter.recencyScore := 0; Filter.authorityScore := 0;
     Filter.engagementScore := 0; Filter.viralityScore := 0;
     Filter.seoScore := 0;
     Filter.categoryRank := rowRank row;
     Filter.postingSlot := rowPostingSlot row;
     Filter.postNumber := None;
     Filter.mabQuoteNumber := rowQuote row |}.

(** The scheduler [runPosting] builds: a new service, today's schedule
    and, when the sheet holds a row after its header, the articles of the
    rows assigned.  An error of the read or of the assignment is logged
    and the schedule is used as it stands.  [headlines] is what
    [readSheet] yields: the header and the data rows, the header being
    dropped unread. *)
Definition loadedSchedule (tza now : Z) (headlines : outcome (list HeadlineRow))
  : State :=
  let scheduler := initializeDailySchedule tza now constructor in
  match headlines with
  | Err _ => scheduler
  | Ok rows =>
      if (1 <? length rows)%nat
      then
        let articles := map articleOfRow (drop 1 rows) in
        match assignArticlesToSchedule articles scheduler with
        | Ok assigned => assigned
        | Err _ => scheduler
        end
      else scheduler
  end.

(** The scheduler of the new poster agent once the exported schedule is
    imported into it. *)
Definition posterSchedule (tza now : Z) (headlines : outcome (list HeadlineRow))
  : State :=
  importSchedule (exportSchedule (loadedSchedule tza now headlines)) constructor.

(** [runPosting]: every trigger builds its agent and its schedulers
    anew and runs the poster on them; none of these objects outlives the
    call. *)
Definition runPosting (tza now : Z) (headlines : outcome (list HeadlineRow))
           (w : Poster.World) : Poster.Result * list Poster.Event :=
  let '(_, result, events) := Poster.run tza now w (posterSchedule tza now headlines) in
  (result, events).

End Worker.

(** ** [src/utils/validator.js] *)

Module Validator.
Import JsString Filter.

Section Validation.
(** [new URL(url)] succeeds with protocol [http:] or [https:]. *)
Variable urlParses : string -> bool.
Variable Date_parse : string -> option Z.

Definition isValidUrl (u : string) : bool :=
  if String.eqb u "" then false else urlParses u.

(** The [valid] flag of [validateArticle]; [None] is an argument that
    is not an object.  An empty publish date is falsy and not checked. *)
Definition validateArticle (article : option Article) : bool :=
  match article with
  | None => false
  | Some a =>
      (negb (String.eqb (headline a) "") && (10 <=? String.length (headline a))%nat) &&
      isValidUrl (url a) &&
      negb (String.eqb (source a) "") &&
      (negb (String.eqb (summary a) "") && (20 <=? String.length (summary a))%nat) &&
      negb (String.eqb (category a) "") &&
      match publishDate a with
      | DateUtils.PdString EmptyString => true
      | pd =>
          match DateUtils.toDate Date_parse pd with
          | Some _ => true
          | None => false
          end
      end
  end.
End Validation.

(** [replace(/\/$/, '')] *)
Definition dropTrailingSlash (s : list ascii) : list ascii :=
  match rev s with
  | c :: r => if eqc "/" c then rev r else s
  | [] => s
  end.

(** [replace(/\?.*$/, '')]: cut at the first question mark that no line
    terminator follows. *)
Fixpoint dropQuery (s : list ascii) : list ascii :=
  match s with
  | [] => []
  | c :: s' =>
      if eqc "?" c && negb (existsb isLineTerminator s') then []
      else c :: dropQuery s'
  end.

Definition normalizeUrl (u : string) : string :=
  string_of_list_ascii (toLowerCase (dropQuery (dropTrailingSlash (chars u)))).

(** The filter of [deduplicateArticles], with the set [seen] threaded. *)
Fixpoint dedupFrom (seen : gset string) (articles : list Article) : list Article :=
  match articles with
  | [] => []
  | a :: rest =>
      if String.eqb (url a) "" then dedupFrom seen rest
      else
        let normalizedUrl := normalizeUrl (url a) in
        if decide (normalizedUrl ∈ seen) then dedupFrom seen rest
        else a :: dedupFrom ({[normalizedUrl]} ∪ seen) rest
  end.

Definition deduplicateArticles (articles : list Article) : list Article :=
  dedupFrom ∅ articles.

End Validator.

(** ** [src/agents/scraper.js] *)

Module Scraper.
Import Filter Validator.

Definition MIN_ARTICLES_PER_CATEGORY : nat := 5.
Definition TARGET_ARTICLES_PER_CATEGORY : nat := 15.
Definition MAX_RETRIES : nat := 2.

(** One item of a provider payload after [sanitizeArticle]; [None] is
    an item that is not an object. *)
Definition RawItem := option Article.

Record CategoryResult := {
  categoryId : string;
  success : bool;
  articles : list Article;
  resultApiUsed : option string;
  error : option string;
  perplexityArticles : option (list Article);
  perplexityError : option string;
  newsApiError : option string
}.

Inductive Event :=
| CriticalFailure (categoryName : string).

Section Scrape.
Variable urlParses : string -> bool.
Variable Date_parse : string -> option Z.
(** The outcome of the [n]-th call of [perplexity.searchNews]. *)
Variable perplexitySearch : nat -> outcome (list RawItem).
Variable newsApiSearch : outcome (list RawItem).
(** [sheets.readSheet] of yesterday's scrape: rows of cells. *)
Variable readSheet : outcome (list (list string)).

Definition enrichArticle (item : RawItem) (category apiUsed : string) : RawItem :=
  match item with
  | None => None
  | Some a =>
      Some {| headline := headline a; url := url a; source := source a;
              publishDate := publishDate a; summary := summary a;
              category := category; apiUsed := apiUsed |}
  end.

Definition valid (item : RawItem) : bool :=
  validateArticle urlParses Date_parse item.

(** The validating filter.  On the Perplexity path the callback reads
    [article.headline] of an invalid item for the log, which throws
    for [null]. *)
Definition validOnes (items : list RawItem) : list Article :=
  omap (fun item => if valid item then item else None) items.

Definition nullMessage : string :=
  "Cannot read properties of null (reading 'headline')".

(** The retry loop of [scrapeWithPerplexity]: attempts
    [attempt], [attempt + 1], ... while [left] remain. *)
Fixpoint perplexityAttempts (categoryId : string) (attempt left : nat)
         (lastError : string) : outcome (list Article) :=
  match left with
  | O => Err lastError
  | S left' =>
      match perplexitySearch attempt with
      | Err msg => perplexityAttempts categoryId (S attempt) left' msg
      | Ok items =>
          let enriched :=
            map (fun i => enrichArticle i categoryId "perplexity") items in
          if existsb (fun i => negb (valid i) &&
                               match i with None => true | Some _ => false end)
                     enriched
          then perplexityAttempts categoryId (S attempt) left' nullMessage
          else Ok (validOnes enriched)
      end
  end.

Definition scrapeWithPerplexity (category : Categories.Category)
  : outcome (list Article) :=
  perplexityAttempts (Categories.id category) 0 (S MAX_RETRIES) "".

Definition scrapeWithNewsApi (category : Categories.Category)
  : outcome (list Article) :=
  match newsApiSearch with
  | Err msg => Err msg
  | Ok items =>
      Ok (validOnes
            (map (fun i => enrichArticle i (Categories.id category) "newsapi") items))
  end.

Definition cell (row : list string) (i : nat) : string :=
  default ""%string (row !! i).

(** Rows of another category are dropped; a failing read gives no
    articles. *)
Definition getPreviousDayArticles (categoryId : string) : list Article :=
  match readSheet with
  | Err _ => []
  | Ok rows =>
      if (length rows <=? 1)%nat then []
      else
        take TARGET_ARTICLES_PER_CATEGORY
          (map (fun row =>
                  {| headline := cell row 2; url := cell row 3;
                     source := cell row 4;
                     publishDate := DateUtils.PdString (cell row 5);
                     summary := cell row 6; category := categoryId;
                     apiUsed := "previous-day" |})
               (List.filter (fun row => String.eqb (cell row 1) categoryId)
                            (drop 1 rows)))
  end.

(** The last two stages of [scrapeCategory], entered with the fields
    the first two have set. *)
Definition previousDayStage (category : Categories.Category)
           (fromPerplexity : option (list Article))
           (perplexityErr newsApiErr : option string)
  : CategoryResult * list Event :=
  let previousDayArticles := getPreviousDayArticles (Categories.id category) in
  if (0 <? length previousDayArticles)%nat
  then ({| categoryId := Categories.id category; success := true;
           articles := previousDayArticles;
           resultApiUsed := Some "previous-day"%string; error := None;
           perplexityArticles := fromPerplexity;
           perplexityError := perplexityErr; newsApiError := newsApiErr |}, [])
  else ({| categoryId := Categories.id category; success := false;
           articles := [];
           resultApiUsed := None;
           error := Some "All scraping methods failed"%string;
           perplexityArticles := fromPerplexity;
           perplexityError := perplexityErr; newsApiError := newsApiErr |},
        [CriticalFailure (Categories.name category)]).

Definition newsApiStage (category : Categories.Category)
           (fromPerplexity : option (list Article)) (perplexityErr : option string)
  : CategoryResult * list Event :=
  match scrapeWithNewsApi category with
  | Err msg => previousDayStage category fromPerplexity perplexityErr (Some msg)
  | Ok newsApiArticles =>
      let combined :=
        deduplicateArticles (default [] fromPerplexity ++ newsApiArticles) in
      if (MIN_ARTICLES_PER_CATEGORY <=? length combined)%nat
      then ({| categoryId := Categories.id category; success := true;
               articles := take TARGET_ARTICLES_PER_CATEGORY combined;
               resultApiUsed :=
                 Some (match fromPerplexity with
                       | Some (_ :: _) => "combined"
                       | _ => "newsapi"
                       end)%string;
               error := None;
               perplexityArticles := fromPerplexity;
               perplexityError := perplexityErr; newsApiError := None |}, [])
      else previousDayStage category fromPerplexity perplexityErr None
  end.

Definition scrapeCategory (category : Categories.Category)
  : CategoryResult * list Event :=
  match scrapeWithPerplexity category with
  | Ok arts =>
      if (MIN_ARTICLES_PER_CATEGORY <=? length arts)%nat
      then ({| categoryId := Categories.id category; success := true;
               articles := arts;
               resultApiUsed := Some "perplexity"%string; error := None;
               perplexityArticles := None;
               perplexityError := None; newsApiError := None |}, [])
      else newsApiStage category (Some arts) None
  | Err msg => newsApiStage category None (Some msg)
  end.
End Scrape.

End Scraper.

(** * Vocabulary of the properties *)

Module Vocabulary.
Import JsDate.

(** The elapsed hours [calculateRecencyScore] compares: [None] for an
    unparsable or invalid publish date. *)
Definition hoursAgoOf (Date_parse : string -> option Z) (now : Z)
           (pd : DateUtils.PublishDate) : option Q :=
  DateUtils.hoursBetween (DateUtils.toDate Date_parse pd) (Some now).

(** The instant a publish timestamp denotes: the time value of a [Date],
    or the one the date parser reads from a string; an Invalid Date and
    an unparsable string denote none. *)
Definition publishInstant (Date_parse : string -> option Z)
           (pd : DateUtils.PublishDate) (t : Z) : Prop :=
  match pd with
  | DateUtils.PdDate tv => tv = Some t
  | DateUtils.PdString s => Date_parse s = Some t
  end.

(** Hours elapsed at the instant [now] since the instant [t]: the
    difference of the time values over the 3 600 000 ms of an hour. *)
Definition elapsedHours (now t : Z) : Q :=
  (inject_Z (now - t) / inject_Z 3600000)%Q.

(** Day [d] of month [m] (0-based) of year [y] is the [k]-th Sunday of
    that month. *)
Definition nthSunday (k y m d : Z) : Prop :=
  7 * (k - 1) + 1 <= d <= 7 * k /\ WeekDayOfDay (MakeDay y m d) = 0.



(** The reply of the completion service carries no usable score: its text
    is not a number, or the number lies outside 0..25. *)
Definition nonNumericOrOutOfRange (scoreText : option string) : Prop :=
  match Filter.parseInt scoreText with
  | None => True
  | Some n => n < 0 \/ 25 < n
  end.

Definition requestFails (reply : Filter.AiReply) : Prop :=
  match reply with
  | Filter.AiThrows _ | Filter.AiNotOk => True
  | Filter.AiText _ => False
  end.

(** The fallback rule as the specification words it: the heuristic score
    is returned on a failed request and also on a non-numeric or
    out-of-range answer. *)
Definition engagementFallsBackAsStated : Prop :=
  forall (aiProvider : Filter.AIProvider) (reply : Filter.AiReply) (a : Filter.Article),
  exists v,
    Filter.calculateEngagementScore aiProvider reply a = Ok v /\
    0 <= v <= 25 /\
    (requestFails reply -> v = Filter.calculateEngagementScoreHeuristic a) /\
    (forall scoreText, reply = Filter.AiText scoreText ->
       nonNumericOrOutOfRange scoreText ->
       v = Filter.calculateEngagementScoreHeuristic a).

(** The headline of the repository's own cap test matches all four
    virality patterns. *)
Definition breakingArticle : Filter.Article :=
  {| Filter.headline := "Breaking: OpenAI Just Announced 100% Improvement?";
     Filter.url := "https://techcrunch.com/article";
     Filter.source := "TechCrunch";
     Filter.publishDate := DateUtils.PdDate (Some 0);
     Filter.summary := "OpenAI has unveiled significant improvements to their AI models, showing 50% better performance.";
     Filter.category := "ai-providers";
     Filter.apiUsed := "perplexity" |}.

(** An article none of the engagement patterns match. *)
Definition neutralArticle : Filter.Article :=
  {| Filter.headline := "Company Releases New Software Update";
     Filter.url := "https://example.com/update";
     Filter.source := "Example";
     Filter.publishDate := DateUtils.PdDate (Some 0);
     Filter.summary := "A software update was released today.";
     Filter.category := "business-ai";
     Filter.apiUsed := "perplexity" |}.

(** What the ranking claims observe of a selected article: the article,
    its total score and its rank. *)
Definition view (a : Filter.ScoredArticle) : Filter.Article * Z * option Z :=
  (Filter.article a, Filter.score a, Filter.categoryRank a).

Definition sortedByScoreDesc (l : list Filter.ScoredArticle) : Prop :=
  StronglySorted (fun a b => Filter.score b <= Filter.score a) l.

Definition inCategory (c : string) (l : list Filter.ScoredArticle)
  : list Filter.ScoredArticle :=
  List.filter (fun a => String.eqb (Filter.categoryOf a) c) l.

(** The dictionary the grouping loop builds when it does not throw: the
    articles pushed one after the other. *)
Definition grouped (l : list Filter.ScoredArticle)
  : gmap string (list Filter.ScoredArticle) :=
  fold_left Filter.pushByCategory l ∅.

(** No article's category is a property name that a plain object
    inherits. *)
Definition plainCategories (l : list Filter.ScoredArticle) : Prop :=
  forall a, In a l -> ~ In (Filter.categoryOf a) Filter.OBJECT_PROTOTYPE_KEYS.

(** Every article belongs to one of the three categories of the
    system. *)
Definition ofTheThreeCategories (l : list Filter.ScoredArticle) : Prop :=
  forall a, In a l ->
    In (Filter.categoryOf a) (map Categories.id Categories.CATEGORIES).

(** The [n] best by score, ties in input order: a stable descending sort
    and its first [n] elements. *)
Definition topByScore (n : nat) (l : list Filter.ScoredArticle)
  : list Filter.ScoredArticle :=
  take n (Filter.sortByScoreDesc l).

(** The selection rule in the specification's words: the top three of the
    articles passing the quality gate when at least three pass, the top
    three of all the category's articles otherwise. *)
Definition chosenFor (c : string) (l : list Filter.ScoredArticle)
  : list Filter.ScoredArticle :=
  let ofCategory := inCategory c l in
  let qualified := List.filter (fun a => 60 <=? Filter.score a) ofCategory in
  if (3 <=? length qualified)%nat then topByScore 3 qualified
  else topByScore 3 ofCategory.

(** Ranks 1, 2, 3 in the order of the choice. *)
Definition rankedViews (xs : list Filter.ScoredArticle)
  : list (Filter.Article * Z * option Z) :=
  imap (fun i a => (Filter.article a, Filter.score a, Some (Z.of_nat i + 1))) xs.

Definition selectSpec (l : list Filter.ScoredArticle)
  : list (Filter.Article * Z * option Z) :=
  concat (map (fun c => rankedViews (chosenFor c l))
              ["ai-providers"; "business-ai"; "ai-safety"]%string).

(** A scored article of the given category and total score, as the
    repository's selection test builds them. *)
Definition scored (headline category : string) (score : Z) (rank : option Z)
  : Filter.ScoredArticle :=
  {| Filter.article :=
       {| Filter.headline := headline;
          Filter.url := "https://techcrunch.com/article";
          Filter.source := "TechCrunch";
          Filter.publishDate := DateUtils.PdDate (Some 0);
          Filter.summary := "";
          Filter.category := category;
          Filter.apiUsed := "perplexity" |};
     Filter.score := score;
     Filter.recencyScore := 0; Filter.authorityScore := 0;
     Filter.engagementScore := 0; Filter.viralityScore := 0;
     Filter.seoScore := 0;
     Filter.categoryRank := rank; Filter.postingSlot := None;
     Filter.postNumber := None; Filter.mabQuoteNumber := None |}.

(** Four providers articles above the gate; two business articles above
    it and two below, so that the gate is bypassed; one safety article. *)
Definition sampleScored : list Filter.ScoredArticle := [
  scored "p1" "ai-providers" 90 None;
  scored "p2" "ai-providers" 85 None;
  scored "p3" "ai-providers" 85 None;
  scored "p4" "ai-providers" 75 None;
  scored "b1" "business-ai" 70 None;
  scored "b2" "business-ai" 65 None;
  scored "s1" "ai-safety" 60 None;
  scored "b3" "business-ai" 40 None;
  scored "b4" "business-ai" 30 None
]%string.

(** Within its category, the [k]-th article of the list carries rank [k]. *)
Definition ranksInOrder (xs : list Filter.ScoredArticle) : Prop :=
  forall (i : nat) (a : Filter.ScoredArticle),
    xs !! i = Some a -> Filter.categoryRank a = Some (Z.of_nat i + 1).

Definition rankedInOrder (l : list Filter.ScoredArticle) : Prop :=
  forall c : string, ranksInOrder (inCategory c l).

(** The article's category and rank equal the slot's. *)
Definition matchesPost (p : Scheduler.ScheduledPost) (a : Filter.ScoredArticle) : Prop :=
  Filter.categoryOf a = Scheduler.categoryId p /\
  Filter.categoryRank a = Some (Scheduler.categoryRank p).

(** What assignment leaves in a post, given the selected articles [l]:
    [ready] with the matching article when one exists, [no-article]
    otherwise. *)
Definition assignedByRank (l : list Filter.ScoredArticle)
           (p p' : Scheduler.ScheduledPost) : Prop :=
  (forall a, In a l -> matchesPost p a ->
     Scheduler.status p' = Scheduler.ready /\ Scheduler.article p' = Some a) /\
  ((forall a, In a l -> ~ matchesPost p a) ->
     Scheduler.status p' = Scheduler.noArticle).

(** Assignment as the specification words it: for every list of selected
    articles, whatever their order. *)
Definition assignsByRankInAnyOrder : Prop :=
  forall (l : list Filter.ScoredArticle) (s : Scheduler.State)
         (postId : string) (p : Scheduler.ScheduledPost),
    Scheduler.queue s !! postId = Some p ->
    exists s' p',
      Scheduler.assignArticlesToSchedule l s = Ok s' /\
      Scheduler.queue s' !! postId = Some p' /\
      assignedByRank l p p'.

(** The article in the place of a post: the [k]-th article of the post's
    category in the order of the list, [k] being the post's rank. *)
Definition articleInPlace (l : list Filter.ScoredArticle)
           (p : Scheduler.ScheduledPost) : option Filter.ScoredArticle :=
  if Scheduler.categoryRank p <? 1 then None
  else inCategory (Scheduler.categoryId p) l
         !! Z.to_nat (Scheduler.categoryRank p - 1).

(** What assignment leaves in a post, for any list [l]: [ready] with the
    article in its place when there is one, [no-article] with the
    article it had otherwise; identity, slot, content and publication
    record as before. *)
Definition boundInPlace (l : list Filter.ScoredArticle)
           (p p' : Scheduler.ScheduledPost) : Prop :=
  match articleInPlace l p with
  | Some a =>
      Scheduler.status p' = Scheduler.ready /\ Scheduler.article p' = Some a
  | None =>
      Scheduler.status p' = Scheduler.noArticle /\
      Scheduler.article p' = Scheduler.article p
  end /\
  Scheduler.id p' = Scheduler.id p /\
  Scheduler.postNumber p' = Scheduler.postNumber p /\
  Scheduler.hour p' = Scheduler.hour p /\
  Scheduler.utcHour p' = Scheduler.utcHour p /\
  Scheduler.categoryId p' = Scheduler.categoryId p /\
  Scheduler.categoryRank p' = Scheduler.categoryRank p /\
  Scheduler.includeQuote p' = Scheduler.includeQuote p /\
  Scheduler.quoteId p' = Scheduler.quoteId p /\
  Scheduler.tweetText p' = Scheduler.tweetText p /\
  Scheduler.hashtags p' = Scheduler.hashtags p /\
  Scheduler.tweetId p' = Scheduler.tweetId p /\
  Scheduler.postedAt p' = Scheduler.postedAt p /\
  Scheduler.error p' = Scheduler.error p.

(** One article whose category is the name of an inherited property. *)
Definition inheritedCategory : list Filter.ScoredArticle :=
  [scored "named like a property" "constructor" 90 (Some 1)]%string.

(** Two providers articles listed with the second-ranked one first. *)
Definition swappedRanks : list Filter.ScoredArticle := [
  scored "second" "ai-providers" 80 (Some 2);
  scored "first" "ai-providers" 90 (Some 1)
]%string.

(** 2024-03-12 14:00 UTC, and the schedule initialised at that instant on
    a host running in UTC. *)
Definition sampleNow : Z := 1710252000000.
Definition sampleSchedule : Scheduler.State :=
  Scheduler.initializeDailySchedule 0 sampleNow Scheduler.constructor.

(** Every post in state [posted] is recorded in [postedToday]. *)
Definition postedTracked (s : Scheduler.State) : Prop :=
  forall (k : string) (p : Scheduler.ScheduledPost),
    Scheduler.queue s !! k = Some p ->
    Scheduler.status p = Scheduler.posted ->
    k ∈ Scheduler.postedToday s.

(** Every post is stored under its own id. *)
Definition keyedById (s : Scheduler.State) : Prop :=
  forall (k : string) (p : Scheduler.ScheduledPost),
    Scheduler.queue s !! k = Some p -> Scheduler.id p = k.

Definition schedulerInvariant (s : Scheduler.State) : Prop :=
  postedTracked s /\ keyedById s.

(** The states a scheduler reaches from its construction through its own
    methods and through the agent that drives it. *)
Inductive reachable : Scheduler.State -> Prop :=
| reach_constructor : reachable Scheduler.constructor
| reach_initialize tza now s :
    reachable s -> reachable (Scheduler.initializeDailySchedule tza now s)
| reach_assign l s s' :
    reachable s -> Scheduler.assignArticlesToSchedule l s = Ok s' ->
    reachable s'
| reach_markPosted now postId tweetId s :
    reachable s -> reachable (Scheduler.markPosted now postId tweetId s)
| reach_markFailed postId e s :
    reachable s -> reachable (Scheduler.markFailed postId e s)
| reach_setTweetContent postId t tags s :
    reachable s -> reachable (Scheduler.setTweetContent postId t tags s)
| reach_clear s :
    reachable s -> reachable (Scheduler.clearSchedule s)
| reach_import schedule s :
    reachable s -> reachable (Scheduler.importSchedule schedule s)
| reach_run tza now w s :
    reachable s -> reachable (fst (fst (Poster.run tza now w s)))
| reach_retry tza now w postId s r :
    reachable s -> Poster.retryPost tza now w postId s = Some r ->
    reachable (fst (fst r)).

(** The result of an invocation that found nothing to post. *)
Definition nothingScheduled : Poster.Result :=
  {| Poster.success := true; Poster.post := None; Poster.resultError := None;
     Poster.message := Some "No post scheduled"%string |}.

(** What a call yields when it returns, and the given value when it
    throws. *)
Definition returned {A : Type} (d : A) (o : outcome A) : A :=
  match o with
  | Ok a => a
  | Err _ => d
  end.

(** The selection of the sample list. *)
Definition sampleSelected : list Filter.ScoredArticle :=
  returned [] (Filter.selectTopArticles (Some 2) sampleScored).

(** The sample schedule with the selection of the sample list assigned. *)
Definition readySchedule : Scheduler.State :=
  returned sampleSchedule
           (Scheduler.assignArticlesToSchedule sampleSelected sampleSchedule).

Definition sampleContent : Poster.TweetContent :=
  {| Poster.text := "Worth watching: p1 https://techcrunch.com/article #AI";
     Poster.contentHashtags := ["#AI"%string];
     Poster.tone := "observation" |}.

(** Collaborators that all succeed. *)
Definition okWorld : Poster.World :=
  {| Poster.createTweetContent := fun _ _ => Ok sampleContent;
     Poster.isDuplicate := fun _ => Ok false;
     Poster.postRequest := fun _ => Ok "1767000000000000001"%string;
     Poster.logPostedTweet := fun _ => Ok tt;
     Poster.dryRun := false;
     Poster.clock := sampleNow |}.

(** The same, except that the publishing request fails. *)
Definition failingWorld : Poster.World :=
  {| Poster.createTweetContent := fun _ _ => Ok sampleContent;
     Poster.isDuplicate := fun _ => Ok false;
     Poster.postRequest := fun _ => Err "Twitter API error: 503"%string;
     Poster.logPostedTweet := fun _ => Ok tt;
     Poster.dryRun := false;
     Poster.clock := sampleNow |}.

(** The articles a stage contributes: none when it fails. *)
Definition yielded (o : outcome (list Filter.Article)) : list Filter.Article :=
  match o with
  | Ok l => l
  | Err _ => []
  end.

Definition primarySourced (a : Filter.Article) : Prop :=
  Filter.apiUsed a = "perplexity"%string.

(** A provider item that passes validation. *)
Definition rawItem (headline url : string) : Scraper.RawItem :=
  Some {| Filter.headline := headline;
          Filter.url := url;
          Filter.source := "Example Wire";
          Filter.publishDate := DateUtils.PdString "2024-03-12T09:00:00Z";
          Filter.summary := "A summary that is long enough to be accepted.";
          Filter.category := "";
          Filter.apiUsed := "" |}.

Definition sampleUrlParses (u : string) : bool :=
  JsString.startsWith (JsString.chars "https://") (JsString.chars u).

Definition sampleDateParse (s : string) : option Z := Some 1710234000000.

Definition businessAi : Categories.Category :=
  {| Categories.id := "business-ai"; Categories.name := "Business AI and Automation";
     Categories.description := "Business (mid-markets) AI and Automation" |}.

(** Two items from the primary provider. *)
Definition primaryItems : list Scraper.RawItem := [
  rawItem "Primary story number one" "https://a.example/one";
  rawItem "Primary story number two" "https://a.example/two"
].

(** Four items from the backup provider; the first repeats a primary URL
    up to letter case and the query string. *)
Definition backupItems : list Scraper.RawItem := [
  rawItem "Backup copy of story one" "https://A.example/one?utm=feed";
  rawItem "Backup story number three" "https://b.example/three";
  rawItem "Backup story number four" "https://b.example/four";
  rawItem "Backup story number five" "https://b.example/five"
].

(** Yesterday's sheet: a header and two rows of the category. *)
Definition yesterdayRows : list (list string) := [
  ["Rank"; "Category"; "Headline"; "URL"; "Source"; "Date"; "Summary"];
  ["1"; "business-ai"; "Yesterday story number one"; "https://c.example/1";
   "Example Wire"; "2024-03-11T09:00:00Z"; "Summary of yesterday's first story."];
  ["2"; "business-ai"; "Yesterday story number two"; "https://c.example/2";
   "Example Wire"; "2024-03-11T10:00:00Z"; "Summary of yesterday's second story."]
]%string.

(** The sheet the selection of the sample list is saved to: the header
    and one row for each selected article, the rank cell counting the
    rows from 1. *)
Definition headlineRow (rank : Z) (category headline : string) (score : Z)
  : Worker.HeadlineRow :=
  {| Worker.rowRank := Some rank; Worker.rowCategory := category;
     Worker.rowHeadline := headline;
     Worker.rowUrl := "https://techcrunch.com/article";
     Worker.rowSource := "TechCrunch"; Worker.rowScore := score;
     Worker.rowPostingSlot := None; Worker.rowQuote := None |}.

Definition sampleSheet : list Worker.HeadlineRow := [
  {| Worker.rowRank := None; Worker.rowCategory := "Category";
     Worker.rowHeadline := "Headline"; Worker.rowUrl := "URL";
     Worker.rowSource := "Source"; Worker.rowScore := 0;
     Worker.rowPostingSlot := Some "Posting_Time_Slot";
     Worker.rowQuote := None |};
  headlineRow 1 "ai-providers" "p1" 90;
  headlineRow 2 "ai-providers" "p2" 85;
  headlineRow 3 "ai-providers" "p3" 85;
  headlineRow 4 "business-ai" "b1" 70;
  headlineRow 5 "business-ai" "b2" 65;
  headlineRow 6 "business-ai" "b3" 40;
  headlineRow 7 "ai-safety" "s1" 60
]%string.

Definition contrarianContent : Poster.TweetContent :=
  {| Poster.text := "Hot take: p1 https://techcrunch.com/article #AI";
     Poster.contentHashtags := ["#AI"%string];
     Poster.tone := "contrarian" |}.

(** The collaborators at a second trigger: the first tweet is on the
    timeline, so the duplicate check finds it; a forced tone gives
    another text; the publishing request succeeds. *)
Definition secondWorld : Poster.World :=
  {| Poster.createTweetContent :=
       fun _ forceTone =>
         match forceTone with
         | Some _ => Ok contrarianContent
         | None => Ok sampleContent
         end;
     Poster.isDuplicate := fun t => Ok (String.eqb t (Poster.text sampleContent));
     Poster.postRequest := fun _ => Ok "1767000000000000002"%string;
     Poster.logPostedTweet := fun _ => Ok tt;
     Poster.dryRun := false;
     Poster.clock := sampleNow + 60000 |}.

(** The statuses a post has before anything was published or failed. *)
Definition unpublished (st : Scheduler.Status) : Prop :=
  st = Scheduler.pending \/ st = Scheduler.ready \/ st = Scheduler.noArticle.

(** What a posting slot matches an article on: category and rank. *)
Definition rankKey (a : Filter.ScoredArticle) : string * option Z :=
  (Filter.categoryOf a, Filter.categoryRank a).

Definition slotKey (slot : PostingSchedule.TimeSlot) : string * option Z :=
  (PostingSchedule.categoryId slot, Some (PostingSchedule.categoryRank slot)).

(** The first slot of a list that matches the article, if any. *)
Definition slotAmong (slots : list PostingSchedule.TimeSlot)
           (a : Filter.ScoredArticle) : option PostingSchedule.TimeSlot :=
  find (fun slot => Filter.matchesSlot slot a) slots.

(** One article taken through the slots of a list. *)
Definition throughSlots (q : option Z) (slots : list PostingSchedule.TimeSlot)
           (a : Filter.ScoredArticle) : Filter.ScoredArticle :=
  fold_left (fun a slot => if Filter.matchesSlot slot a then Filter.setSlot slot q a else a)
            slots a.

(** The articles chosen for the three categories, before the slots are
    assigned. *)
Definition chosenRanked (l : list Filter.ScoredArticle) : list Filter.ScoredArticle :=
  concat (map (fun c => Filter.selectForCategory (grouped l) (Categories.id c))
              Categories.CATEGORIES).


(** A post of 12 March 2024 with the given number and status, holding
    nothing else. *)
Definition plainPost (number : Z) (st : Scheduler.Status) : Scheduler.ScheduledPost :=
  {| Scheduler.id := Scheduler.postIdOf "2024-03-12" number;
     Scheduler.postNumber := number;
     Scheduler.hour := 8 + number; Scheduler.utcHour := 13 + number;
     Scheduler.categoryId := "ai-providers"; Scheduler.categoryRank := 1;
     Scheduler.includeQuote := false; Scheduler.quoteId := None;
     Scheduler.article := None; Scheduler.tweetText := None;
     Scheduler.hashtags := []; Scheduler.status := st;
     Scheduler.tweetId := None; Scheduler.postedAt := None;
     Scheduler.error := None |}.

End Vocabulary.

(** * Properties *)

(** ** The calendar model meets the ECMAScript definitions *)

Section CalendarFacts.
Import JsDate.

Lemma DayFromYear_step y :
  DayFromYear y + 365 <= DayFromYear (y + 1) <= DayFromYear y + 366.
Proof. unfold DayFromYear. Z.div_mod_to_equations. lia. Qed.

(** [YearFromTime(t)] is the largest [y] with [TimeFromYear(y) <= t]. *)
Lemma YearFromDay_spec d :
  DayFromYear (YearFromDay d) <= d < DayFromYear (YearFromDay d + 1).
Proof.
  unfold YearFromDay. cbv zeta.
  set (y := 1970 + 400 * d / 146097).
  assert (Hlo : DayFromYear (y - 1) <= d).
  { subst y. unfold DayFromYear. Z.div_mod_to_equations. lia. }
  assert (Hhi : d < DayFromYear (y + 2)).
  { subst y. unfold DayFromYear. Z.div_mod_to_equations. lia. }
  destruct (DayFromYear (y + 1) <=? d) eqn:E1.
  - apply Z.leb_le in E1. replace (y + 1 + 1) with (y + 2) by lia. lia.
  - apply Z.leb_gt in E1. destruct (DayFromYear y <=? d) eqn:E2.
    + apply Z.leb_le in E2. lia.
    + apply Z.leb_gt in E2. replace (y - 1 + 1) with y by lia. lia.
Qed.

Lemma MakeDay_date y m d : MakeDay y m d = MakeDay y m 1 + (d - 1).
Proof. unfold MakeDay. lia. Qed.

Lemma Day_of_midnight n : Day (n * msPerDay) = n.
Proof. unfold Day, msPerDay. apply Z.div_mul. lia. Qed.

Lemma fullYear_id y : ~ (0 <= y <= 99) -> fullYear y = y.
Proof.
  intros H. unfold fullYear.
  destruct (0 <=? y) eqn:E1; destruct (y <=? 99) eqn:E2; simpl; try reflexivity.
  apply Z.leb_le in E1, E2. lia.
Qed.

(** Counting [(7 - w) mod 7] days on from a day of week [w] reaches a
    Sunday, and so does any whole number of weeks later. *)
Lemma sunday_after (base k : Z) :
  let w := WeekDayOfDay base in
  let off := (7 - w) mod 7 in
  0 <= off <= 6 /\ WeekDayOfDay (base + off + 7 * k) = 0.
Proof.
  unfold WeekDayOfDay. cbv zeta.
  pose proof (Z.mod_pos_bound (7 - (base + 4) mod 7) 7 ltac:(lia)) as Ho.
  split; [lia|].
  clear Ho. Z.div_mod_to_equations. lia.
Qed.

Lemma getDay_local_midnight tza y m d :
  getDay tza (newDateLocal tza y m d) = WeekDayOfDay (MakeDay (fullYear y) m d).
Proof.
  unfold getDay, newDateLocal, WeekDay.
  replace (MakeDay (fullYear y) m d * msPerDay - tza + tza)
    with (MakeDay (fullYear y) m d * msPerDay) by lia.
  by rewrite Day_of_midnight.
Qed.
End CalendarFacts.

(** ** Recency score *)

Section RecencyProofs.
Import DateUtils Vocabulary.
Variable Date_parse : string -> option Z.

Local Abbreviation hoursAgoOf := (Vocabulary.hoursAgoOf Date_parse).

Lemma Qle_bool_false (x y : Q) : Qle_bool x y = false <-> (y < x)%Q.
Proof.
  split; intros H.
  - apply Qnot_le_lt. intros Hle. apply Qle_bool_iff in Hle. congruence.
  - destruct (Qle_bool x y) eqn:E; [|reflexivity].
    apply Qle_bool_iff in E. exfalso. eapply Qlt_not_le; eauto.
Qed.

Lemma recency_invalid now pd :
  hoursAgoOf now pd = None -> calculateRecencyScore Date_parse now pd = 0.
Proof.
  unfold hoursAgoOf, calculateRecencyScore. intros ->. reflexivity.
Qed.

Lemma recency_cases now pd h :
  hoursAgoOf now pd = Some h ->
  let r := calculateRecencyScore Date_parse now pd in
  ((h < 0)%Q /\ r = 0) \/
  ((0 <= h)%Q /\ (h <= 6)%Q /\ r = 20) \/
  ((6 < h)%Q /\ (h <= 12)%Q /\ r = 15) \/
  ((12 < h)%Q /\ (h <= 18)%Q /\ r = 10) \/
  ((18 < h)%Q /\ (h <= 24)%Q /\ r = 5) \/
  ((24 < h)%Q /\ r = 0).
Proof.
  unfold hoursAgoOf, calculateRecencyScore. intros ->. cbn [ltNum leNum].
  destruct (Qle_bool 0 h) eqn:E0; cbn [negb].
  2:{ left. apply Qle_bool_false in E0. auto. }
  apply Qle_bool_iff in E0. right.
  destruct (Qle_bool h 6) eqn:E6.
  { apply Qle_bool_iff in E6. left. auto. }
  apply Qle_bool_false in E6. right.
  destruct (Qle_bool h 12) eqn:E12.
  { apply Qle_bool_iff in E12. left. auto. }
  apply Qle_bool_false in E12. right.
  destruct (Qle_bool h 18) eqn:E18.
  { apply Qle_bool_iff in E18. left. auto. }
  apply Qle_bool_false in E18. right.
  destruct (Qle_bool h 24) eqn:E24.
  { apply Qle_bool_iff in E24. left. auto. }
  apply Qle_bool_false in E24. right. auto.
Qed.

(** The elapsed hours of a valid [Date] are the difference of the time
    values over the milliseconds of an hour. *)
Lemma hoursAgoOf_date now t :
  hoursAgoOf now (PdDate (Some t)) = Some (inject_Z (now - t) / inject_Z 3600000)%Q.
Proof. reflexivity. Qed.

Lemma hoursAgoOf_instant now pd t :
  publishInstant Date_parse pd t ->
  hoursAgoOf now pd = Some (elapsedHours now t).
Proof.
  unfold publishInstant, hoursAgoOf, toDate, elapsedHours.
  destruct pd as [s|tv]; intros ->; reflexivity.
Qed.

Lemma hoursAgoOf_no_instant now pd :
  (forall t, ~ publishInstant Date_parse pd t) -> hoursAgoOf now pd = None.
Proof.
  unfold publishInstant, hoursAgoOf, toDate. intros H.
  destruct pd as [s|tv].
  - destruct (Date_parse s) as [t|]; [destruct (H t eq_refl)|reflexivity].
  - destruct tv as [t|]; [destruct (H t eq_refl)|reflexivity].
Qed.

(** C5. [calculateRecencyScore] takes only the values 0, 5, 10, 15 and
    20.  For a publish timestamp denoting the instant [t], with
    [h = (now - t) / 3600000] the hours elapsed at evaluation time, it
    is 20 exactly for [0 <= h <= 6], 15 exactly for [6 < h <= 12], 10
    exactly for [12 < h <= 18], 5 exactly for [18 < h <= 24], and 0 for
    [h > 24] and for negative [h]; a timestamp denoting no instant
    scores 0.  Hence the score never increases as [h] grows over
    [h >= 0]. *)
Theorem recency_score_bands (now : Z) (pd : PublishDate) :
  let r := calculateRecencyScore Date_parse now pd in
  (r = 0 \/ r = 5 \/ r = 10 \/ r = 15 \/ r = 20) /\
  ((forall t, ~ publishInstant Date_parse pd t) -> r = 0) /\
  (forall t : Z, publishInstant Date_parse pd t ->
     let h := elapsedHours now t in
     (r = 20 <-> (0 <= h)%Q /\ (h <= 6)%Q) /\
     (r = 15 <-> (6 < h)%Q /\ (h <= 12)%Q) /\
     (r = 10 <-> (12 < h)%Q /\ (h <= 18)%Q) /\
     (r = 5 <-> (18 < h)%Q /\ (h <= 24)%Q) /\
     ((24 < h)%Q -> r = 0) /\
     ((h < 0)%Q -> r = 0)) /\
  (forall (pd' : PublishDate) (t t' : Z),
     publishInstant Date_parse pd t -> publishInstant Date_parse pd' t' ->
     (0 <= elapsedHours now t)%Q ->
     (elapsedHours now t <= elapsedHours now t')%Q ->
     calculateRecencyScore Date_parse now pd' <= r).
Proof.
  intros r. subst r. split; [|split; [|split]].
  - destruct (hoursAgoOf now pd) as [h|] eqn:E.
    + pose proof (recency_cases now pd h E) as H. cbv zeta in H.
      intuition lia.
    + rewrite (recency_invalid now pd E). lia.
  - intros H. apply recency_invalid, hoursAgoOf_no_instant, H.
  - intros t Ht h. subst h.
    pose proof (recency_cases now pd _ (hoursAgoOf_instant now pd t Ht)) as H.
    cbv zeta in H.
    repeat split; intros; intuition (try lia; try lra).
  - intros pd' t t' Ht Ht' H0 Hle.
    pose proof (recency_cases now pd _ (hoursAgoOf_instant now pd t Ht)) as H.
    cbv zeta in H.
    pose proof (recency_cases now pd' _ (hoursAgoOf_instant now pd' t' Ht')) as H'.
    cbv zeta in H'.
    intuition (try lia; try lra).
Qed.
End RecencyProofs.

(** An article published at the epoch and scored exactly six hours
    later: the elapsed hours are 6, and the score is 20 by the band
    characterisation. *)
Lemma recency_score_bands_witness :
  Vocabulary.publishInstant (fun _ => None) (DateUtils.PdDate (Some 0)) 0 /\
  (Vocabulary.elapsedHours 21600000 0 == 6)%Q /\
  DateUtils.calculateRecencyScore (fun _ => None) 21600000 (DateUtils.PdDate (Some 0)) = 20.
Proof.
  split; [reflexivity|]. split; [reflexivity|].
  destruct (recency_score_bands (fun _ => None) 21600000 (DateUtils.PdDate (Some 0)))
    as (_ & _ & Hbands & _).
  destruct (Hbands 0 eq_refl) as (H20 & _).
  apply H20. split; unfold Qle; simpl; lia.
Defined.

(** The boundaries are inclusive on the recent side: 6 h scores 20, one
    millisecond more scores 15; 24 h scores 5, one millisecond more 0; a
    publish date in the future scores 0. *)
Example recency_boundaries :
  let score t := DateUtils.calculateRecencyScore (fun _ => None) 100000000
                   (DateUtils.PdDate (Some t)) in
  score (100000000 - 21600000) = 20 /\ score (100000000 - 21600001) = 15 /\
  score (100000000 - 43200000) = 15 /\ score (100000000 - 43200001) = 10 /\
  score (100000000 - 64800000) = 10 /\ score (100000000 - 64800001) = 5 /\
  score (100000000 - 86400000) = 5 /\ score (100000000 - 86400001) = 0 /\
  score 100000000 = 20 /\ score 100000001 = 0.
Proof. vm_compute. repeat split. Qed.

(** ** Daylight-saving boundaries *)

Section DstProofs.
Import JsDate Vocabulary.

(** [date-utils]: daylight time starts at 07:00 UTC on the second
    Sunday of March of the given year. *)
Lemma DateUtils_dstStart_second_sunday (y : Z) :
  ~ (0 <= y <= 99) ->
  exists d, nthSunday 2 y 2 d /\ DateUtils.dstStart y = UTC y 2 d 7.
Proof.
  intros Hy. unfold DateUtils.dstStart, getUTCDay, WeekDay, UTC.
  rewrite (fullYear_id y Hy).
  replace (MakeDay y 2 1 * msPerDay + 0 * msPerHour)
    with (MakeDay y 2 1 * msPerDay) by lia.
  rewrite Day_of_midnight.
  destruct (sunday_after (MakeDay y 2 1) 1) as [Hoff Hsun]. cbv zeta in Hoff, Hsun.
  eexists. split; [|reflexivity].
  unfold nthSunday. split; [lia|].
  rewrite MakeDay_date.
  match goal with |- WeekDayOfDay ?a = 0 =>
    replace a
      with (MakeDay y 2 1 + (7 - WeekDayOfDay (MakeDay y 2 1)) mod 7 + 7 * 1) by lia
  end.
  exact Hsun.
Qed.

(** [date-utils]: daylight time ends at 06:00 UTC on the first Sunday of
    November of the given year. *)
Lemma DateUtils_dstEnd_first_sunday (y : Z) :
  ~ (0 <= y <= 99) ->
  exists d, nthSunday 1 y 10 d /\ DateUtils.dstEnd y = UTC y 10 d 6.
Proof.
  intros Hy. unfold DateUtils.dstEnd, getUTCDay, WeekDay, UTC.
  rewrite (fullYear_id y Hy).
  replace (MakeDay y 10 1 * msPerDay + 0 * msPerHour)
    with (MakeDay y 10 1 * msPerDay) by lia.
  rewrite Day_of_midnight.
  destruct (sunday_after (MakeDay y 10 1) 0) as [Hoff Hsun]. cbv zeta in Hoff, Hsun.
  eexists. split; [|reflexivity].
  unfold nthSunday. split; [lia|].
  rewrite MakeDay_date.
  match goal with |- WeekDayOfDay ?a = 0 =>
    replace a
      with (MakeDay y 10 1 + (7 - WeekDayOfDay (MakeDay y 10 1)) mod 7 + 7 * 0) by lia
  end.
  exact Hsun.
Qed.

(** X18. [date-utils]: for a date of any year outside 0..99,
    [isEasternDST] holds exactly from 07:00 UTC on the second Sunday of
    March to 06:00 UTC on the first Sunday of November of the date's own
    UTC year. *)
Lemma DateUtils_isEasternDST_window (t : Z) :
  let y := getUTCFullYear t in
  ~ (0 <= y <= 99) ->
  exists d1 d2,
    nthSunday 2 y 2 d1 /\ nthSunday 1 y 10 d2 /\
    (DateUtils.isEasternDST t = true <-> UTC y 2 d1 7 <= t < UTC y 10 d2 6).
Proof.
  intros y Hy.
  destruct (DateUtils_dstStart_second_sunday y Hy) as (d1 & H1 & E1).
  destruct (DateUtils_dstEnd_first_sunday y Hy) as (d2 & H2 & E2).
  exists d1, d2. split; [exact H1|]. split; [exact H2|].
  unfold DateUtils.isEasternDST. fold y. rewrite E1, E2.
  rewrite andb_true_iff, Z.leb_le, Z.ltb_lt. tauto.
Qed.

(** X19. [posting-schedule]: the start it computes is local midnight of
    the third Sunday of March, one week after the documented second
    one, in every year outside 0..99 and on every host zone. *)
Lemma PostingSchedule_dstStart_third_sunday (tza y : Z) :
  ~ (0 <= y <= 99) ->
  exists d, nthSunday 3 y 2 d /\
            PostingSchedule.dstStart tza y = newDateLocal tza y 2 d.
Proof.
  intros Hy. unfold PostingSchedule.dstStart.
  rewrite getDay_local_midnight, (fullYear_id y Hy).
  destruct (sunday_after (MakeDay y 2 1) 2) as [Hoff Hsun]. cbv zeta in Hoff, Hsun.
  eexists. split; [|reflexivity].
  unfold nthSunday. split; [lia|].
  rewrite MakeDay_date.
  match goal with |- WeekDayOfDay ?a = 0 =>
    replace a
      with (MakeDay y 2 1 + (7 - WeekDayOfDay (MakeDay y 2 1)) mod 7 + 7 * 2) by lia
  end.
  exact Hsun.
Qed.

Lemma PostingSchedule_dstStart_2024 (tza : Z) :
  PostingSchedule.dstStart tza 2024 = 1710633600000 - tza.
Proof.
  unfold PostingSchedule.dstStart. rewrite getDay_local_midnight.
  unfold newDateLocal. f_equal.
Qed.

(** [posting-schedule]: at 12:00 UTC on Tuesday 12 March 2024 the answer
    is false on every host zone between UTC-14 and UTC+14. *)
Lemma PostingSchedule_isEasternDST_second_week_any_zone (tza : Z) :
  -50400000 <= tza <= 50400000 ->
  PostingSchedule.isEasternDST tza 1710244800000 = false.
Proof.
  intros Htza. unfold PostingSchedule.isEasternDST.
  assert (Hy : getFullYear tza 1710244800000 = 2024).
  { unfold getFullYear, YearFromTime.
    assert (Hd : Day (1710244800000 + tza) = 19793 \/
                 Day (1710244800000 + tza) = 19794 \/
                 Day (1710244800000 + tza) = 19795).
    { unfold Day, msPerDay. Z.div_mod_to_equations. lia. }
    destruct Hd as [-> | [-> | ->]]; reflexivity. }
  rewrite Hy, PostingSchedule_dstStart_2024.
  apply andb_false_iff. left. apply Z.leb_gt. lia.
Qed.

(** C9. On Tuesday 12 March 2024 at 12:00 UTC, two days after the second
    Sunday of March (the 10th) and long before the first Sunday of
    November, the [date-utils] implementation of [isEasternDST] answers
    true while the [posting-schedule] implementation answers false: the
    latter starts daylight time on the third Sunday, the 17th. *)
Theorem isEasternDST_second_week_of_march_2024 :
  let t := 1710244800000 in
  isoDate t = "2024-03-12"%string /\
  isoDate (DateUtils.dstStart 2024) = "2024-03-10"%string /\
  WeekDay (DateUtils.dstStart 2024) = 0 /\
  DateUtils.isEasternDST t = true /\
  isoDate (PostingSchedule.dstStart 0 2024) = "2024-03-17"%string /\
  PostingSchedule.isEasternDST 0 t = false.
Proof. vm_compute. repeat split. Qed.
End DstProofs.

(** 20 March 2024, 00:00 UTC, lies in the window of its year. *)
Lemma DateUtils_isEasternDST_window_witness :
  exists d1 d2,
    Vocabulary.nthSunday 2 2024 2 d1 /\ Vocabulary.nthSunday 1 2024 10 d2 /\
    (DateUtils.isEasternDST 1710892800000 = true <->
     JsDate.UTC 2024 2 d1 7 <= 1710892800000 < JsDate.UTC 2024 10 d2 6).
Proof.
  apply (DateUtils_isEasternDST_window 1710892800000).
  vm_compute. intros [_ H]. apply H. reflexivity.
Defined.

(** In 2024 on a host in UTC the start computed is a third Sunday. *)
Lemma PostingSchedule_dstStart_third_sunday_witness :
  exists d, Vocabulary.nthSunday 3 2024 2 d /\
            PostingSchedule.dstStart 0 2024 = JsDate.newDateLocal 0 2024 2 d.
Proof.
  apply (PostingSchedule_dstStart_third_sunday 0 2024). lia.
Defined.

(** ** Effective tweet length *)

Section TweetLengthProofs.
Import JsString TextUtils Vocabulary.


Lemma chars_of_list (l : list ascii) : chars (string_of_list_ascii l) = l.
Proof. apply list_ascii_of_string_of_list_ascii. Qed.



Lemma star_accept r prev s : matchRe (Star r) prev s accept = true.
Proof. simpl. destruct (length s); reflexivity. Qed.

(** A match of the pattern starts at a position exactly when
    [isUrlStart] holds there. *)
Lemma isUrlStart_regex (s : list ascii) :
  isUrlStart s = testAnchored urlPattern s.
Proof.
  unfold testAnchored, urlPattern, Plus, Opt, isUrlStart, afterScheme.
  cbn [chars list_ascii_of_string lit startsWith matchRe chr].

  destruct s as [|c1 s]; [reflexivity|].
  destruct (eqc "h" c1) eqn:E1; cbn [andb orb]; [|reflexivity].
  destruct s as [|c2 s]; [reflexivity|].
  destruct (eqc "t" c2) eqn:E2; cbn [andb orb]; [|reflexivity].
  destruct s as [|c3 s]; [reflexivity|].
  destruct (eqc "t" c3) eqn:E3; cbn [andb orb]; [|reflexivity].
  destruct s as [|c4 s]; [reflexivity|].
  destruct (eqc "p" c4) eqn:E4; cbn [andb orb]; [|reflexivity].
  destruct s as [|c5 s]; [reflexivity|].
  destruct (eqc "s" c5) eqn:E5; cbn [andb orb].
  - apply Ascii.eqb_eq in E5. subst c5.
    replace (eqc ":" "s") with false by reflexivity. cbn [andb orb].
    destruct s as [|c6 s]; [reflexivity|].
    destruct (eqc ":" c6) eqn:E6; cbn [andb orb]; [|reflexivity].
    destruct s as [|c7 s]; [reflexivity|].
    destruct (eqc "/" c7) eqn:E7; cbn [andb orb]; [|reflexivity].
    destruct s as [|c8 s]; [reflexivity|].
    destruct (eqc "/" c8) eqn:E8; cbn [andb orb]; [|reflexivity].
    cbn [drop].
    destruct s as [|c9 s]; [reflexivity|].
    simpl drop. destruct (negb (isSpace c9)); [|reflexivity].
    destruct (length s); reflexivity.
  - destruct (eqc ":" c5) eqn:E6; cbn [andb orb]; [|reflexivity].
    destruct s as [|c7 s]; [reflexivity|].
    destruct (eqc "/" c7) eqn:E7; cbn [andb orb]; [|reflexivity].
    destruct s as [|c8 s]; [reflexivity|].
    destruct (eqc "/" c8) eqn:E8; cbn [andb orb]; [|reflexivity].
    cbn [drop].
    destruct s as [|c9 s]; [reflexivity|].
    simpl drop. destruct (negb (isSpace c9)); [|reflexivity].
    destruct (length s); reflexivity.
Qed.








End TweetLengthProofs.


(** ** Sub-score caps *)

Section ScoreCapProofs.
Import JsString TextUtils Filter.

Lemma engagement_heuristic_range (a : Article) :
  0 <= calculateEngagementScoreHeuristic a <= 25.
Proof.
  unfold calculateEngagementScoreHeuristic. cbv zeta.
  generalize (length (List.filter
    (fun k => includes (toLowerCase (chars (textOf a))) (toLowerCase (chars k)))
    businessKeywords)).
  intros n.
  destruct (isProvocative (textOf a)), (containsQuestion (textOf a)),
    (test opinionPattern (chars (textOf a))),
    (test researchPattern (chars (textOf a))); lia.
Qed.

Lemma virality_range (a : Article) : 0 <= calculateViralityScore a <= 20.
Proof.
  unfold calculateViralityScore. cbv zeta.
  destruct (containsStatistics (textOf a)),
    (containsQuestion (headline a) || isProvocative (headline a)),
    (containsKeywords (textOf a) majorEntities),
    (test breakingPattern (chars (textOf a))); lia.
Qed.

Lemma seo_range (a : Article) : 0 <= calculateSeoScore a <= 10.
Proof.
  unfold calculateSeoScore. cbv zeta.
  destruct (containsKeywords (textOf a) seoKeywords),
    (containsKeywords (textOf a) b2bKeywords); lia.
Qed.

(** C6. For every article the heuristic engagement score is at most 25,
    the virality score at most 20 and the SEO score at most 10, however
    many patterns match; an article matching all four virality patterns
    scores exactly 20. *)
Theorem subscores_within_caps (a : Article) :
  0 <= calculateEngagementScoreHeuristic a <= 25 /\
  0 <= calculateViralityScore a <= 20 /\
  0 <= calculateSeoScore a <= 10 /\
  (containsStatistics (textOf a) = true ->
   containsQuestion (headline a) || isProvocative (headline a) = true ->
   containsKeywords (textOf a) majorEntities = true ->
   test breakingPattern (chars (textOf a)) = true ->
   calculateViralityScore a = 20).
Proof.
  split; [apply engagement_heuristic_range|].
  split; [apply virality_range|].
  split; [apply seo_range|].
  intros H1 H2 H3 H4. unfold calculateViralityScore. cbv zeta.
  rewrite H1, H2, H3, H4. reflexivity.
Qed.
End ScoreCapProofs.

(** The headline of the cap test: all four virality patterns, score 20. *)
Lemma subscores_within_caps_witness :
  Filter.calculateViralityScore Vocabulary.breakingArticle = 20.
Proof.
  apply (subscores_within_caps Vocabulary.breakingArticle); vm_compute; reflexivity.
Defined.

(** The patterns on the articles of the repository's tests. *)
Example engagement_test_articles :
  Filter.calculateEngagementScoreHeuristic
    {| Filter.headline := "Everyone Must Adopt AI Now or Fail";
       Filter.url := ""; Filter.source := "";
       Filter.publishDate := DateUtils.PdDate None;
       Filter.summary := "The truth about AI adoption that every business needs to know.";
       Filter.category := ""; Filter.apiUsed := "" |} = 9 /\
  Filter.calculateEngagementScoreHeuristic
    {| Filter.headline := "Company Releases New Software Update";
       Filter.url := ""; Filter.source := "";
       Filter.publishDate := DateUtils.PdDate None;
       Filter.summary := "A software update was released today.";
       Filter.category := ""; Filter.apiUsed := "" |} = 0 /\
  Filter.calculateSeoScore
    {| Filter.headline := "AI Strategy for Mid-Market Enterprise B2B Digital Transformation";
       Filter.url := ""; Filter.source := "";
       Filter.publishDate := DateUtils.PdDate None;
       Filter.summary := "AI Strategy for Mid-Market Enterprise B2B Digital Transformation";
       Filter.category := ""; Filter.apiUsed := "" |} = 10.
Proof. vm_compute. repeat split. Qed.

(** ** Engagement score: the AI path and its fallback *)

Section EngagementProofs.
Import Filter Vocabulary.

Lemma scoreOfReply_text (scoreText : option string) (m : string) :
  scoreOfReply (AiText scoreText) m
  = Ok (match parseInt scoreText with
        | None => 12
        | Some n => Z.min (Z.max n 0) 25
        end).
Proof. unfold scoreOfReply. by destruct (parseInt scoreText). Qed.

(** C7, as amended.  [calculateEngagementScore] never raises and its value
    lies in 0..25.  Without an AI provider it is the heuristic score.  With
    one, a failed request gives the heuristic score of the same article; an
    answer that is not a number gives the fixed default 12; a numeric
    answer gives that number clamped into 0..25. *)
Theorem engagement_score_total_and_bounded
        (aiProvider : AIProvider) (reply : AiReply) (a : Article) :
  exists v,
    calculateEngagementScore aiProvider reply a = Ok v /\
    0 <= v <= 25 /\
    (aiProvider = heuristic -> v = calculateEngagementScoreHeuristic a) /\
    (aiProvider <> heuristic ->
       (requestFails reply -> v = calculateEngagementScoreHeuristic a) /\
       (forall scoreText, reply = AiText scoreText ->
          parseInt scoreText = None -> v = 12) /\
       (forall scoreText n, reply = AiText scoreText ->
          parseInt scoreText = Some n -> v = Z.min (Z.max n 0) 25)).
Proof.
  pose proof (engagement_heuristic_range a) as Hh.
  assert (Hfail : forall m : string,
    exists v, tryCatch (Err m) (fun _ => Ok (calculateEngagementScoreHeuristic a)) = Ok v /\
      0 <= v <= 25 /\ v = calculateEngagementScoreHeuristic a).
  { intros m. eexists. split; [reflexivity|]. split; [lia|reflexivity]. }
  destruct aiProvider; cycle 2.
  { exists (calculateEngagementScoreHeuristic a). simpl.
    split; [reflexivity|]. split; [lia|]. split; [reflexivity|].
    intros Hne. congruence. }
  all: unfold calculateEngagementScore, calculateEngagementScoreAI.
  all: destruct reply as [msg| |scoreText].
  all: try (match goal with
            | |- context [scoreOfReply (AiThrows ?m) ?e] =>
                change (scoreOfReply (AiThrows m) e) with (@Err Z m);
                destruct (Hfail m) as (v & Hv & Hr & He)
            | |- context [scoreOfReply AiNotOk ?e] =>
                change (scoreOfReply AiNotOk e) with (@Err Z e);
                destruct (Hfail e) as (v & Hv & Hr & He)
            end;
            exists v; split; [exact Hv|]; split; [exact Hr|];
            split; [intros; discriminate|]; intros _;
            split; [intros _; exact He|]; split; intros; discriminate).
  all: rewrite scoreOfReply_text; cbn [tryCatch].
  all: eexists; split; [reflexivity|].
  all: split; [destruct (parseInt scoreText); lia|].
  all: split; [intros; discriminate|]; intros _.
  all: split; [intros []|].
  all: split; [intros t [= <-] E|intros t n [= <-] E]; rewrite E; reflexivity.
Qed.

(** C7 as stated fails: with OpenAI configured and an answer that is not a
    number, the neutral article scores the default 12, not its heuristic
    score 0. *)
Lemma engagement_fallback_counterexample : ~ engagementFallsBackAsStated.
Proof.
  intros H.
  destruct (H openai (AiText (Some "n/a"%string)) neutralArticle)
    as (v & Hv & _ & _ & Hfall).
  assert (E12 : v = 12) by (vm_compute in Hv; congruence).
  specialize (Hfall (Some "n/a"%string) eq_refl I).
  assert (E0 : calculateEngagementScoreHeuristic neutralArticle = 0)
    by (vm_compute; reflexivity).
  lia.
Qed.
End EngagementProofs.

(** A numeric answer above the range is clamped to 25. *)
Lemma engagement_score_total_and_bounded_witness :
  Filter.anthropic <> Filter.heuristic /\
  Filter.parseInt (Some " 40 points"%string) = Some 40 /\
  Filter.calculateEngagementScore Filter.anthropic
    (Filter.AiText (Some " 40 points"%string)) Vocabulary.neutralArticle = Ok 25.
Proof.
  split; [discriminate|]. split; [reflexivity|].
  destruct (engagement_score_total_and_bounded Filter.anthropic
              (Filter.AiText (Some " 40 points"%string)) Vocabulary.neutralArticle)
    as (v & Hv & _ & _ & Hai).
  destruct (Hai ltac:(discriminate)) as (_ & _ & Hnum).
  rewrite Hv. f_equal. exact (Hnum _ 40 eq_refl eq_refl).
Defined.

(** The extraction of the score text, on answers of each kind. *)
Example parseInt_examples :
  Filter.parseInt (Some "17"%string) = Some 17 /\
  Filter.parseInt (Some "  -3"%string) = Some (-3) /\
  Filter.parseInt (Some "12.7"%string) = Some 12 /\
  Filter.parseInt (Some "Score: 20"%string) = None /\
  Filter.parseInt (Some ""%string) = None /\
  Filter.parseInt None = None.
Proof. vm_compute. repeat split. Qed.

(** ** Ranking and selection *)

Section SelectionProofs.
Import Filter Vocabulary.

Lemma grouped_fold (l : list ScoredArticle)
      (m : gmap string (list ScoredArticle)) (c : string) :
  default [] (fold_left pushByCategory l m !! c)
  = default [] (m !! c) ++ inCategory c l.
Proof.
  revert m. induction l as [|a l IH]; intros m; simpl.
  - by rewrite app_nil_r.
  - rewrite IH. unfold pushByCategory.
    destruct (String.eqb (categoryOf a) c) eqn:E.
    + apply String.eqb_eq in E. subst c. rewrite lookup_insert_eq. simpl.
      by rewrite <- app_assoc.
    + apply String.eqb_neq in E. by rewrite lookup_insert_ne.
Qed.

(** The array stored under a category holds its articles in input order. *)
Lemma grouped_lookup (l : list ScoredArticle) (c : string) :
  default [] (grouped l !! c) = inCategory c l.
Proof. unfold grouped. by rewrite grouped_fold, lookup_empty. Qed.

Lemma isInheritedKey_In (key : string) :
  isInheritedKey key = true <-> In key OBJECT_PROTOTYPE_KEYS.
Proof.
  unfold isInheritedKey. rewrite existsb_exists. split.
  - intros (k & Hin & Hk). apply String.eqb_eq in Hk. by subst.
  - intros Hin. exists key. split; [exact Hin|apply String.eqb_refl].
Qed.

Lemma plainCategories_cons (a : ScoredArticle) (l : list ScoredArticle) :
  plainCategories (a :: l) <->
  isInheritedKey (categoryOf a) = false /\ plainCategories l.
Proof.
  unfold plainCategories. split.
  - intros H. split.
    + destruct (isInheritedKey (categoryOf a)) eqn:E; [|reflexivity].
      apply isInheritedKey_In in E. destruct (H a (or_introl eq_refl) E).
    + intros x Hx. apply H. by right.
  - intros [Ha Hl] x [<-|Hx].
    + intros Hin. apply isInheritedKey_In in Hin. congruence.
    + by apply Hl.
Qed.

Lemma grouping_thrown (l : list ScoredArticle) (msg : string) :
  fold_left
    (fun acc a =>
       match acc with
       | Err msg => Err msg
       | Ok m =>
           if isInheritedKey (categoryOf a) then Err pushIsNotAFunction
           else Ok (pushByCategory m a)
       end)
    l (Err msg) = Err msg.
Proof. induction l as [|a l IH]; [reflexivity|exact IH]. Qed.

Lemma grouping_from (l : list ScoredArticle) (m : gmap string (list ScoredArticle)) :
  fold_left
    (fun acc a =>
       match acc with
       | Err msg => Err msg
       | Ok m =>
           if isInheritedKey (categoryOf a) then Err pushIsNotAFunction
           else Ok (pushByCategory m a)
       end)
    l (Ok m)
  = if forallb (fun a => negb (isInheritedKey (categoryOf a))) l
    then Ok (fold_left pushByCategory l m)
    else Err pushIsNotAFunction.
Proof.
  revert m. induction l as [|a l IH]; intros m; [reflexivity|].
  cbn [fold_left forallb].
  destruct (isInheritedKey (categoryOf a)); cbn [negb andb].
  - apply grouping_thrown.
  - apply IH.
Qed.

Lemma plainCategories_forallb (l : list ScoredArticle) :
  forallb (fun a => negb (isInheritedKey (categoryOf a))) l = true <->
  plainCategories l.
Proof.
  induction l as [|a l IH].
  - split; [intros _ x []|reflexivity].
  - rewrite plainCategories_cons. cbn [forallb].
    rewrite andb_true_iff, negb_true_iff, IH. reflexivity.
Qed.

(** With plain categories the loop runs through. *)
Lemma groupByCategory_plain (l : list ScoredArticle) :
  plainCategories l -> groupByCategory l = Ok (grouped l).
Proof.
  intros H. unfold groupByCategory, grouped. rewrite grouping_from.
  by rewrite (proj2 (plainCategories_forallb l) H).
Qed.

(** With a category that is an inherited name it throws. *)
Lemma groupByCategory_inherited (l : list ScoredArticle) :
  ~ plainCategories l -> groupByCategory l = Err pushIsNotAFunction.
Proof.
  intros H. unfold groupByCategory. rewrite grouping_from.
  destruct (forallb _ l) eqn:E; [|reflexivity].
  apply plainCategories_forallb in E. contradiction.
Qed.

Lemma three_categories_plain (l : list ScoredArticle) :
  ofTheThreeCategories l -> plainCategories l.
Proof.
  intros H a Ha Hin. specialize (H a Ha).
  unfold Categories.CATEGORIES in H. cbn [map Categories.id In] in H.
  unfold OBJECT_PROTOTYPE_KEYS in Hin. cbn [In] in Hin.
  destruct H as [H|[H|[H|[]]]]; rewrite <- H in Hin;
    repeat (destruct Hin as [Hin|Hin]; [discriminate Hin|]); destruct Hin.
Qed.

Lemma sorted_filter (p : ScoredArticle -> bool) (l : list ScoredArticle) :
  sortedByScoreDesc l -> sortedByScoreDesc (List.filter p l).
Proof.
  unfold sortedByScoreDesc. induction 1 as [|a l Hs IH Ha]; simpl.
  - constructor.
  - destruct (p a); [|exact IH]. constructor; [exact IH|].
    rewrite List.Forall_forall in *. intros x Hx. apply Ha.
    apply filter_In in Hx. tauto.
Qed.

(** A stable sort leaves a sorted list as it is. *)
Lemma sortByScoreDesc_sorted_id (l : list ScoredArticle) :
  sortedByScoreDesc l -> sortByScoreDesc l = l.
Proof.
  unfold sortedByScoreDesc, sortByScoreDesc.
  induction 1 as [|a l Hs IH Ha]; simpl; [reflexivity|].
  rewrite IH.
  destruct l as [|b l]; [reflexivity|]. simpl.
  apply Forall_inv in Ha. apply Z.leb_le in Ha. by rewrite Ha.
Qed.

Lemma insertDesc_sorted (x : ScoredArticle) (l : list ScoredArticle) :
  sortedByScoreDesc l -> sortedByScoreDesc (insertDesc x l).
Proof.
  unfold sortedByScoreDesc. induction 1 as [|a l Hs IH Ha]; simpl.
  - repeat constructor.
  - destruct (score a <=? score x) eqn:E.
    + apply Z.leb_le in E. constructor; [by constructor|].
      constructor; [exact E|]. rewrite List.Forall_forall in *.
      intros y Hy. specialize (Ha y Hy). lia.
    + apply Z.leb_gt in E. constructor; [exact IH|].
      rewrite List.Forall_forall in *. intros y Hy.
      assert (Hin : y = x \/ In y l).
      { clear -Hy. induction l as [|b l IHl]; simpl in *.
        - destruct Hy as [->|[]]; auto.
        - destruct (score b <=? score x); simpl in Hy.
          + destruct Hy as [->|[->|Hy]]; auto.
          + destruct Hy as [->|Hy]; auto. destruct (IHl Hy); auto. }
      destruct Hin as [->|Hin]; [lia|by apply Ha].
Qed.

(** What [scoreArticles] hands on is sorted by descending score. *)
Lemma sortByScoreDesc_sorted (l : list ScoredArticle) :
  sortedByScoreDesc (sortByScoreDesc l).
Proof.
  unfold sortByScoreDesc.
  induction l as [|a l IH]; simpl; [constructor|]. by apply insertDesc_sorted.
Qed.

Lemma view_setSlot slot q a : view (setSlot slot q a) = view a.
Proof. reflexivity. Qed.

Lemma view_updateFirst p slot q (l : list ScoredArticle) :
  map view (updateFirst p (setSlot slot q) l) = map view l.
Proof.
  induction l as [|a l IH]; simpl; [reflexivity|].
  destruct (p a); simpl; [reflexivity|by rewrite IH].
Qed.

(** Slot annotation leaves article, score and rank as they are. *)
Lemma view_assignPostingSlots q (l : list ScoredArticle) :
  map view (assignPostingSlots q l) = map view l.
Proof.
  unfold assignPostingSlots. generalize PostingSchedule.POSTING_SCHEDULE.
  intros slots. revert l. induction slots as [|slot slots IH]; intros l; simpl.
  - reflexivity.
  - by rewrite IH, view_updateFirst.
Qed.

Lemma view_assignRanks (xs : list ScoredArticle) :
  map view (assignRanks xs) = rankedViews xs.
Proof.
  unfold assignRanks, rankedViews.
  change (map view) with (fmap (M:=list) view). rewrite fmap_imap.
  apply imap_ext. reflexivity.
Qed.

Lemma selectForCategory_spec (l : list ScoredArticle) (c : string) :
  sortedByScoreDesc l ->
  map view (selectForCategory (grouped l) c) = rankedViews (chosenFor c l).
Proof.
  intros Hs. unfold selectForCategory, chosenFor, topByScore. cbv zeta.
  rewrite grouped_lookup, view_assignRanks.
  unfold MIN_SCORE_THRESHOLD, ARTICLES_PER_CATEGORY.
  rewrite !sortByScoreDesc_sorted_id; [reflexivity| |].
  - by apply sorted_filter.
  - by apply sorted_filter, sorted_filter.
Qed.

Lemma selectFromGroups_spec (quoteId : option Z) (l : list ScoredArticle) :
  sortedByScoreDesc l ->
  map view (selectFromGroups quoteId (grouped l)) = selectSpec l.
Proof.
  intros Hs. unfold selectFromGroups, selectSpec. cbv zeta.
  rewrite view_assignPostingSlots.
  unfold Categories.CATEGORIES. cbn [map concat Categories.id].
  rewrite !map_app, !selectForCategory_spec by exact Hs. reflexivity.
Qed.

(** C4. For every list of scored articles sorted by descending total
    score and with no category named like an inherited property, as is
    every list of articles of the three categories, [selectTopArticles]
    returns, category by category: the top three of the articles scoring
    at least 60 when at least three do, the top three (or all, if fewer)
    of the category's articles otherwise; the articles carry the ranks
    1, 2, 3 in descending score order, ties in input order.  On a list
    holding a category named like an inherited property the call throws
    and selects nothing. *)
Theorem selectTopArticles_top_three (quoteId : option Z) (l : list ScoredArticle) :
  sortedByScoreDesc l ->
  (plainCategories l ->
   exists selection,
     selectTopArticles quoteId l = Ok selection /\
     map view selection = selectSpec l) /\
  (ofTheThreeCategories l -> plainCategories l) /\
  (~ plainCategories l ->
   selectTopArticles quoteId l = Err pushIsNotAFunction).
Proof.
  intros Hs. split; [|split].
  - intros Hplain. unfold selectTopArticles.
    rewrite (groupByCategory_plain l Hplain).
    eexists. split; [reflexivity|]. by apply selectFromGroups_spec.
  - apply three_categories_plain.
  - intros Hn. unfold selectTopArticles.
    by rewrite (groupByCategory_inherited l Hn).
Qed.
End SelectionProofs.

(** The sample list: the providers tie at 85 is broken by input order, the
    business category falls back to its unfiltered top three. *)
Lemma selectTopArticles_top_three_witness :
  Vocabulary.sortedByScoreDesc Vocabulary.sampleScored /\
  Vocabulary.ofTheThreeCategories Vocabulary.sampleScored /\
  exists selection,
    Filter.selectTopArticles (Some 1) Vocabulary.sampleScored = Ok selection /\
    map (fun v => (Filter.headline (fst (fst v)), snd (fst v), snd v))
        (map Vocabulary.view selection)
    = [("p1", 90, Some 1); ("p2", 85, Some 2); ("p3", 85, Some 3);
       ("b1", 70, Some 1); ("b2", 65, Some 2); ("b3", 40, Some 3);
       ("s1", 60, Some 1)]%string.
Proof.
  assert (Hs : Vocabulary.sortedByScoreDesc Vocabulary.sampleScored).
  { unfold Vocabulary.sortedByScoreDesc, Vocabulary.sampleScored.
    repeat (constructor; [|repeat (constructor; [simpl; lia|]); constructor]).
    constructor. }
  assert (Hc : Vocabulary.ofTheThreeCategories Vocabulary.sampleScored).
  { intros a Ha. unfold Vocabulary.sampleScored in Ha. cbn [In] in Ha.
    repeat (destruct Ha as [<-|Ha]; [vm_compute; tauto|]). destruct Ha. }
  split; [exact Hs|]. split; [exact Hc|].
  destruct (selectTopArticles_top_three (Some 1) Vocabulary.sampleScored Hs)
    as (Hok & Hplain & _).
  destruct (Hok (Hplain Hc)) as (selection & Hsel & Hview).
  exists selection. split; [exact Hsel|]. rewrite Hview.
  vm_compute. reflexivity.
Defined.

(** A list holding an article of category [constructor]: sorted, and the
    selection throws. *)
Example selectTopArticles_inherited_category :
  Vocabulary.sortedByScoreDesc Vocabulary.inheritedCategory /\
  Filter.selectTopArticles (Some 1) Vocabulary.inheritedCategory
  = Err Filter.pushIsNotAFunction.
Proof.
  split; [repeat constructor|]. vm_compute. reflexivity.
Qed.

(** ** Slot assignment *)

Section AssignmentProofs.
Import Filter Scheduler Vocabulary.

Lemma inCategory_In (c : string) (l : list ScoredArticle) (a : ScoredArticle) :
  In a (inCategory c l) <-> In a l /\ categoryOf a = c.
Proof.
  unfold inCategory. rewrite filter_In. by rewrite String.eqb_eq.
Qed.

Lemma In_lookup {A : Type} (l : list A) (x : A) :
  In x l <-> exists i, l !! i = Some x.
Proof. rewrite <- list_elem_of_In. apply list_elem_of_lookup. Qed.

Lemma assign_plain (l : list ScoredArticle) (s : State) :
  plainCategories l ->
  assignArticlesToSchedule l s
  = Ok {| queue := assignPost (grouped l) <$> queue s;
          postedToday := postedToday s |}.
Proof.
  intros H. unfold assignArticlesToSchedule.
  by rewrite (groupByCategory_plain l H).
Qed.

Lemma assign_inherited (l : list ScoredArticle) (s : State) :
  ~ plainCategories l ->
  assignArticlesToSchedule l s = Err pushIsNotAFunction.
Proof.
  intros H. unfold assignArticlesToSchedule.
  by rewrite (groupByCategory_inherited l H).
Qed.

Lemma assign_Ok (l : list ScoredArticle) (s s' : State) :
  assignArticlesToSchedule l s = Ok s' ->
  s' = {| queue := assignPost (grouped l) <$> queue s;
          postedToday := postedToday s |}.
Proof.
  intros H. unfold assignArticlesToSchedule in H.
  destruct (groupByCategory l) as [m|msg] eqn:E; [|discriminate].
  injection H as <-.
  unfold groupByCategory in E. rewrite grouping_from in E.
  destruct (forallb _ l); [|discriminate]. injection E as <-. reflexivity.
Qed.

(** The array looked up for a post holds the article in its place. *)
Lemma articleForPost_in_place (l : list ScoredArticle) (p : ScheduledPost) :
  articleForPost (grouped l) p = articleInPlace l p.
Proof.
  unfold articleForPost, articleInPlace. cbv zeta. rewrite grouped_lookup.
  destruct (Scheduler.categoryRank p - 1 <? 0) eqn:E1;
    destruct (Scheduler.categoryRank p <? 1) eqn:E2; try reflexivity;
    rewrite ?Z.ltb_lt, ?Z.ltb_ge in *; lia.
Qed.

Lemma assignPost_in_place (l : list ScoredArticle) (p : ScheduledPost) :
  boundInPlace l p (assignPost (grouped l) p).
Proof.
  unfold boundInPlace, assignPost. rewrite articleForPost_in_place.
  destruct (articleInPlace l p) as [a|]; cbn; repeat split; reflexivity.
Qed.

(** In a list in rank order the article in the place of a post is the
    one whose category and rank equal the post's. *)
Lemma in_place_by_rank (l : list ScoredArticle) (p p' : ScheduledPost) :
  rankedInOrder l -> boundInPlace l p p' -> assignedByRank l p p'.
Proof.
  intros Hr [Hbound _]. unfold assignedByRank.
  unfold articleInPlace in Hbound.
  specialize (Hr (Scheduler.categoryId p)). unfold ranksInOrder in Hr.
  split.
  - intros a Ha [Hc Hk].
    assert (Hin : In a (inCategory (Scheduler.categoryId p) l))
      by (apply inCategory_In; auto).
    apply In_lookup in Hin as [i Hi].
    pose proof (Hr i a Hi) as Hrank. rewrite Hk in Hrank.
    injection Hrank as Hrank.
    destruct (Scheduler.categoryRank p <? 1) eqn:E; [apply Z.ltb_lt in E; lia|].
    replace (Scheduler.categoryRank p - 1) with (Z.of_nat i) in Hbound by lia.
    rewrite Nat2Z.id, Hi in Hbound. exact Hbound.
  - intros Hnone.
    destruct (Scheduler.categoryRank p <? 1) eqn:E; [tauto|].
    apply Z.ltb_ge in E.
    destruct (inCategory (Scheduler.categoryId p) l
                !! Z.to_nat (Scheduler.categoryRank p - 1)) as [a|] eqn:Ea;
      [|tauto].
    exfalso.
    assert (Hin : In a (inCategory (Scheduler.categoryId p) l))
      by (apply In_lookup; eauto).
    apply inCategory_In in Hin as [Hin Hc].
    apply (Hnone a Hin). split; [exact Hc|].
    rewrite (Hr _ a Ea). f_equal. lia.
Qed.

(** C3, as amended.  On a list with no category named like an inherited
    property, assignment keeps the set of posts and the record of posted
    ids, and leaves every Scheduled Post [ready] with the article in its
    place, the [k]-th article of the post's category in list order for
    the post's rank [k], or [no-article] when the category has fewer
    articles.  When, within each category, the articles appear in rank
    order (the [k]-th article of a category carries rank [k], as
    [selectTopArticles] produces them), this is the article whose
    category and rank equal the slot's when there is one, and
    [no-article] when there is none.  On a list holding a category named
    like an inherited property the call throws before any post is
    touched. *)
Theorem assignment_by_rank_in_order (l : list ScoredArticle) (s : State) :
  (plainCategories l ->
   exists s',
     assignArticlesToSchedule l s = Ok s' /\
     postedToday s' = postedToday s /\
     (forall postId, queue s !! postId = None -> queue s' !! postId = None) /\
     (forall postId p,
        queue s !! postId = Some p ->
        exists p',
          queue s' !! postId = Some p' /\
          boundInPlace l p p' /\
          (rankedInOrder l -> assignedByRank l p p'))) /\
  (ofTheThreeCategories l -> plainCategories l) /\
  (~ plainCategories l ->
   assignArticlesToSchedule l s = Err pushIsNotAFunction).
Proof.
  split; [|split].
  - intros Hplain. eexists. split; [by apply assign_plain|]. cbn [queue postedToday].
    split; [reflexivity|]. split.
    + intros postId Hnone. by rewrite lookup_fmap, Hnone.
    + intros postId p Hp. exists (assignPost (grouped l) p).
      split; [by rewrite lookup_fmap, Hp|].
      split; [apply assignPost_in_place|].
      intros Hr. apply in_place_by_rank; [exact Hr|apply assignPost_in_place].
  - apply three_categories_plain.
  - apply assign_inherited.
Qed.

Lemma swappedRanks_plain : plainCategories swappedRanks.
Proof.
  apply three_categories_plain. intros a Ha.
  unfold swappedRanks in Ha. cbn [In] in Ha.
  repeat (destruct Ha as [<-|Ha]; [vm_compute; tauto|]). destruct Ha.
Qed.

(** C3 as stated fails: with the second-ranked providers article listed
    before the first-ranked one, the 9 o'clock slot (providers, rank 1) is
    bound to the second-ranked article, although the article of its own
    rank is in the list. *)
Lemma assignment_order_counterexample : ~ assignsByRankInAnyOrder.
Proof.
  intros H.
  destruct (queue sampleSchedule !! "2024-03-12-1"%string) as [p|] eqn:Ep;
    [|vm_compute in Ep; discriminate].
  destruct (H swappedRanks sampleSchedule _ p Ep) as (s' & p' & Hs' & Hp' & Hfound & _).
  apply assign_Ok in Hs'. subst s'. cbn [queue] in Hp'.
  rewrite lookup_fmap, Ep in Hp'. cbn [fmap option_fmap option_map] in Hp'.
  injection Hp' as <-.
  vm_compute in Ep. injection Ep as <-.
  destruct (Hfound (scored "first" "ai-providers" 90 (Some 1)))
    as [_ Hart].
  - simpl. auto.
  - split; reflexivity.
  - vm_compute in Hart. discriminate.
Qed.
End AssignmentProofs.

(** A list holding an article of category [constructor]: each article
    in rank order, and the assignment throws, whatever the schedule. *)
Example assignment_inherited_category (s : Scheduler.State) :
  Vocabulary.rankedInOrder Vocabulary.inheritedCategory /\
  Scheduler.assignArticlesToSchedule Vocabulary.inheritedCategory s
  = Err Filter.pushIsNotAFunction.
Proof.
  split; [|reflexivity].
  intros c i a. unfold Vocabulary.inheritedCategory, Vocabulary.inCategory.
  cbn [List.filter Filter.categoryOf Filter.category Filter.article
       Vocabulary.scored].
  destruct (String.eqb "constructor" c); [|intros H; destruct i; discriminate H].
  destruct i as [|i]; [|intros H; destruct i; discriminate H].
  cbn. intros [= <-]. reflexivity.
Qed.

(** ** The selection meets the precondition of the assignment *)

Section SelectionFeedsAssignment.
Import Filter Vocabulary.

Lemma ranksInOrder_view (xs ys : list ScoredArticle) :
  map view xs = map view ys -> ranksInOrder xs -> ranksInOrder ys.
Proof.
  intros Hv Hx i b Hb.
  assert (Hvb : map view ys !! i = Some (view b)).
  { change (map view) with (fmap (M:=list) view). by rewrite list_lookup_fmap, Hb. }
  rewrite <- Hv in Hvb.
  change (map view) with (fmap (M:=list) view) in Hvb.
  rewrite list_lookup_fmap in Hvb.
  destruct (xs !! i) as [a|] eqn:Ea; [|discriminate].
  simpl in Hvb. injection Hvb as _ _ Hrank. rewrite <- Hrank. by apply Hx.
Qed.

Lemma inCategory_view (c : string) (l l' : list ScoredArticle) :
  map view l = map view l' ->
  map view (inCategory c l) = map view (inCategory c l').
Proof.
  revert l'. induction l as [|a l IH]; intros [|b l'] H; try discriminate.
  - reflexivity.
  - simpl in H. injection H as Hart Hscore Hrank Hrest.
    unfold inCategory. simpl. unfold categoryOf. rewrite Hart.
    destruct (String.eqb (category (article b)) c); simpl.
    + f_equal; [|by apply IH].
      unfold view. by rewrite Hart, Hscore, Hrank.
    + by apply IH.
Qed.

Lemma In_take {A : Type} (n : nat) (l : list A) (x : A) : In x (take n l) -> In x l.
Proof.
  rewrite <- !list_elem_of_In. intros H.
  apply list_elem_of_lookup in H as [i Hi]. apply lookup_take_Some in Hi as [Hi _].
  apply list_elem_of_lookup. eauto.
Qed.

Lemma selectForCategory_lookup (l : list ScoredArticle) (c : string)
      (i : nat) (a : ScoredArticle) :
  selectForCategory (grouped l) c !! i = Some a ->
  categoryOf a = c /\ categoryRank a = Some (Z.of_nat i + 1).
Proof.
  unfold selectForCategory. cbv zeta. rewrite grouped_lookup.
  unfold assignRanks. rewrite list_lookup_imap.
  set (chosen := if (_ <=? _)%nat then _ else _).
  destruct (chosen !! i) as [x|] eqn:Ex; [|discriminate].
  simpl. intros [= <-]. split; [|reflexivity].
  assert (Hin : In x (inCategory c l)).
  { assert (Hx : In x chosen) by (apply In_lookup; eauto).
    subst chosen.
    destruct (_ <=? _)%nat; apply In_take in Hx; [|exact Hx].
    apply filter_In in Hx. tauto. }
  apply inCategory_In in Hin. unfold categoryOf in *. simpl. tauto.
Qed.

Lemma inCategory_select (l : list ScoredArticle) (c c' : string) :
  inCategory c (selectForCategory (grouped l) c')
  = if String.eqb c' c then selectForCategory (grouped l) c' else [].
Proof.
  assert (Hall : forall a, In a (selectForCategory (grouped l) c') ->
                           categoryOf a = c').
  { intros a Ha. apply In_lookup in Ha as [i Hi].
    by apply selectForCategory_lookup in Hi as [Hc _]. }
  revert Hall. generalize (selectForCategory (grouped l) c').
  intros xs Hall. unfold inCategory.
  induction xs as [|x xs IH]; simpl.
  - by destruct (String.eqb c' c).
  - rewrite (Hall x (or_introl eq_refl)).
    rewrite IH by (intros a Ha; apply Hall; by right).
    by destruct (String.eqb c' c).
Qed.

Lemma inCategory_app (c : string) (l1 l2 : list ScoredArticle) :
  inCategory c (l1 ++ l2) = inCategory c l1 ++ inCategory c l2.
Proof. unfold inCategory. apply List.filter_app. Qed.

(** Whatever the articles grouped, the selection lists each category's
    articles in rank order. *)
Lemma selectFromGroups_rankedInOrder (quoteId : option Z) (l : list ScoredArticle) :
  rankedInOrder (selectFromGroups quoteId (grouped l)).
Proof.
  intros c. unfold selectFromGroups. cbv zeta.
  eapply ranksInOrder_view.
  { apply inCategory_view. symmetry. apply view_assignPostingSlots. }
  unfold Categories.CATEGORIES. cbn [map concat Categories.id].
  rewrite !inCategory_app, !inCategory_select. cbn [inCategory List.filter].
  assert (Hsel : forall c', ranksInOrder (selectForCategory (grouped l) c')).
  { intros c' i a Hi. by apply selectForCategory_lookup in Hi as [_ Hr]. }
  destruct (String.eqb "ai-providers" c) eqn:E1;
    destruct (String.eqb "business-ai" c) eqn:E2;
    destruct (String.eqb "ai-safety" c) eqn:E3;
    try (apply String.eqb_eq in E1; subst c; discriminate);
    try (apply String.eqb_eq in E2; subst c; discriminate);
    rewrite ?app_nil_r; simpl; try apply Hsel.
  intros i a Hi. destruct i; discriminate.
Qed.

(** The articles selected belong to the three categories. *)
Lemma selectFromGroups_three_categories (quoteId : option Z) (l : list ScoredArticle) :
  ofTheThreeCategories (selectFromGroups quoteId (grouped l)).
Proof.
  intros a Ha.
  assert (Hv : In (view a) (map view (selectFromGroups quoteId (grouped l))))
    by (apply in_map, Ha).
  unfold selectFromGroups in Hv. cbv zeta in Hv.
  rewrite view_assignPostingSlots in Hv.
  apply in_map_iff in Hv as (b & Hb & Hin).
  assert (Hcat : categoryOf a = categoryOf b).
  { unfold view in Hb. injection Hb as Hart _ _. unfold categoryOf. by rewrite Hart. }
  rewrite Hcat.
  unfold Categories.CATEGORIES in *. cbn [map concat Categories.id] in *.
  rewrite app_nil_r in Hin.
  assert (Hsel : forall c x, In x (selectForCategory (grouped l) c) -> categoryOf x = c).
  { intros c x Hx. apply In_lookup in Hx as [i Hi].
    by apply selectForCategory_lookup in Hi as [Hc _]. }
  apply in_app_or in Hin as [Hin|Hin]; [|apply in_app_or in Hin as [Hin|Hin]];
    apply Hsel in Hin; rewrite Hin; cbn [In]; tauto.
Qed.

(** What [selectTopArticles] returns is in rank order and of the three
    categories: assignment accepts it and binds by rank. *)
Lemma selectTopArticles_feeds_assignment
      (quoteId : option Z) (l selection : list ScoredArticle) :
  selectTopArticles quoteId l = Ok selection ->
  rankedInOrder selection /\ ofTheThreeCategories selection.
Proof.
  unfold selectTopArticles. intros H.
  destruct (groupByCategory l) as [m|msg] eqn:E; [|discriminate].
  injection H as <-.
  unfold groupByCategory in E. rewrite grouping_from in E.
  destruct (forallb _ l); [|discriminate]. injection E as <-.
  split; [apply selectFromGroups_rankedInOrder
         |apply selectFromGroups_three_categories].
Qed.
End SelectionFeedsAssignment.

(** On the initialised schedule, the selection of the sample list puts the
    best providers article into the 9 o'clock slot. *)
Lemma assignment_by_rank_in_order_witness :
  Vocabulary.ofTheThreeCategories Vocabulary.sampleSelected /\
  Vocabulary.rankedInOrder Vocabulary.sampleSelected /\
  exists s' p',
    Scheduler.assignArticlesToSchedule Vocabulary.sampleSelected
                                       Vocabulary.sampleSchedule = Ok s' /\
    Scheduler.queue s' !! "2024-03-12-1"%string = Some p' /\
    Scheduler.status p' = Scheduler.ready /\
    option_map (fun a => Filter.headline (Filter.article a)) (Scheduler.article p')
    = Some "p1"%string.
Proof.
  assert (Hsel : Filter.selectTopArticles (Some 2) Vocabulary.sampleScored
                 = Ok Vocabulary.sampleSelected) by (vm_compute; reflexivity).
  destruct (selectTopArticles_feeds_assignment _ _ _ Hsel) as [Hranked Hthree].
  split; [exact Hthree|]. split; [exact Hranked|].
  destruct (assignment_by_rank_in_order Vocabulary.sampleSelected
                                        Vocabulary.sampleSchedule)
    as (Hok & Hplain & _).
  destruct (Hok (Hplain Hthree)) as (s' & Hs' & _ & _ & Hposts).
  destruct (Scheduler.queue Vocabulary.sampleSchedule !! "2024-03-12-1"%string)
    as [p|] eqn:Ep; [|vm_compute in Ep; discriminate].
  destruct (Hposts _ p Ep) as (p' & Hp' & _ & Hrank).
  destruct (Hrank Hranked) as [Hfound _].
  exists s', p'. split; [exact Hs'|]. split; [exact Hp'|].
  vm_compute in Ep. injection Ep as <-.
  destruct (Hfound (Filter.setSlot
                      {| PostingSchedule.hour := 9; PostingSchedule.utcHour := 14;
                         PostingSchedule.utcHourDST := 13;
                         PostingSchedule.postNumber := 1;
                         PostingSchedule.categoryId := "ai-providers";
                         PostingSchedule.categoryRank := 1;
                         PostingSchedule.includeQuote := false |}
                      (Some 2)
                      (Filter.setRank 1 (Vocabulary.scored "p1" "ai-providers" 90 None))))
    as [Hst Hart].
  - vm_compute. auto.
  - split; reflexivity.
  - split; [exact Hst|]. rewrite Hart. reflexivity.
Defined.

(** ** The scheduler's invariants *)

Section SchedulerInvariants.
Import Scheduler Vocabulary.

Local Abbreviation inv := schedulerInvariant.

(** A lookup in a queue after [queue.set(i, v)]: the key is [i] and the
    post is [v], or the lookup was the same before. *)
Local Ltac insert_cases H :=
  match type of H with
  | <[?i := _]> _ !! ?k = Some _ =>
      destruct (decide (i = k)) as [<-|?];
      [rewrite lookup_insert_eq in H; injection H as <-
      |rewrite lookup_insert_ne in H by done]
  end.

Lemma inv_constructor : inv constructor.
Proof. split; intros k p H; simpl in H; by rewrite lookup_empty in H. Qed.

(** A key of the queue after initialisation holds a fresh pending post or
    what it held before. *)
Lemma initialize_lookup (mk : PostingSchedule.TimeSlot -> ScheduledPost)
      (slots : list PostingSchedule.TimeSlot) (q : gmap string ScheduledPost)
      (k : string) (p : ScheduledPost) :
  fold_left (fun q slot => <[id (mk slot) := mk slot]> q) slots q !! k = Some p ->
  (exists slot, p = mk slot /\ k = id (mk slot)) \/ q !! k = Some p.
Proof.
  revert q. induction slots as [|slot slots IH]; intros q H; simpl in H.
  - by right.
  - apply IH in H as [H|H]; [by left|].
    destruct (decide (id (mk slot) = k)) as [<-|Hne].
    + rewrite lookup_insert_eq in H. injection H as <-. left. eauto.
    + rewrite lookup_insert_ne in H by done. by right.
Qed.

Lemma inv_initialize tza now s : inv s -> inv (initializeDailySchedule tza now s).
Proof.
  intros [Hp Hk]. split; intros k p H; unfold initializeDailySchedule in H;
    cbn [queue] in H; apply initialize_lookup in H as [(slot & -> & ->)|H].
  - discriminate.
  - intros Hst. cbn [postedToday initializeDailySchedule]. by apply (Hp k p).
  - reflexivity.
  - by apply Hk.
Qed.

Lemma assignPost_id m p : id (assignPost m p) = id p.
Proof. unfold assignPost. by destruct (articleForPost m p). Qed.

Lemma assignPost_not_posted m p : status (assignPost m p) <> posted.
Proof. unfold assignPost. by destruct (articleForPost m p). Qed.

Lemma inv_assign l s s' : inv s -> assignArticlesToSchedule l s = Ok s' -> inv s'.
Proof.
  intros [Hp Hk] Hs'. apply assign_Ok in Hs'. subst s'.
  split; intros k p H;
    cbn [queue] in H; rewrite lookup_fmap in H;
    destruct (queue s !! k) as [p0|] eqn:E; try discriminate;
    simpl in H; injection H as <-.
  - intros Hst. by apply assignPost_not_posted in Hst.
  - rewrite assignPost_id. by apply Hk.
Qed.

Lemma inv_markPosted now postId tweetId s : inv s -> inv (markPosted now postId tweetId s).
Proof.
  intros [Hp Hk]. unfold markPosted.
  destruct (queue s !! postId) as [p0|] eqn:E; [|by split].
  split; intros k p H; cbn [queue postedToday] in *.
  - intros Hst. destruct (decide (postId = k)) as [<-|Hne]; [set_solver|].
    rewrite lookup_insert_ne in H by done.
    apply elem_of_union_r. by apply (Hp k p).
  - destruct (decide (postId = k)) as [<-|Hne].
    + rewrite lookup_insert_eq in H. injection H as <-. simpl. by apply Hk.
    + rewrite lookup_insert_ne in H by done. by apply Hk.
Qed.

Lemma inv_markFailed postId e s : inv s -> inv (markFailed postId e s).
Proof.
  intros [Hp Hk]. unfold markFailed.
  destruct (queue s !! postId) as [p0|] eqn:E; [|by split].
  split; intros k p H; cbn [queue postedToday] in *;
    insert_cases H.
  - discriminate.
  - by apply Hp.
  - simpl. by apply Hk.
  - by apply Hk.
Qed.

Lemma inv_setTweetContent postId t tags s : inv s -> inv (setTweetContent postId t tags s).
Proof.
  intros [Hp Hk]. unfold setTweetContent.
  destruct (queue s !! postId) as [p0|] eqn:E; [|by split].
  split; intros k p H; cbn [queue postedToday] in *;
    insert_cases H.
  - simpl. by apply Hp.
  - by apply Hp.
  - simpl. by apply Hk.
  - by apply Hk.
Qed.

Lemma inv_import schedule s : inv s -> inv (importSchedule schedule s).
Proof.
  intros _. unfold importSchedule.
  assert (H0 : inv {| queue := ∅; postedToday := postedToday s |}).
  { split; intros k p H; simpl in H; by rewrite lookup_empty in H. }
  revert H0. generalize {| queue := ∅; postedToday := postedToday s |}.
  induction schedule as [|post schedule IH]; intros st Hst; simpl; [exact Hst|].
  apply IH. destruct Hst as [Hp Hk].
  split; intros k p H; cbn [queue postedToday] in *;
    insert_cases H.
  - intros ->. set_solver.
  - intros Hposted. specialize (Hp k p H Hposted).
    destruct (status post); set_solver.
  - reflexivity.
  - by apply Hk.
Qed.

(** An invocation leaves the scheduler as it found it or marks the post it
    resolved as posted. *)
Lemma run_state tza now w s :
  fst (fst (Poster.run tza now w s)) = s \/
  exists p tid, getCurrentPost tza now s = Some p /\ status p = ready /\
                fst (fst (Poster.run tza now w s)) = markPosted now (id p) tid s.
Proof.
  unfold Poster.run.
  destruct (getCurrentPost tza now s) as [p|]; [|by left].
  destruct (status p) eqn:Est; try by left.
  destruct (Poster.createTweetContent w p None) as [c|m]; [|by left].
  destruct (Poster.isDuplicate w (Poster.text c)) as [dup|m]; [|by left].
  destruct (if dup then _ else _) as [alt|m]; [|by left].
  destruct (if Poster.dryRun w then _ else _) as [tid|m]; [|by left].
  right. exists p, tid. split; [reflexivity|]. split; [exact Est|].
  by destruct (if Poster.dryRun w then _ else _).
Qed.

Lemma inv_run tza now w s : inv s -> inv (fst (fst (Poster.run tza now w s))).
Proof.
  intros H. destruct (run_state tza now w s) as [->|(p & tid & _ & _ & ->)];
    [exact H|by apply inv_markPosted].
Qed.

Lemma inv_retry tza now w postId s r :
  inv s -> Poster.retryPost tza now w postId s = Some r -> inv (fst (fst r)).
Proof.
  intros [Hp Hk]. unfold Poster.retryPost.
  destruct (queue s !! postId) as [p0|] eqn:E; [|discriminate].
  destruct (status p0) eqn:Est; try discriminate.
  intros [= <-]. apply inv_run.
  split; intros k p H; cbn [queue postedToday] in *;
    insert_cases H.
  - discriminate.
  - by apply Hp.
  - simpl. by apply Hk.
  - by apply Hk.
Qed.

Lemma reachable_inv s : reachable s -> inv s.
Proof.
  induction 1.
  - apply inv_constructor.
  - by apply inv_initialize.
  - by eapply inv_assign.
  - by apply inv_markPosted.
  - by apply inv_markFailed.
  - by apply inv_setTweetContent.
  - apply inv_constructor.
  - by apply inv_import.
  - by apply inv_run.
  - by eapply inv_retry.
Qed.
End SchedulerInvariants.

(** ** Idempotent publishing and the failure path *)

Section PublishProofs.
Import Scheduler Vocabulary.

(** Under the invariant, a posted post is skipped by [getCurrentPost] and
    by the whole invocation. *)
Lemma posted_post_is_skipped
      (tza now : Z) (w : Poster.World) (s : State)
      (postId : string) (p : ScheduledPost) :
  schedulerInvariant s ->
  currentPostId tza now = Some postId ->
  queue s !! postId = Some p ->
  status p = posted ->
  postId ∈ postedToday s /\
  getCurrentPost tza now s = None /\
  Poster.run tza now w s = (s, nothingScheduled, []).
Proof.
  intros [Hp _] Hid Hq Hst.
  pose proof (Hp postId p Hq Hst) as Hin.
  assert (Hnone : getCurrentPost tza now s = None).
  { unfold getCurrentPost. rewrite Hid, Hq. by rewrite decide_True. }
  split; [exact Hin|]. split; [exact Hnone|].
  unfold Poster.run. by rewrite Hnone.
Qed.

(** X11. On one scheduler instance: in every state the scheduler reaches,
    an invocation that resolves to a post whose status is [posted] is a
    no-op: [getCurrentPost] returns null for it (its id is in
    [postedToday]), the invocation changes nothing in the scheduler --
    the post goes through neither [ready] nor [failed] -- and makes no
    publish call. *)
Theorem posted_slot_retrigger_is_noop
        (tza now : Z) (w : Poster.World) (s : State)
        (postId : string) (p : ScheduledPost) :
  reachable s ->
  currentPostId tza now = Some postId ->
  queue s !! postId = Some p ->
  status p = posted ->
  postId ∈ postedToday s /\
  getCurrentPost tza now s = None /\
  Poster.run tza now w s = (s, nothingScheduled, []).
Proof.
  intros Hr. apply posted_post_is_skipped. by apply reachable_inv.
Qed.

Lemma getCurrentPost_Some tza now s p :
  getCurrentPost tza now s = Some p ->
  exists k, currentPostId tza now = Some k /\ queue s !! k = Some p /\
            k ∉ postedToday s.
Proof.
  unfold getCurrentPost. generalize (currentPostId tza now).
  intros [k|]; [|discriminate].
  destruct (queue s !! k) as [p0|] eqn:E0; [|discriminate].
  destruct (decide (k ∈ postedToday s)); [discriminate|].
  intros [= ->]. eauto.
Qed.

(** A successful invocation leaves its post [posted]. *)
Lemma run_success_posts tza now w s rp :
  schedulerInvariant s ->
  Poster.post (snd (fst (Poster.run tza now w s))) = Some rp ->
  exists p, queue (fst (fst (Poster.run tza now w s))) !! Poster.rId rp = Some p /\
            status p = posted /\
            currentPostId tza now = Some (Poster.rId rp).
Proof.
  intros [_ Hk]. unfold Poster.run.
  destruct (getCurrentPost tza now s) as [p|] eqn:Eg; [|discriminate].
  destruct (getCurrentPost_Some tza now s p Eg) as (k & Hc & Hq & _).
  pose proof (Hk k p Hq) as Hid. subst k.
  destruct (status p) eqn:Est; try discriminate.
  destruct (Poster.createTweetContent w p None) as [c|m]; [|discriminate].
  destruct (Poster.isDuplicate w (Poster.text c)) as [dup|m]; [|discriminate].
  destruct (if dup then _ else _) as [alt|m]; [|discriminate].
  destruct (if Poster.dryRun w then _ else _) as [tid|m]; [|discriminate].
  destruct (if Poster.dryRun w then _ else _) as [[]|m]; [|discriminate].
  cbn [fst snd Poster.post]. intros [= <-]. cbn [Poster.rId].
  unfold markPosted. rewrite Hq. cbn [queue]. rewrite lookup_insert_eq.
  eexists. split; [reflexivity|]. split; [reflexivity|exact Hc].
Qed.

(** The repeated trigger itself: once an invocation has published a post,
    any later invocation of the same scheduler that resolves to the same
    slot of the same civic day does nothing. *)
Corollary repeated_trigger_does_not_double_post
          (tza now1 now2 : Z) (w1 w2 : Poster.World) (s : State) (rp : Poster.ResultPost) :
  reachable s ->
  Poster.post (snd (fst (Poster.run tza now1 w1 s))) = Some rp ->
  currentPostId tza now2 = currentPostId tza now1 ->
  let s1 := fst (fst (Poster.run tza now1 w1 s)) in
  Poster.run tza now2 w2 s1 = (s1, nothingScheduled, []).
Proof.
  intros Hr Hpost Hsame s1.
  destruct (run_success_posts tza now1 w1 s rp (reachable_inv s Hr) Hpost)
    as (p & Hq & Hst & Hc).
  rewrite <- Hsame in Hc.
  apply (posted_post_is_skipped tza now2 w2 s1 (Poster.rId rp) p);
    [by apply reachable_inv, reach_run|done..].
Qed.

(** X20. Whatever happens, an invocation never puts a post into
    [failed]: a failed post of the resulting queue was there before. *)
Lemma run_never_marks_failed tza now w s (k : string) (p : ScheduledPost) :
  queue (fst (fst (Poster.run tza now w s))) !! k = Some p ->
  status p = failed ->
  queue s !! k = Some p.
Proof.
  destruct (run_state tza now w s) as [->|(p0 & tid & _ & _ & ->)]; [done|].
  unfold markPosted. destruct (queue s !! id p0) as [q0|] eqn:E; [|done].
  cbn [queue]. destruct (decide (id p0 = k)) as [<-|Hne].
  - rewrite lookup_insert_eq. intros [= <-]. discriminate.
  - by rewrite lookup_insert_ne by done.
Qed.

(** C2. A ready post whose publishing request fails: the result of the
    invocation records the error and an alert is sent, but the Scheduled
    Post stays [ready] with no error recorded on it -- the scheduler is
    left exactly as it was. *)
Theorem failed_publish_leaves_post_ready :
  option_map status (queue readySchedule !! "2024-03-12-1"%string) = Some ready /\
  let '(s', r, evs) := Poster.run 0 sampleNow failingWorld readySchedule in
  Poster.success r = false /\
  Poster.resultError r = Some "Twitter API error: 503"%string /\
  evs = [Poster.Alerted "poster" "Twitter API error: 503"] /\
  s' = readySchedule /\
  option_map status (queue s' !! "2024-03-12-1"%string) = Some ready /\
  option_map error (queue s' !! "2024-03-12-1"%string) = Some None.
Proof. vm_compute. repeat split. Qed.
End PublishProofs.

(** A post marked failed by hand stays as it is through an invocation. *)
Lemma run_never_marks_failed_witness :
  let s := Scheduler.markFailed "2024-03-12-1" "request refused"
                                Vocabulary.readySchedule in
  option_map Scheduler.status (Scheduler.queue s !! "2024-03-12-1"%string)
  = Some Scheduler.failed /\
  Scheduler.queue (fst (fst (Poster.run 0 Vocabulary.sampleNow Vocabulary.okWorld s)))
    !! "2024-03-12-1"%string
  = Scheduler.queue s !! "2024-03-12-1"%string.
Proof.
  intros s. split; [vm_compute; reflexivity|].
  destruct (Scheduler.queue (fst (fst (Poster.run 0 Vocabulary.sampleNow
                                                  Vocabulary.okWorld s)))
              !! "2024-03-12-1"%string) as [p|] eqn:Ep;
    [|vm_compute in Ep; discriminate].
  symmetry.
  apply (run_never_marks_failed 0 Vocabulary.sampleNow Vocabulary.okWorld s
                                "2024-03-12-1"%string p Ep).
  vm_compute in Ep. injection Ep as <-. reflexivity.
Defined.
(** The sample schedule: the first invocation at 14:00 UTC publishes post
    1; one minute later the same slot resolves again and nothing happens. *)
Lemma posted_slot_retrigger_is_noop_witness :
  let s1 := fst (fst (Poster.run 0 Vocabulary.sampleNow Vocabulary.okWorld
                                 Vocabulary.readySchedule)) in
  option_map Scheduler.status (Scheduler.queue s1 !! "2024-03-12-1"%string)
    = Some Scheduler.posted /\
  Poster.run 0 (Vocabulary.sampleNow + 60000) Vocabulary.okWorld s1
    = (s1, Vocabulary.nothingScheduled, []).
Proof.
  intros s1.
  destruct (Scheduler.queue s1 !! "2024-03-12-1"%string) as [p|] eqn:Ep;
    [|vm_compute in Ep; discriminate].
  assert (Hst : Scheduler.status p = Scheduler.posted).
  { vm_compute in Ep. injection Ep as <-. reflexivity. }
  split; [cbn [option_map]; by rewrite Hst|].
  refine (proj2 (proj2 (posted_slot_retrigger_is_noop 0 (Vocabulary.sampleNow + 60000)
            Vocabulary.okWorld s1 "2024-03-12-1"%string p _ _ Ep Hst))).
  - subst s1.
    apply Vocabulary.reach_run,
      (Vocabulary.reach_assign Vocabulary.sampleSelected Vocabulary.sampleSchedule);
      [|vm_compute; reflexivity].
    apply Vocabulary.reach_initialize, Vocabulary.reach_constructor.
  - vm_compute. reflexivity.
Defined.

(** ** Repeated triggers of the posting phase *)

Section RepeatedTrigger.
Import Scheduler Vocabulary.

Lemma initial_posts_pending (tza now : Z) (k : string) (p : ScheduledPost) :
  queue (initializeDailySchedule tza now constructor) !! k = Some p ->
  status p = pending.
Proof.
  unfold initializeDailySchedule. cbn [queue constructor]. intros H.
  apply initialize_lookup in H as [(slot & -> & _)|H]; [reflexivity|].
  rewrite lookup_empty in H. discriminate.
Qed.

Lemma assignPost_status m p :
  status (assignPost m p) = ready \/ status (assignPost m p) = noArticle.
Proof. unfold assignPost. destruct (articleForPost m p); cbn; auto. Qed.

Lemma loadedSchedule_unpublished tza now headlines (k : string) (p : ScheduledPost) :
  queue (Worker.loadedSchedule tza now headlines) !! k = Some p ->
  unpublished (status p).
Proof.
  unfold Worker.loadedSchedule. cbv zeta.
  set (s0 := initializeDailySchedule tza now constructor).
  assert (H0 : queue s0 !! k = Some p -> unpublished (status p)).
  { intros H. left. by eapply initial_posts_pending. }
  destruct headlines as [rows|msg]; [|exact H0].
  destruct (1 <? length rows)%nat; [|exact H0].
  destruct (assignArticlesToSchedule _ s0) as [s1|msg] eqn:E; [|exact H0].
  apply assign_Ok in E. subst s1. cbn [queue]. rewrite lookup_fmap.
  destruct (queue s0 !! k) as [p0|]; [|discriminate].
  cbn. intros [= <-]. right. apply assignPost_status.
Qed.

Lemma importSchedule_posted (l : list ScheduledPost) (s : State) (k : string) :
  k ∈ postedToday (importSchedule l s) ->
  k ∈ postedToday s \/ exists p, In p l /\ id p = k /\ status p = posted.
Proof.
  unfold importSchedule.
  set (step := fun st post => _).
  assert (Hgen : forall st,
            k ∈ postedToday (fold_left step l st) ->
            k ∈ postedToday st \/ exists p, In p l /\ id p = k /\ status p = posted).
  { induction l as [|x l IH]; intros st H; [by left|].
    cbn [fold_left] in H. apply IH in H as [H|(p & Hp & Hid & Hst)].
    - subst step. cbn [postedToday] in H.
      destruct (status x) eqn:Ex; try (by left).
      apply elem_of_union in H as [H|H]; [|by left].
      apply elem_of_singleton in H. right. exists x. split; [by left|auto].
    - right. exists p. split; [by right|auto]. }
  intros H. apply Hgen in H as [H|H]; [left; exact H|right; exact H].
Qed.

Lemma importSchedule_queue (l : list ScheduledPost) (s : State) (k : string)
      (p : ScheduledPost) :
  queue (importSchedule l s) !! k = Some p -> In p l.
Proof.
  unfold importSchedule.
  set (step := fun st post => _).
  assert (Hgen : forall st,
            queue (fold_left step l st) !! k = Some p ->
            queue st !! k = Some p \/ In p l).
  { induction l as [|x l IH]; intros st H; [by left|].
    cbn [fold_left] in H. apply IH in H as [H|H]; [|right; by right].
    subst step. cbn [queue] in H.
    destruct (decide (id x = k)) as [<-|Hne].
    - rewrite lookup_insert_eq in H. injection H as <-. right. by left.
    - rewrite lookup_insert_ne in H by exact Hne. by left. }
  intros H. apply Hgen in H as [H|H]; [|exact H].
  cbn [queue] in H. rewrite lookup_empty in H. discriminate.
Qed.

Lemma exportSchedule_In (s : State) (p : ScheduledPost) :
  In p (exportSchedule s) ->
  exists k p0, queue s !! k = Some p0 /\ p = exportedPost p0.
Proof.
  unfold exportSchedule. intros H. apply list_elem_of_In in H.
  apply list_elem_of_fmap in H as ([k p0] & -> & Hin).
  apply elem_of_map_to_list in Hin. eauto.
Qed.

Lemma importSchedule_lookup (l : list ScheduledPost) (s : State) (k : string)
      (p : ScheduledPost) :
  NoDup (id <$> l) ->
  queue (importSchedule l s) !! k = Some p <-> In p l /\ id p = k.
Proof.
  unfold importSchedule.
  set (step := fun st post => _).
  assert (Hgen : forall st,
            NoDup (id <$> l) ->
            queue (fold_left step l st) !! k = Some p <->
            (In p l /\ id p = k) \/ (queue st !! k = Some p /\ k ∉ id <$> l)).
  { induction l as [|x l IH]; intros st Hnd.
    - cbn [fold_left In fmap list_fmap]. split.
      + intros H. right. split; [exact H|]. apply not_elem_of_nil.
      + intros [[[] _]|[H _]]. exact H.
    - cbn [fmap list_fmap] in Hnd. apply NoDup_cons in Hnd as [Hx Hnd].
      cbn [fold_left]. rewrite (IH _ Hnd). subst step. cbn [queue].
      cbn [fmap list_fmap In].
      destruct (decide (id x = k)) as [Hk|Hne].
      + subst k. rewrite lookup_insert_eq. split.
        * intros [[Hin Hid]|[[= <-] _]]; left; (split; [tauto|auto]).
        * intros [[[<-|Hin] Hid]|[_ Hnot]].
          -- right. split; [reflexivity|exact Hx].
          -- left. auto.
          -- exfalso. apply Hnot. left.
      + rewrite lookup_insert_ne by exact Hne. split.
        * intros [[Hin Hid]|[Hst Hnot]]; [left; tauto|].
          right. split; [exact Hst|]. intros Hin.
          apply elem_of_cons in Hin as [Hin|Hin]; [congruence|contradiction].
        * intros [[[<-|Hin] Hid]|[Hst Hnot]]; [congruence|left; tauto|].
          right. split; [exact Hst|]. intros Hin. apply Hnot. by right. }
  intros Hnd. rewrite (Hgen _ Hnd). cbn [queue]. rewrite lookup_empty.
  split; [intros [H|[H _]]; [exact H|discriminate]|intros H; left; exact H].
Qed.

Lemma importSchedule_posted_iff (l : list ScheduledPost) (s : State) (k : string) :
  k ∈ postedToday (importSchedule l s) <->
  k ∈ postedToday s \/ exists p, In p l /\ id p = k /\ status p = posted.
Proof.
  split; [apply importSchedule_posted|].
  unfold importSchedule.
  set (step := fun st post => _).
  assert (Hmono : forall l' st, k ∈ postedToday st -> k ∈ postedToday (fold_left step l' st)).
  { induction l' as [|x l' IH]; intros st H; [exact H|].
    cbn [fold_left]. apply IH. subst step. cbn [postedToday].
    destruct (status x); try exact H. apply elem_of_union. by right. }
  intros [H|(p & Hp & Hid & Hst)]; [by apply Hmono|].
  generalize ({| queue := ∅; postedToday := postedToday s |}).
  induction l as [|x l IH]; intros st; [destruct Hp|].
  cbn [fold_left]. destruct Hp as [->|Hp]; [|by apply IH].
  apply Hmono. subst step. cbn [postedToday]. rewrite Hst.
  apply elem_of_union. left. by apply elem_of_singleton.
Qed.

(** X12. What [importSchedule] makes of posts with distinct ids does
    not depend on the order in which they are listed: the same queue and
    the same record of posted ids. *)
Lemma importSchedule_order_irrelevant (l l' : list ScheduledPost) (s : State) :
  l ≡ₚ l' -> NoDup (id <$> l) -> importSchedule l s = importSchedule l' s.
Proof.
  intros Hperm Hnd.
  assert (Hnd' : NoDup (id <$> l')) by (by rewrite <- Hperm).
  assert (Hin : forall p, In p l <-> In p l').
  { intros p. rewrite <- !list_elem_of_In. by rewrite Hperm. }
  assert (Hq : queue (importSchedule l s) = queue (importSchedule l' s)).
  { apply map_eq. intros k. apply option_eq. intros p.
    rewrite !importSchedule_lookup by assumption. by rewrite Hin. }
  assert (Hp : postedToday (importSchedule l s) = postedToday (importSchedule l' s)).
  { apply leibniz_equiv. intros k. rewrite !importSchedule_posted_iff.
    split; (intros [H|(p & Hp & Hrest)]; [by left|right; exists p; split; [by apply Hin|exact Hrest]]). }
  destruct (importSchedule l s) as [q1 p1], (importSchedule l' s) as [q2 p2].
  cbn [queue postedToday] in *. by subst.
Qed.

(** The posts exported from a queue that stores each post under its own
    id have distinct ids. *)
Lemma exportSchedule_distinct_ids (s : State) :
  keyedById s -> NoDup (id <$> exportSchedule s).
Proof.
  intros Hk. unfold exportSchedule. rewrite <- list_fmap_compose.
  assert (Heq : (id ∘ (fun entry : string * ScheduledPost => exportedPost entry.2))
                <$> map_to_list (queue s)
                = (map_to_list (queue s)).*1).
  { apply list_fmap_ext. intros i [k p] Hi. cbn.
    apply list_elem_of_lookup_2, elem_of_map_to_list in Hi. by apply Hk. }
  rewrite Heq. apply NoDup_fst_map_to_list.
Qed.

(** The scheduler a trigger hands to the poster holds no record of an
    earlier publication: its set of posted ids is empty and none of its
    posts is [posted] or [failed]. *)
Lemma posterSchedule_fresh tza now headlines :
  postedToday (Worker.posterSchedule tza now headlines) = ∅ /\
  forall k p, queue (Worker.posterSchedule tza now headlines) !! k = Some p ->
              unpublished (status p).
Proof.
  unfold Worker.posterSchedule.
  assert (Hexp : forall p, In p (exportSchedule (Worker.loadedSchedule tza now headlines)) ->
                           unpublished (status p)).
  { intros p Hp. apply exportSchedule_In in Hp as (k & p0 & Hk & ->).
    cbn [status exportedPost]. by eapply loadedSchedule_unpublished. }
  split.
  - apply leibniz_equiv. apply elem_of_equiv_empty. intros k Hk.
    apply importSchedule_posted in Hk as [Hk|(p & Hp & _ & Hst)].
    + cbn [postedToday constructor] in Hk. set_solver.
    + destruct (Hexp p Hp) as [H|[H|H]]; congruence.
  - intros k p Hk. apply importSchedule_queue in Hk. by apply Hexp.
Qed.

(** C1.  Each trigger of the posting phase builds its schedulers anew:
    whatever was published before, the poster starts with an empty set
    of posted ids and with every post [pending], [ready] or
    [no-article].  So a second trigger in the same slot publishes again:
    on the sample sheet the trigger of 14:00 UTC publishes post 1, and
    the trigger of 14:01 UTC, although the duplicate check finds the
    first tweet, publishes post 1 once more, in another tone. *)
Theorem repeated_trigger_publishes_again :
  (forall tza now headlines,
     postedToday (Worker.posterSchedule tza now headlines) = ∅ /\
     forall k p, queue (Worker.posterSchedule tza now headlines) !! k = Some p ->
                 unpublished (status p)) /\
  let '(r1, evs1) := Worker.runPosting 0 sampleNow (Ok sampleSheet) okWorld in
  let '(r2, evs2) :=
    Worker.runPosting 0 (sampleNow + 60000) (Ok sampleSheet) secondWorld in
  Poster.success r1 = true /\
  option_map Poster.rId (Poster.post r1) = Some "2024-03-12-1"%string /\
  evs1 = [Poster.Published (Poster.text sampleContent);
          Poster.Logged "2024-03-12-1"] /\
  Poster.success r2 = true /\
  option_map Poster.rId (Poster.post r2) = Some "2024-03-12-1"%string /\
  evs2 = [Poster.Published (Poster.text contrarianContent);
          Poster.Logged "2024-03-12-1"].
Proof.
  split; [apply posterSchedule_fresh|].
  vm_compute. repeat split; reflexivity.
Qed.
End RepeatedTrigger.

(** A posted and a ready post, listed in either order. *)
Lemma importSchedule_order_irrelevant_witness :
  Scheduler.importSchedule
    [Vocabulary.plainPost 1 Scheduler.posted; Vocabulary.plainPost 2 Scheduler.ready]
    Scheduler.constructor
  = Scheduler.importSchedule
      [Vocabulary.plainPost 2 Scheduler.ready; Vocabulary.plainPost 1 Scheduler.posted]
      Scheduler.constructor.
Proof.
  apply importSchedule_order_irrelevant.
  - apply perm_swap.
  - apply (bool_decide_unpack _). vm_compute. exact I.
Defined.

(** The posting path binds in place, not by the rank cell: the rows of
    the sample sheet count their ranks from 1 to 7, and the 10 o'clock
    post (business, rank 1) is bound to the first business article,
    whose rank cell holds 4. *)
Example posting_path_binds_in_place :
  let p := Scheduler.queue (Worker.loadedSchedule 0 Vocabulary.sampleNow
                                                  (Ok Vocabulary.sampleSheet))
             !! "2024-03-12-2"%string in
  option_map Scheduler.status p = Some Scheduler.ready /\
  option_map (fun q => option_map (fun a => (Filter.headline (Filter.article a),
                                             Filter.categoryRank a))
                                  (Scheduler.article q)) p
  = Some (Some ("b1"%string, Some 4)).
Proof. vm_compute. split; reflexivity. Qed.

(** ** The source label of a collection *)

Section ScraperProofs.
Import Filter Validator Scraper Vocabulary.

Variable urlParses : string -> bool.
Variable Date_parse : string -> option Z.
Variable perplexitySearch : nat -> outcome (list RawItem).
Variable newsApiSearch : outcome (list RawItem).
Variable readSheet : outcome (list (list string)).
Variable category : Categories.Category.

Local Abbreviation primary :=
  (scrapeWithPerplexity urlParses Date_parse perplexitySearch category).
Local Abbreviation backup :=
  (scrapeWithNewsApi urlParses Date_parse newsApiSearch category).
Local Abbreviation collected :=
  (scrapeCategory urlParses Date_parse perplexitySearch newsApiSearch readSheet category).

Lemma validOnes_In (items : list RawItem) (cat api : string) (a : Article) :
  In a (validOnes urlParses Date_parse (map (fun i => enrichArticle i cat api) items)) ->
  apiUsed a = api /\ url a <> ""%string.
Proof.
  unfold validOnes. rewrite <- list_elem_of_In, list_elem_of_omap.
  intros (item & Hin & Hv).
  apply list_elem_of_In, in_map_iff in Hin as (raw & <- & _).
  destruct (valid urlParses Date_parse (enrichArticle raw cat api)) eqn:E;
    [|discriminate].
  destruct raw as [r|]; [|discriminate]. simpl in Hv. injection Hv as <-.
  split; [reflexivity|]. cbn [url].
  unfold valid, validateArticle in E. cbn [enrichArticle url] in E.
  do 4 apply andb_true_iff in E as [E _].
  apply andb_true_iff in E as [_ E]. unfold isValidUrl in E.
  intros Hu. rewrite Hu in E. discriminate.
Qed.

Lemma perplexityAttempts_In (attempt left : nat) (e : string) (arts : list Article)
      (a : Article) :
  perplexityAttempts urlParses Date_parse perplexitySearch (Categories.id category)
                     attempt left e = Ok arts ->
  In a arts -> apiUsed a = "perplexity"%string /\ url a <> ""%string.
Proof.
  revert attempt e. induction left as [|left IH]; intros attempt e; simpl.
  - discriminate.
  - destruct (perplexitySearch attempt) as [items|msg]; [|apply IH].
    destruct (existsb _ _); [apply IH|].
    intros [= <-]. apply validOnes_In.
Qed.

(** What the primary stage yields is primary-sourced and has a URL. *)
Lemma primary_In (a : Article) :
  In a (yielded primary) -> primarySourced a /\ url a <> ""%string.
Proof.
  unfold scrapeWithPerplexity.
  destruct (perplexityAttempts _ _ _ _ _ _ _) as [arts|msg] eqn:E; simpl; [|tauto].
  by apply (perplexityAttempts_In _ _ _ _ _ E).
Qed.

(** What the backup stage yields is not primary-sourced. *)
Lemma backup_In (a : Article) : In a (yielded backup) -> ~ primarySourced a.
Proof.
  unfold scrapeWithNewsApi, primarySourced.
  destruct newsApiSearch as [items|msg]; simpl; [|tauto].
  intros Hin. apply validOnes_In in Hin as [-> _]. discriminate.
Qed.

Lemma dedupFrom_In seen (l : list Article) (a : Article) :
  In a (dedupFrom seen l) -> In a l.
Proof.
  revert seen. induction l as [|x l IH]; intros seen; simpl; [tauto|].
  destruct (String.eqb (url x) ""); [by right; eapply IH|].
  destruct (decide _); [by right; eapply IH|].
  intros [->|H]; [by left|right; by eapply IH].
Qed.

Lemma dedupFrom_length seen (l : list Article) :
  (length (dedupFrom seen l) <= length l)%nat.
Proof.
  revert seen. induction l as [|x l IH]; intros seen; simpl; [lia|].
  destruct (String.eqb (url x) ""); [specialize (IH seen); lia|].
  destruct (decide _); [specialize (IH seen); lia|].
  simpl. specialize (IH ({[normalizeUrl (url x)]} ∪ seen)). lia.
Qed.

(** The first article of a batch survives deduplication when it has a URL. *)
Lemma deduplicate_head (x : Article) (l : list Article) :
  url x <> ""%string ->
  exists rest, deduplicateArticles (x :: l) = x :: rest.
Proof.
  intros Hu. unfold deduplicateArticles. simpl.
  apply String.eqb_neq in Hu. rewrite Hu.
  rewrite decide_False by set_solver. eauto.
Qed.

(** A primary-sourced article is in the merge exactly when the primary
    stage yielded one. *)
Lemma merged_primary_iff (P B : list Article) :
  (forall a, In a P -> primarySourced a /\ url a <> ""%string) ->
  (forall a, In a B -> ~ primarySourced a) ->
  ((exists a, In a (take TARGET_ARTICLES_PER_CATEGORY (deduplicateArticles (P ++ B))) /\
              primarySourced a) <-> P <> []) /\
  ((exists a, In a (deduplicateArticles (P ++ B)) /\ primarySourced a) <-> P <> []).
Proof.
  intros HP HB.
  assert (Hfrom : forall a, In a (deduplicateArticles (P ++ B)) ->
                            primarySourced a -> P <> []).
  { intros a Hin Hs. apply dedupFrom_In, in_app_iff in Hin as [Hin|Hin].
    - intros ->. destruct Hin.
    - by apply HB in Hin. }
  assert (Hto : P <> [] ->
                exists a, In a (take TARGET_ARTICLES_PER_CATEGORY
                                     (deduplicateArticles (P ++ B))) /\
                          primarySourced a).
  { destruct P as [|x P']; [done|]. intros _.
    destruct (HP x (or_introl eq_refl)) as [Hs Hu].
    destruct (deduplicate_head x (P' ++ B) Hu) as [rest Hd].
    exists x. change ((x :: P') ++ B) with (x :: (P' ++ B)). rewrite Hd.
    split; [by left|exact Hs]. }
  split; split.
  - intros (a & Hin & Hs). apply In_take in Hin. eauto.
  - exact Hto.
  - intros (a & Hin & Hs). eauto.
  - intros Hne. destruct (Hto Hne) as (a & Hin & Hs). apply In_take in Hin. eauto.
Qed.

(** C10. When the primary stage yields fewer than five valid articles,
    the backup stage succeeds and the merged, URL-deduplicated union
    reaches five, the result holds the first fifteen of the merge and its
    label is "combined" exactly when a primary-sourced article is in the
    merge (equivalently, in the result) and "newsapi" otherwise; and the
    label "previous-day" is recorded only when the primary articles and
    the merged union both stayed below five. *)
Theorem source_label_rule :
  let P := yielded primary in
  let B := yielded backup in
  let merged := deduplicateArticles (P ++ B) in
  let r := fst collected in
  ((length P < 5)%nat -> (exists B', backup = Ok B') -> (5 <= length merged)%nat ->
     articles r = take TARGET_ARTICLES_PER_CATEGORY merged /\
     (resultApiUsed r = Some "combined"%string <->
        exists a, In a merged /\ primarySourced a) /\
     (resultApiUsed r = Some "combined"%string <->
        exists a, In a (articles r) /\ primarySourced a) /\
     (resultApiUsed r = Some "newsapi"%string <->
        ~ exists a, In a merged /\ primarySourced a)) /\
  (resultApiUsed r = Some "previous-day"%string ->
     (length P < 5)%nat /\ (length merged < 5)%nat).
Proof.
  cbv zeta.
  pose proof (merged_primary_iff (yielded primary) (yielded backup)
                primary_In backup_In) as [Htake Hmerged].
  unfold scrapeCategory, newsApiStage, previousDayStage.
  destruct primary as [P|perr] eqn:EP; cbn [yielded] in *.
  - destruct (MIN_ARTICLES_PER_CATEGORY <=? length P)%nat eqn:E5.
    + apply Nat.leb_le in E5. unfold MIN_ARTICLES_PER_CATEGORY in E5.
      split; [lia|]. cbn [fst resultApiUsed]. discriminate.
    + apply Nat.leb_gt in E5. unfold MIN_ARTICLES_PER_CATEGORY in E5.
      destruct backup as [B|berr] eqn:EB; cbn [yielded from_option id] in *.
      * destruct (MIN_ARTICLES_PER_CATEGORY <=? length (deduplicateArticles (P ++ B)))%nat
          eqn:Em.
        -- split.
           ++ intros _ _ _. cbn [fst articles resultApiUsed].
              split; [reflexivity|].
              rewrite Htake, Hmerged.
              destruct P as [|x P']; (split; [|split]); split;
                try discriminate; try congruence; try tauto;
                intros H; try reflexivity; exfalso; apply H; discriminate.
           ++ cbn [fst resultApiUsed]. destruct P; discriminate.
        -- apply Nat.leb_gt in Em. unfold MIN_ARTICLES_PER_CATEGORY in Em.
           split; [lia|]. intros _. lia.
      * rewrite app_nil_r in *. split.
        -- intros _ [B' HB']. discriminate.
        -- intros _. pose proof (dedupFrom_length ∅ P).
           unfold deduplicateArticles. lia.
  - destruct backup as [B|berr] eqn:EB; cbn [yielded from_option id app length] in *.
    + destruct (MIN_ARTICLES_PER_CATEGORY <=? length (deduplicateArticles B))%nat eqn:Em.
      * split.
        -- intros _ _ _. cbn [fst articles resultApiUsed].
           split; [reflexivity|]. rewrite Htake, Hmerged.
           (split; [|split]); split; try discriminate; try congruence; try tauto.
        -- cbn [fst resultApiUsed]. discriminate.
      * apply Nat.leb_gt in Em. unfold MIN_ARTICLES_PER_CATEGORY in Em.
        split; [lia|]. intros _. lia.
    + split.
      * intros _ [B' HB']. discriminate.
      * intros _. unfold deduplicateArticles. simpl. lia.
Qed.
End ScraperProofs.

(** Two primary articles and four backup articles, one of them a
    duplicate: the merge has five, the label is "combined". *)
Lemma source_label_rule_witness :
  let r := fst (Scraper.scrapeCategory Vocabulary.sampleUrlParses
                  Vocabulary.sampleDateParse
                  (fun _ => Ok Vocabulary.primaryItems) (Ok Vocabulary.backupItems)
                  (Err "no sheet"%string) Vocabulary.businessAi) in
  Scraper.resultApiUsed r = Some "combined"%string /\
  map Filter.headline (Scraper.articles r)
  = ["Primary story number one"; "Primary story number two";
     "Backup story number three"; "Backup story number four";
     "Backup story number five"]%string.
Proof.
  intros r. split; [|vm_compute; reflexivity].
  destruct (source_label_rule Vocabulary.sampleUrlParses Vocabulary.sampleDateParse
              (fun _ => Ok Vocabulary.primaryItems) (Ok Vocabulary.backupItems)
              (Err "no sheet"%string) Vocabulary.businessAi) as [Hlabel _].
  destruct Hlabel as (_ & Hcombined & _).
  - vm_compute. lia.
  - eexists. reflexivity.
  - vm_compute. lia.
  - apply Hcombined. eexists. split; [left; reflexivity|reflexivity].
Defined.

(** The specification's scenario: the primary provider fails three times,
    the backup provider returns four articles, yesterday's sheet has two.
    The result is labelled "previous-day" and holds yesterday's two
    articles only. *)
Example previous_day_scenario :
  let r := fst (Scraper.scrapeCategory Vocabulary.sampleUrlParses
                  Vocabulary.sampleDateParse
                  (fun _ => Err "timeout"%string) (Ok Vocabulary.backupItems)
                  (Ok Vocabulary.yesterdayRows) Vocabulary.businessAi) in
  Scraper.resultApiUsed r = Some "previous-day"%string /\
  map Filter.headline (Scraper.articles r)
  = ["Yesterday story number one"; "Yesterday story number two"]%string.
Proof. vm_compute. split; reflexivity. Qed.

(** ** The posting windows of the day *)

Section ScheduleWindows.
Import JsDate PostingSchedule Scheduler.

Lemma schedule_slot_shape slot :
  In slot POSTING_SCHEDULE ->
  9 <= PostingSchedule.hour slot <= 17 /\
  PostingSchedule.utcHour slot = PostingSchedule.hour slot + 5 /\
  PostingSchedule.utcHourDST slot = PostingSchedule.hour slot + 4 /\
  PostingSchedule.postNumber slot = PostingSchedule.hour slot - 8.
Proof.
  unfold POSTING_SCHEDULE. cbn [In].
  intros H. repeat (destruct H as [<-|H]; [cbn; lia|]). destruct H.
Qed.

Lemma hour_cases (e : Z) :
  9 <= e <= 17 ->
  e = 9 \/ e = 10 \/ e = 11 \/ e = 12 \/ e = 13 \/ e = 14 \/ e = 15 \/
  e = 16 \/ e = 17.
Proof. lia. Qed.

Lemma getTimeSlotForESTHour_Some e slot :
  getTimeSlotForESTHour e = Some slot ->
  In slot POSTING_SCHEDULE /\ PostingSchedule.hour slot = e.
Proof.
  unfold getTimeSlotForESTHour. intros H.
  apply find_some in H as [Hin He]. apply Z.eqb_eq in He. auto.
Qed.

Lemma getTimeSlotForESTHour_None e :
  getTimeSlotForESTHour e = None <-> ~ (9 <= e <= 17).
Proof.
  split.
  - intros H Hr. apply hour_cases in Hr.
    repeat (destruct Hr as [->|Hr]; [discriminate H|]). subst. discriminate H.
  - intros Hr. unfold getTimeSlotForESTHour, POSTING_SCHEDULE. cbn [find PostingSchedule.hour].
    repeat (destruct (_ =? e) eqn:E; [apply Z.eqb_eq in E; lia|clear E]).
    reflexivity.
Qed.

Lemma find_ext_in {A} (f g : A -> bool) (l : list A) :
  (forall x, In x l -> f x = g x) -> find f l = find g l.
Proof.
  induction l as [|a l IH]; intros H; [reflexivity|].
  cbn [find]. rewrite (H a) by (left; reflexivity).
  destruct (g a); [reflexivity|]. apply IH. intros x Hx. apply H. right; exact Hx.
Qed.

Lemma getTimeSlotForUTCHour_shift h isDST :
  getTimeSlotForUTCHour h isDST =
  getTimeSlotForESTHour (h - (if isDST then 4 else 5)).
Proof.
  unfold getTimeSlotForUTCHour, getTimeSlotForESTHour.
  apply find_ext_in. intros slot Hin.
  destruct (schedule_slot_shape slot Hin) as (_ & Hu & Hd & _).
  destruct isDST; [rewrite Hd|rewrite Hu]; 
    (destruct (_ =? h) eqn:E1; destruct (_ =? _) eqn:E2; try reflexivity;
     rewrite ?Z.eqb_eq, ?Z.eqb_neq in *; lia).
Qed.

(** X1. The slot of a UTC hour is the slot of the Eastern hour obtained
    with the offset of the daylight-saving flag (4 hours with it, 5
    without); an Eastern hour has a slot exactly when it lies in 9..17,
    and that slot is the one with this hour and post number hour - 8. *)
Theorem getTimeSlotForUTCHour_is_eastern_hour_slot (h : Z) (isDST : bool) :
  let e := h - (if isDST then 4 else 5) in
  getTimeSlotForUTCHour h isDST = getTimeSlotForESTHour e /\
  (getTimeSlotForUTCHour h isDST = None <-> ~ (9 <= e <= 17)) /\
  (forall slot, getTimeSlotForUTCHour h isDST = Some slot ->
     In slot POSTING_SCHEDULE /\ PostingSchedule.hour slot = e /\
     PostingSchedule.postNumber slot = e - 8).
Proof.
  intros e. rewrite getTimeSlotForUTCHour_shift. fold e.
  split; [reflexivity|]. split; [apply getTimeSlotForESTHour_None|].
  intros slot H. apply getTimeSlotForESTHour_Some in H as [Hin He].
  destruct (schedule_slot_shape slot Hin) as (_ & _ & _ & Hn).
  repeat split; auto. lia.
Qed.

Lemma firstSlotAfter_eastern (isDST : bool) (h : Z) :
  let e := h - (if isDST then 4 else 5) in
  firstSlotAfter isDST h =
  if e <? 17 then getTimeSlotForESTHour (Z.max 9 (e + 1)) else None.
Proof.
  assert (forall off, off = (if isDST then 4 else 5) ->
            firstSlotAfter isDST h =
            if h - off <? 17 then getTimeSlotForESTHour (Z.max 9 (h - off + 1))
            else None) as Hgen; [|intros e; apply Hgen; reflexivity].
  intros off Hoff.
  assert (h - off < 9 \/ (9 <= h - off <= 16) \/ 17 <= h - off)
    as [Hlo|[Hmid|Hhi]] by lia.
  - rewrite (proj2 (Z.ltb_lt (h - off) 17)) by lia. rewrite Z.max_l by lia.
    unfold firstSlotAfter, POSTING_SCHEDULE.
    destruct isDST; subst off;
      cbn [find slotUTCHour PostingSchedule.utcHour PostingSchedule.utcHourDST];
      (rewrite (proj2 (Z.ltb_lt h _)) by lia); reflexivity.
  - assert (exists k, h = k + off /\ 9 <= k <= 16) as (k & -> & Hk)
        by (exists (h - off); lia).
    replace (k + off - off) with k by lia.
    assert (k = 9 \/ k = 10 \/ k = 11 \/ k = 12 \/ k = 13 \/ k = 14 \/
            k = 15 \/ k = 16) as Hc by lia.
    destruct isDST; subst off;
      repeat (destruct Hc as [->|Hc]; [reflexivity|]); subst k; reflexivity.
  - rewrite (proj2 (Z.ltb_ge (h - off) 17)) by lia.
    unfold firstSlotAfter, POSTING_SCHEDULE.
    destruct isDST; subst off;
      cbn [find slotUTCHour PostingSchedule.utcHour PostingSchedule.utcHourDST];
      repeat (rewrite (proj2 (Z.ltb_ge h _)) by lia); reflexivity.
Qed.

Lemma firstSlotAfter_Some isDST h slot :
  firstSlotAfter isDST h = Some slot ->
  In slot POSTING_SCHEDULE /\ h < slotUTCHour isDST slot /\
  PostingSchedule.hour slot = Z.max 9 (h - (if isDST then 4 else 5) + 1).
Proof.
  intros H. pose proof H as H'. rewrite firstSlotAfter_eastern in H'.
  destruct (_ <? 17); [|discriminate].
  apply getTimeSlotForESTHour_Some in H' as [Hin He].
  apply find_some in H as [_ Hlt]. apply Z.ltb_lt in Hlt. auto.
Qed.

Lemma MinFromTime_range t : 0 <= MinFromTime t < 60.
Proof. unfold MinFromTime. apply Z.mod_pos_bound. lia. Qed.

Lemma HourFromTime_range t : 0 <= HourFromTime t < 24.
Proof. unfold HourFromTime. apply Z.mod_pos_bound. lia. Qed.

(** X2. In the five-minute scraping window (minutes 30..34 of UTC hour
    11 with daylight saving, 12 without) no posting slot is open, no post
    of any queue is current, and the next post is the first of the day,
    between 1 h 26 min and 1 h 30 min away. *)
Theorem scraping_window_precedes_first_post (tza now : Z) (s : State) :
  shouldRunScraping tza now = true ->
  shouldRunPosting tza now = false /\
  getCurrentPost tza now s = None /\
  nextSlot (getTimeUntilNextPost tza now) = head POSTING_SCHEDULE /\
  hours (getTimeUntilNextPost tza now) = 1 /\
  26 <= minutes (getTimeUntilNextPost tza now) <= 30.
Proof.
  unfold shouldRunScraping, shouldRunPosting, getCurrentPost, currentPostId,
    getTimeUntilNextPost, timeUntilSlot.
  rewrite firstSlotAfter_eastern, getTimeSlotForUTCHour_shift.
  generalize (isEasternDST tza now) (getUTCHours now) (getUTCMinutes now).
  intros d h m H.
  apply andb_true_iff in H as [H Hm2]. apply andb_true_iff in H as [Hh Hm1].
  apply Z.eqb_eq in Hh. apply Z.leb_le in Hm1. apply Z.ltb_lt in Hm2.
  assert (h - (if d then 4 else 5) = 7) as -> by (destruct d; lia).
  change (7 <? 17) with true. change (Z.max 9 (7 + 1)) with 9. cbv iota.
  change (getTimeSlotForESTHour 7) with (@None TimeSlot).
  change (getTimeSlotForESTHour 9) with (head POSTING_SCHEDULE).
  cbn [head POSTING_SCHEDULE hours minutes nextSlot].
  rewrite (Z.div_small (60 - m) 60) by lia.
  rewrite (Z.rem_small (60 - m) 60) by lia.
  destruct d; cbn [slotUTCHour PostingSchedule.utcHour PostingSchedule.utcHourDST];
    repeat split; lia.
Qed.

Lemma scraping_window_precedes_first_post_witness :
  shouldRunScraping 0 1710246600000 = true /\
  shouldRunPosting 0 1710246600000 = false /\
  hours (getTimeUntilNextPost 0 1710246600000) = 1.
Proof.
  split; [vm_compute; reflexivity|].
  pose proof (scraping_window_precedes_first_post 0 1710246600000 constructor
                ltac:(vm_compute; reflexivity)) as (H1 & _ & _ & H2 & _).
  split; assumption.
Defined.

(** X3. The time [getTimeUntilNextPost] reports: with a slot left today,
    that slot is the earliest one after the current UTC hour, it is the
    slot [getNextPostingSlot] returns, and hours and minutes add up to the
    minutes from now to the full hour of the slot, with minutes in 0..59;
    with no slot left it reports 0 h 0 min and no slot, while
    [getNextPostingSlot] returns the first slot of the schedule. *)
Theorem getTimeUntilNextPost_counts_to_next_slot (tza now : Z) :
  let isDST := isEasternDST tza now in
  let r := getTimeUntilNextPost tza now in
  match nextSlot r with
  | Some slot =>
      In slot POSTING_SCHEDULE /\
      getUTCHours now < slotUTCHour isDST slot /\
      (forall other, In other POSTING_SCHEDULE ->
         getUTCHours now < slotUTCHour isDST other ->
         slotUTCHour isDST slot <= slotUTCHour isDST other) /\
      getNextPostingSlot tza now = Some slot /\
      hours r * 60 + minutes r =
        (slotUTCHour isDST slot - getUTCHours now) * 60 - getUTCMinutes now /\
      0 <= hours r /\ 0 <= minutes r < 60
  | None =>
      hours r = 0 /\ minutes r = 0 /\
      (forall other, In other POSTING_SCHEDULE ->
         slotUTCHour isDST other <= getUTCHours now) /\
      getNextPostingSlot tza now = head POSTING_SCHEDULE
  end.
Proof.
  intros isDST r. subst r.
  unfold getTimeUntilNextPost, timeUntilSlot, getNextPostingSlot. fold isDST.
  pose proof (MinFromTime_range now) as Hm. change (MinFromTime now) with (getUTCMinutes now) in Hm.
  generalize dependent (getUTCMinutes now). generalize (getUTCHours now).
  generalize isDST. clear isDST. intros d h m Hm.
  destruct (firstSlotAfter d h) as [slot|] eqn:E; cbn [nextSlot hours minutes].
  - pose proof (firstSlotAfter_Some _ _ _ E) as (Hin & Hlt & Hhour).
    split; [exact Hin|]. split; [exact Hlt|]. split.
    { intros other Ho Hlo.
      destruct (schedule_slot_shape _ Hin) as (_ & Hu & Hd & _).
      destruct (schedule_slot_shape _ Ho) as (Hr & Hu' & Hd' & _).
      destruct d; cbn [slotUTCHour] in *; lia. }
    split; [reflexivity|].
    assert (m = 0 \/ 0 < m) as [->|Hpos] by lia.
    + change (Z.rem (60 - 0) 60) with 0. change ((60 - 0) / 60) with 1.
      repeat split; lia.
    + rewrite (Z.div_small (60 - m) 60) by lia.
      rewrite (Z.rem_small (60 - m) 60) by lia. repeat split; lia.
  - split; [reflexivity|]. split; [reflexivity|]. split; [|reflexivity].
    intros other Ho.
    unfold firstSlotAfter in E.
    pose proof (find_none _ _ E other Ho) as Hn. cbn beta in Hn.
    apply Z.ltb_ge in Hn. exact Hn.
Qed.

(** X4. While a posting slot is open, [getNextPostingSlot] returns the
    slot of the next post number, and after the ninth post the first slot
    again; whatever the instant, it returns a slot of the schedule. *)
Theorem getNextPostingSlot_follows_current (tza now : Z) :
  (exists slot, getNextPostingSlot tza now = Some slot /\
                In slot POSTING_SCHEDULE) /\
  (forall cur,
     getTimeSlotForUTCHour (getUTCHours now) (isEasternDST tza now) = Some cur ->
     exists nxt, getNextPostingSlot tza now = Some nxt /\
                 PostingSchedule.postNumber nxt =
                 PostingSchedule.postNumber cur mod 9 + 1).
Proof.
  unfold getNextPostingSlot.
  generalize (isEasternDST tza now) (getUTCHours now). intros d h.
  split.
  - destruct (firstSlotAfter d h) as [slot|] eqn:E.
    + exists slot. split; [reflexivity|]. apply (firstSlotAfter_Some _ _ _ E).
    + eexists. split; [reflexivity|]. left. reflexivity.
  - intros cur Hcur. rewrite getTimeSlotForUTCHour_shift in Hcur.
    apply getTimeSlotForESTHour_Some in Hcur as [Hin He].
    destruct (schedule_slot_shape _ Hin) as (Hr & _ & _ & Hn).
    rewrite firstSlotAfter_eastern. rewrite <- He.
    destruct (PostingSchedule.hour cur <? 17) eqn:E17.
    + apply Z.ltb_lt in E17. rewrite Z.max_r by lia.
      destruct (getTimeSlotForESTHour (PostingSchedule.hour cur + 1)) as [nxt|] eqn:En.
      * exists nxt. split; [reflexivity|].
        apply getTimeSlotForESTHour_Some in En as [Hin' He'].
        destruct (schedule_slot_shape _ Hin') as (_ & _ & _ & Hn').
        rewrite Hn', Hn, He'. rewrite Z.mod_small by lia. lia.
      * apply getTimeSlotForESTHour_None in En. lia.
    + apply Z.ltb_ge in E17. eexists. split; [reflexivity|].
      rewrite Hn. assert (PostingSchedule.hour cur = 17) as -> by lia. reflexivity.
Qed.

End ScheduleWindows.

(** ** Eastern hours, days of the year and the quote of the day *)

Section EasternClock.
Import JsDate PostingSchedule.

Lemma HourFromTime_shift t k :
  HourFromTime (t + k * 60 * 60 * 1000) = (HourFromTime t + k) mod 24.
Proof.
  unfold HourFromTime, msPerHour.
  replace (t + k * 60 * 60 * 1000) with (t + k * 3600000) by lia.
  rewrite Z.div_add by lia. rewrite Z.add_mod_idemp_l by lia. reflexivity.
Qed.

Lemma getEasternHour_eq now :
  DateUtils.getEasternHour now =
  (getUTCHours now - (if DateUtils.isEasternDST now then 4 else 5)) mod 24.
Proof.
  unfold DateUtils.getEasternHour, DateUtils.utcToEastern,
    DateUtils.getEasternOffset, getUTCHours.
  rewrite HourFromTime_shift. f_equal.
  destruct (DateUtils.isEasternDST now); reflexivity.
Qed.

(** X5. The slot the schedule opens at an instant is the slot of the
    Eastern hour of [getEasternHour] when the daylight-saving test of the
    schedule and the one of the date utilities agree; where only the date
    utilities see daylight saving it is the slot of the hour before, and
    where only the schedule does, of the hour after. *)
Theorem slot_of_instant_and_eastern_hour (tza now : Z) :
  let shift :=
    (if DateUtils.isEasternDST now then 1 else 0)
    - (if PostingSchedule.isEasternDST tza now then 1 else 0) in
  getTimeSlotForUTCHour (getUTCHours now) (PostingSchedule.isEasternDST tza now)
  = getTimeSlotForESTHour (DateUtils.getEasternHour now - shift).
Proof.
  intros shift. subst shift.
  rewrite getTimeSlotForUTCHour_shift, getEasternHour_eq.
  pose proof (HourFromTime_range now) as Hh.
  change (HourFromTime now) with (getUTCHours now) in Hh.
  generalize dependent (getUTCHours now).
  generalize (PostingSchedule.isEasternDST tza now) (DateUtils.isEasternDST now).
  intros dS dU h Hh.
  set (oU := if dU then 4 else 5).
  assert (4 <= oU <= 5) as HoU by (subst oU; destruct dU; lia).
  assert (0 <= h - oU \/ h - oU < 0) as [Hpos|Hneg] by lia.
  - rewrite Z.mod_small by lia. f_equal. subst oU. destruct dS, dU; lia.
  - assert ((h - oU) mod 24 = h - oU + 24) as ->.
    { symmetry. apply Z.mod_unique with (q := -1); lia. }
    transitivity (@None TimeSlot); [|symmetry];
      apply getTimeSlotForESTHour_None; subst oU; destruct dS, dU; lia.
Qed.

Lemma DayWithinYear_range t : 0 <= DayWithinYear t <= 365.
Proof.
  unfold DayWithinYear, YearFromTime.
  pose proof (YearFromDay_spec (Day t)) as H.
  pose proof (DayFromYear_step (YearFromDay (Day t))) as H'. lia.
Qed.

Lemma MakeDay_new_year_eve y : MakeDay y 0 0 = DayFromYear y - 1.
Proof.
  unfold MakeDay. change (0 / 12) with 0. change (0 mod 12) with 0. cbv zeta.
  change (monthStart 0 _) with 0. rewrite (Z.add_0_r y). lia.
Qed.

Lemma day_count_from_new_year_eve (t y : Z) :
  y = YearFromTime t -> ~ (0 <= y <= 99) ->
  (t - MakeDay (fullYear y) 0 0 * msPerDay) / (1000 * 60 * 60 * 24)
  = DayWithinYear t + 1.
Proof.
  intros -> Hy. rewrite fullYear_id by exact Hy.
  rewrite MakeDay_new_year_eve.
  unfold DayWithinYear, Day, msPerDay.
  set (D := DayFromYear (YearFromTime t)).
  change (1000 * 60 * 60 * 24) with 86400000.
  replace (t - (D - 1) * 86400000) with (t + (1 - D) * 86400000) by lia.
  rewrite Z.div_add by lia. lia.
Qed.

(** X6. In a year outside 0..99, [getDayOfYear] is the day within the UTC
    year counted from 1, between 1 and 366, and it grows by one over 24
    hours that stay within the year. *)
Theorem getDayOfYear_counts_from_one (date : Z) :
  ~ (0 <= getUTCFullYear date <= 99) ->
  DateUtils.getDayOfYear date = DayWithinYear date + 1 /\
  1 <= DateUtils.getDayOfYear date <= 366 /\
  (getUTCFullYear (date + msPerDay) = getUTCFullYear date ->
   DateUtils.getDayOfYear (date + msPerDay) = DateUtils.getDayOfYear date + 1).
Proof.
  intros Hy.
  assert (forall t, ~ (0 <= getUTCFullYear t <= 99) ->
            DateUtils.getDayOfYear t = DayWithinYear t + 1) as Heq.
  { intros t Ht. unfold DateUtils.getDayOfYear, UTC. cbv zeta.
    rewrite Z.mul_0_l, Z.add_0_r.
    apply day_count_from_new_year_eve; [reflexivity|exact Ht]. }
  split; [apply Heq, Hy|]. split.
  - rewrite (Heq date Hy). pose proof (DayWithinYear_range date). lia.
  - intros Hsame. rewrite !Heq by (rewrite ?Hsame; exact Hy).
    unfold DayWithinYear. unfold getUTCFullYear in Hsame. rewrite Hsame.
    unfold Day, msPerDay.
    replace (date + 86400000) with (date + 1 * 86400000) by lia.
    rewrite Z.div_add by lia. lia.
Qed.

Lemma getDayOfYear_counts_from_one_witness :
  DateUtils.getDayOfYear 1704067200000 = 1 /\
  DateUtils.getDayOfYear 1710252000000 = 72.
Proof.
  pose proof (getDayOfYear_counts_from_one 1704067200000
                ltac:(vm_compute; intros [_ H]; apply H; reflexivity)) as (H1 & _ & _).
  pose proof (getDayOfYear_counts_from_one 1710252000000
                ltac:(vm_compute; intros [_ H]; apply H; reflexivity)) as (H2 & _ & _).
  split; [rewrite H1|rewrite H2]; vm_compute; reflexivity.
Defined.



End EasternClock.

(** ** Scoring a batch of articles *)

Section BatchScoring.
Import JsString TextUtils Filter Vocabulary.

Lemma authority_values (source : string) :
  In (calculateAuthorityScore source) [25; 20; 15; 10; 5].
Proof.
  unfold calculateAuthorityScore.
  destruct (find _ SOURCE_TIERS) as [tier|] eqn:E.
  - apply find_some in E as [Hin _]. unfold SOURCE_TIERS in Hin.
    cbn [In] in Hin. cbn [In].
    repeat (destruct Hin as [<-|Hin]; [cbn [fst]; tauto|]). destruct Hin.
  - cbn [In]. tauto.
Qed.

Lemma engagement_always_scored (p : AIProvider) (reply : AiReply) (a : Article) :
  exists v, calculateEngagementScore p reply a = Ok v /\ 0 <= v <= 25.
Proof.
  pose proof (engagement_heuristic_range a) as Hh.
  assert (forall m, exists v,
            tryCatch (scoreOfReply reply m)
                     (fun _ => Ok (calculateEngagementScoreHeuristic a)) = Ok v /\
            0 <= v <= 25) as Hr.
  { intros m. destruct reply as [msg| |t]; cbn [scoreOfReply tryCatch]; eauto.
    destruct (parseInt t); cbn [tryCatch]; eexists; (split; [reflexivity|lia]). }
  destruct p; cbn [calculateEngagementScore calculateEngagementScoreAI]; eauto.
Qed.

Section WithHost.
Variable Date_parse : string -> option Z.
Variable aiProvider : AIProvider.
Variable aiReply : Article -> AiReply.
Variable now : Z.

Local Abbreviation scoreArticle := (Filter.scoreArticle Date_parse aiProvider aiReply now).
Local Abbreviation scoreArticles := (Filter.scoreArticles Date_parse aiProvider aiReply now).

Lemma recency_range (pd : DateUtils.PublishDate) :
  0 <= DateUtils.calculateRecencyScore Date_parse now pd <= 20.
Proof.
  unfold DateUtils.calculateRecencyScore. cbv zeta.
  repeat (match goal with |- context [if ?c then _ else _] => destruct c end);
    lia.
Qed.

Lemma scoreArticle_ok (a : Article) :
  exists s,
    scoreArticle a = Ok s /\
    article s = a /\
    score s = recencyScore s + authorityScore s + engagementScore s
              + viralityScore s + seoScore s /\
    0 <= recencyScore s <= 20 /\ 5 <= authorityScore s <= 25 /\
    0 <= engagementScore s <= 25 /\ 0 <= viralityScore s <= 20 /\
    0 <= seoScore s <= 10.
Proof.
  unfold Filter.scoreArticle.
  destruct (engagement_always_scored aiProvider (aiReply a) a) as (v & -> & Hv).
  eexists. split; [reflexivity|].
  cbn [article score recencyScore authorityScore engagementScore viralityScore
       seoScore].
  pose proof (recency_range (publishDate a)).
  pose proof (authority_values (source a)) as Ha. cbn [In] in Ha.
  pose proof (virality_range a). pose proof (seo_range a).
  repeat split; try lia.
Qed.

(** X8. Scoring one article never fails, whatever the completion service
    does: the result carries the article unchanged, a total that is the
    sum of the five sub-scores, each within its cap, and so a total
    between 5 and 100. *)
Theorem scoreArticle_total_is_sum_within_5_and_100 (a : Article) :
  exists s,
    scoreArticle a = Ok s /\
    article s = a /\
    score s = recencyScore s + authorityScore s + engagementScore s
              + viralityScore s + seoScore s /\
    0 <= recencyScore s <= 20 /\ 5 <= authorityScore s <= 25 /\
    0 <= engagementScore s <= 25 /\ 0 <= viralityScore s <= 20 /\
    0 <= seoScore s <= 10 /\
    5 <= score s <= 100.
Proof.
  destruct (scoreArticle_ok a) as (s & Hs & Ha & Hsum & H1 & H2 & H3 & H4 & H5).
  exists s. repeat split; try assumption; lia.
Qed.

Lemma insertDesc_perm (x : ScoredArticle) (l : list ScoredArticle) :
  insertDesc x l ≡ₚ x :: l.
Proof.
  induction l as [|y l IH]; cbn [insertDesc]; [reflexivity|].
  destruct (score y <=? score x); [reflexivity|].
  rewrite IH. apply perm_swap.
Qed.

Lemma sortByScoreDesc_perm (l : list ScoredArticle) : sortByScoreDesc l ≡ₚ l.
Proof.
  unfold sortByScoreDesc. induction l as [|x l IH]; cbn [foldr]; [reflexivity|].
  rewrite insertDesc_perm. by rewrite IH.
Qed.

Lemma insertDesc_stable (v : Z) (x : ScoredArticle) (l : list ScoredArticle) :
  List.filter (fun a => score a =? v) (insertDesc x l)
  = List.filter (fun a => score a =? v) (x :: l).
Proof.
  induction l as [|y l IH]; cbn [insertDesc]; [reflexivity|].
  destruct (score y <=? score x) eqn:E; [reflexivity|].
  apply Z.leb_gt in E.
  cbn [List.filter] in *. rewrite IH.
  destruct (score y =? v) eqn:Ey, (score x =? v) eqn:Ex; try reflexivity.
  apply Z.eqb_eq in Ey, Ex. lia.
Qed.

Lemma sortByScoreDesc_stable (v : Z) (l : list ScoredArticle) :
  List.filter (fun a => score a =? v) (sortByScoreDesc l)
  = List.filter (fun a => score a =? v) l.
Proof.
  unfold sortByScoreDesc. induction l as [|x l IH]; cbn [foldr]; [reflexivity|].
  rewrite insertDesc_stable. cbn [List.filter]. by rewrite IH.
Qed.

Lemma scored_all (articles : list Article) :
  Forall2 (fun a s => scoreArticle a = Ok s)
          articles
          (omap (fun a => match scoreArticle a with Ok s => Some s | Err _ => None end)
                articles).
Proof.
  induction articles as [|a l IH]; [constructor|].
  destruct (scoreArticle_ok a) as (s & Hs & _).
  cbn [omap list_omap]. rewrite Hs. constructor; assumption.
Qed.

(** X9. Scoring a batch drops no article: the result is a rearrangement
    of the articles' scored versions, one for each input, ordered by
    total score from high to low, with articles of equal score in the
    order of the input. *)
Theorem scoreArticles_keeps_all_sorted_stable (articles : list Article) :
  exists scoredInOrder,
    Forall2 (fun a s => scoreArticle a = Ok s) articles scoredInOrder /\
    scoreArticles articles ≡ₚ scoredInOrder /\
    length (scoreArticles articles) = length articles /\
    sortedByScoreDesc (scoreArticles articles) /\
    forall v : Z,
      List.filter (fun s => score s =? v) (scoreArticles articles)
      = List.filter (fun s => score s =? v) scoredInOrder.
Proof.
  eexists. split; [apply scored_all|].
  unfold Filter.scoreArticles.
  split; [apply sortByScoreDesc_perm|]. split.
  - rewrite sortByScoreDesc_perm. symmetry. eapply Forall2_length, scored_all.
  - split; [apply sortByScoreDesc_sorted|]. intros v. apply sortByScoreDesc_stable.
Qed.

End WithHost.
End BatchScoring.

(** ** Post numbers and quotes for the selected articles *)

Section SlotAssignment.
Import Filter Vocabulary.

Lemma matchesSlot_key (slot : PostingSchedule.TimeSlot) (a : ScoredArticle) :
  matchesSlot slot a = true <-> rankKey a = slotKey slot.
Proof.
  unfold matchesSlot, rankKey, slotKey. split.
  - intros H. apply andb_true_iff in H as [Hc Hr].
    apply String.eqb_eq in Hc. destruct (categoryRank a) as [r|]; [|discriminate].
    apply Z.eqb_eq in Hr. by rewrite Hc, Hr.
  - intros [= -> ->]. by rewrite String.eqb_refl, Z.eqb_refl.
Qed.

Lemma matchesSlot_same_key slot (a b : ScoredArticle) :
  rankKey a = rankKey b -> matchesSlot slot a = matchesSlot slot b.
Proof. unfold matchesSlot, rankKey. by intros [= -> ->]. Qed.

Lemma rankKey_setSlot slot q a : rankKey (setSlot slot q a) = rankKey a.
Proof. reflexivity. Qed.

Lemma updateFirst_none (p : ScoredArticle -> bool) f (l : list ScoredArticle) :
  (forall a, In a l -> p a = false) -> updateFirst p f l = l.
Proof.
  induction l as [|x l IH]; intros H; [reflexivity|].
  cbn [updateFirst]. rewrite (H x) by (by left).
  f_equal. apply IH. intros a Ha. apply H. by right.
Qed.

(** With distinct keys at most one article matches a slot, so the update
    of the first match is the update of every match. *)
Lemma updateFirst_map slot q (l : list ScoredArticle) :
  NoDup (map rankKey l) ->
  updateFirst (matchesSlot slot) (setSlot slot q) l
  = map (fun a => if matchesSlot slot a then setSlot slot q a else a) l.
Proof.
  induction l as [|x l IH]; intros Hnd; [reflexivity|].
  cbn [map] in Hnd. apply NoDup_cons in Hnd as [Hx Hnd].
  cbn [updateFirst map]. destruct (matchesSlot slot x) eqn:Ex.
  - f_equal. apply matchesSlot_key in Ex.
    rewrite <- (List.map_id l) at 1. apply List.map_ext_in. intros y Hy.
    destruct (matchesSlot slot y) eqn:Ey; [|reflexivity].
    apply matchesSlot_key in Ey. exfalso. apply Hx.
    rewrite Ex, <- Ey. apply list_elem_of_In, in_map, Hy.
  - f_equal. by apply IH.
Qed.

Lemma throughSlots_unmatched q slots a :
  (forall slot, In slot slots -> matchesSlot slot a = false) ->
  throughSlots q slots a = a.
Proof.
  unfold throughSlots. induction slots as [|s0 slots IH]; intros H; [reflexivity|].
  cbn [fold_left]. rewrite (H s0) by (by left).
  apply IH. intros slot Hs. apply H. by right.
Qed.

(** Among slots with distinct keys only the matching one changes the
    article. *)
Lemma throughSlots_slotAmong q slots a :
  NoDup (map slotKey slots) ->
  throughSlots q slots a
  = match slotAmong slots a with
    | Some slot => setSlot slot q a
    | None => a
    end.
Proof.
  unfold throughSlots, slotAmong.
  induction slots as [|s0 slots IH]; intros Hnd; [reflexivity|].
  cbn [map] in Hnd. apply NoDup_cons in Hnd as [Hs0 Hnd].
  cbn [fold_left find]. destruct (matchesSlot s0 a) eqn:E0.
  - apply throughSlots_unmatched. intros slot Hslot.
    rewrite (matchesSlot_same_key slot _ a (rankKey_setSlot s0 q a)).
    destruct (matchesSlot slot a) eqn:E; [|reflexivity].
    apply matchesSlot_key in E0, E. exfalso. apply Hs0.
    rewrite <- E0, E. apply list_elem_of_In, in_map, Hslot.
  - by apply IH.
Qed.

Lemma rankKey_throughSlots q slots a : rankKey (throughSlots q slots a) = rankKey a.
Proof.
  unfold throughSlots. revert a. induction slots as [|s0 slots IH]; intros a;
    [reflexivity|].
  cbn [fold_left]. rewrite IH. by destruct (matchesSlot s0 a).
Qed.

Lemma assignSlots_map q (slots : list PostingSchedule.TimeSlot)
      (l : list ScoredArticle) :
  NoDup (map rankKey l) ->
  fold_left (fun arts slot => updateFirst (matchesSlot slot) (setSlot slot q) arts)
            slots l
  = map (throughSlots q slots) l.
Proof.
  revert l. induction slots as [|s0 slots IH]; intros l Hnd.
  - cbn [fold_left]. unfold throughSlots. cbn [fold_left]. by rewrite List.map_id.
  - cbn [fold_left]. rewrite updateFirst_map by exact Hnd.
    rewrite IH.
    + rewrite List.map_map. reflexivity.
    + rewrite List.map_map.
      erewrite List.map_ext; [exact Hnd|].
      intros a. cbn beta. by destruct (matchesSlot s0 a).
Qed.

Lemma schedule_keys_distinct : NoDup (map slotKey PostingSchedule.POSTING_SCHEDULE).
Proof.
  apply (bool_decide_unpack _). vm_compute. exact I.
Qed.

Lemma slotAmong_key slots (a : ScoredArticle) :
  slotAmong slots a = find (fun slot => bool_decide (slotKey slot = rankKey a)) slots.
Proof.
  unfold slotAmong. induction slots as [|s0 slots IH]; [reflexivity|].
  cbn [find]. rewrite IH.
  destruct (matchesSlot s0 a) eqn:E.
  - apply matchesSlot_key in E. by rewrite bool_decide_eq_true_2.
  - rewrite bool_decide_eq_false_2; [reflexivity|].
    intros Hk. symmetry in Hk. apply matchesSlot_key in Hk. congruence.
Qed.

Section Selected.
Variable l : list ScoredArticle.

Local Abbreviation chosen := (fun c => selectForCategory (grouped l) c).
Local Abbreviation selected := (chosenRanked l).

Lemma chosen_length c : (length (chosen c) <= 3)%nat.
Proof.
  unfold selectForCategory, assignRanks. cbv zeta. rewrite length_imap.
  destruct (_ <=? _)%nat; rewrite length_take; unfold ARTICLES_PER_CATEGORY; lia.
Qed.

Lemma chosen_keys c :
  map rankKey (chosen c)
  = map (fun k => (c, Some (Z.of_nat k + 1))) (seq 0 (length (chosen c))).
Proof.
  apply list_eq. intros i.
  change (map rankKey) with (fmap (M:=list) rankKey).
  change (map (fun k : nat => (c, Some (Z.of_nat k + 1))))
    with (fmap (M:=list) (fun k : nat => (c, Some (Z.of_nat k + 1)))).
  rewrite !list_lookup_fmap.
  destruct (chosen c !! i) as [a|] eqn:E.
  - pose proof (lookup_lt_Some _ _ _ E) as Hlt.
    rewrite lookup_seq_lt by exact Hlt. cbn.
    apply selectForCategory_lookup in E as [Hc Hr].
    unfold rankKey. by rewrite Hc, Hr.
  - apply lookup_ge_None in E. rewrite lookup_seq_ge by exact E. reflexivity.
Qed.

Lemma chosen_keys_distinct c : NoDup (map rankKey (chosen c)).
Proof.
  rewrite chosen_keys. apply NoDup_fmap_2; [|apply NoDup_seq].
  intros x y [= H]. lia.
Qed.

Lemma chosen_key_category c k : k ∈ map rankKey (chosen c) -> k.1 = c.
Proof.
  rewrite chosen_keys. intros H. apply list_elem_of_fmap in H as (n & -> & _).
  reflexivity.
Qed.

Lemma selected_keys_distinct : NoDup (map rankKey selected).
Proof.
  unfold chosenRanked, Categories.CATEGORIES. cbn [map concat Categories.id].
  rewrite app_nil_r, !List.map_app.
  apply NoDup_app. split; [apply chosen_keys_distinct|]. split.
  - intros k Hk Hk'. apply chosen_key_category in Hk.
    apply elem_of_app in Hk' as [Hk'|Hk']; apply chosen_key_category in Hk';
      rewrite Hk in Hk'; discriminate.
  - apply NoDup_app. split; [apply chosen_keys_distinct|].
    split; [|apply chosen_keys_distinct].
    intros k Hk Hk'. apply chosen_key_category in Hk, Hk'.
    rewrite Hk in Hk'; discriminate.
Qed.

Lemma selectFromGroups_map q :
  selectFromGroups q (grouped l)
  = map (throughSlots q PostingSchedule.POSTING_SCHEDULE) selected.
Proof.
  unfold selectFromGroups, assignPostingSlots. cbv zeta.
  apply assignSlots_map, selected_keys_distinct.
Qed.

Lemma selected_has_slot (a : ScoredArticle) :
  In a selected ->
  exists slot, slotAmong PostingSchedule.POSTING_SCHEDULE a = Some slot.
Proof.
  unfold chosenRanked, Categories.CATEGORIES. cbn [map concat Categories.id].
  rewrite app_nil_r. intros H.
  assert (exists c i, In c ["ai-providers"; "business-ai"; "ai-safety"]%string /\
                      chosen c !! i = Some a) as (c & i & Hc & Hi).
  { apply in_app_or in H as [H|H]; [|apply in_app_or in H as [H|H]];
      apply In_lookup in H as [i Hi]; eexists _, i; (split; [|exact Hi]);
      cbn [In]; tauto. }
  pose proof (lookup_lt_Some _ _ _ Hi) as Hlt.
  pose proof (chosen_length c) as Hlen.
  apply selectForCategory_lookup in Hi as [Hcat Hrank].
  rewrite slotAmong_key. unfold rankKey. rewrite Hcat, Hrank.
  assert (i = 0 \/ i = 1 \/ i = 2)%nat as Hi3 by lia.
  cbn [In] in Hc.
  destruct Hc as [<- | [<- | [<- | [] ]]]; destruct Hi3 as [-> | [-> | ->]];
    eexists; vm_compute; reflexivity.
Qed.
End Selected.

Lemma post_numbers_distinct (s1 s2 : PostingSchedule.TimeSlot) :
  In s1 PostingSchedule.POSTING_SCHEDULE ->
  In s2 PostingSchedule.POSTING_SCHEDULE ->
  PostingSchedule.postNumber s1 = PostingSchedule.postNumber s2 -> s1 = s2.
Proof.
  unfold PostingSchedule.POSTING_SCHEDULE. cbn [In]. intros H1 H2.
  repeat (destruct H1 as [<-|H1]);
    try (destruct H1);
    repeat (destruct H2 as [<-|H2]); try (destruct H2);
    cbn [PostingSchedule.postNumber]; intros Hn; try reflexivity; discriminate Hn.
Qed.

Lemma selectTopArticles_Ok (q : option Z) (l selection : list ScoredArticle) :
  selectTopArticles q l = Ok selection ->
  selection = selectFromGroups q (grouped l).
Proof.
  unfold selectTopArticles. intros H.
  destruct (groupByCategory l) as [m|msg] eqn:E; [|discriminate].
  injection H as <-.
  unfold groupByCategory in E. rewrite grouping_from in E.
  destruct (forallb _ l); [|discriminate]. by injection E as <-.
Qed.

Lemma slot_of_selected (q : option Z) (l : list ScoredArticle) (k : nat)
      (b : ScoredArticle) :
  selectFromGroups q (grouped l) !! k = Some b ->
  exists slot,
    In slot PostingSchedule.POSTING_SCHEDULE /\
    rankKey b = slotKey slot /\
    postNumber b = Some (PostingSchedule.postNumber slot) /\
    postingSlot b
    = Some (pretty (PostingSchedule.hour slot) +:+ ":00")%string /\
    (PostingSchedule.includeQuote slot = true -> mabQuoteNumber b = q).
Proof.
  intros Hk. rewrite selectFromGroups_map in Hk.
  change (map (throughSlots q PostingSchedule.POSTING_SCHEDULE))
    with (fmap (M:=list) (throughSlots q PostingSchedule.POSTING_SCHEDULE)) in Hk.
  rewrite list_lookup_fmap in Hk.
  destruct (chosenRanked l !! k) as [b0|] eqn:E0; [|discriminate].
  cbn [fmap option_fmap option_map] in Hk.
  assert (Hb : throughSlots q PostingSchedule.POSTING_SCHEDULE b0 = b)
    by congruence.
  clear Hk. subst b.
  destruct (selected_has_slot l b0) as [slot Hs]; [apply In_lookup; eauto|].
  rewrite throughSlots_slotAmong by apply schedule_keys_distinct.
  rewrite Hs. exists slot.
  unfold slotAmong in Hs. apply find_some in Hs as [Hin Hm].
  apply matchesSlot_key in Hm.
  split; [exact Hin|]. split; [rewrite rankKey_setSlot; exact Hm|].
  cbn [postNumber postingSlot mabQuoteNumber setSlot].
  split; [reflexivity|]. split; [reflexivity|]. by intros ->.
Qed.

(** X10. Every article [selectTopArticles] returns is given the slot of
    its category and rank: the post number, the posting hour
    [<hour>:00], and, in a slot that carries a quote, the quote of the
    day.  No two of the returned articles share a post number, and there
    are at most nine of them. *)
Theorem selected_articles_receive_their_slot
        (q : option Z) (l selection : list ScoredArticle) (i : nat)
        (a : ScoredArticle) :
  selectTopArticles q l = Ok selection ->
  selection !! i = Some a ->
  (exists slot,
     In slot PostingSchedule.POSTING_SCHEDULE /\
     categoryOf a = PostingSchedule.categoryId slot /\
     categoryRank a = Some (PostingSchedule.categoryRank slot) /\
     postNumber a = Some (PostingSchedule.postNumber slot) /\
     postingSlot a = Some (pretty (PostingSchedule.hour slot) +:+ ":00")%string /\
     (PostingSchedule.includeQuote slot = true -> mabQuoteNumber a = q)) /\
  (forall j b, selection !! j = Some b ->
               postNumber b = postNumber a -> j = i) /\
  (length selection <= 9)%nat.
Proof.
  intros Hsel Hi. apply selectTopArticles_Ok in Hsel. subst selection.
  split; [|split].
  - destruct (slot_of_selected q l i a Hi) as (slot & Hin & Hk & Hn & Hp & Hq).
    exists slot. unfold rankKey, slotKey in Hk. injection Hk as Hc Hr.
    repeat split; assumption.
  - intros j b Hj Hnum.
    destruct (slot_of_selected q l i a Hi) as (sa & Hina & Hka & Hna & _).
    destruct (slot_of_selected q l j b Hj) as (sb & Hinb & Hkb & Hnb & _).
    rewrite Hna, Hnb in Hnum. injection Hnum as Hnum.
    pose proof (post_numbers_distinct sb sa Hinb Hina Hnum) as ->.
    pose proof (selected_keys_distinct l) as Hnd.
    assert (map rankKey (selectFromGroups q (grouped l)) = map rankKey (chosenRanked l))
      as Hkeys.
    { rewrite selectFromGroups_map, List.map_map. apply List.map_ext.
      intros x. apply rankKey_throughSlots. }
    rewrite <- Hkeys in Hnd.
    change (map rankKey) with (fmap (M:=list) rankKey) in Hnd.
    eapply (proj1 (NoDup_alt _) Hnd); rewrite list_lookup_fmap.
    + rewrite Hj. cbn [fmap option_fmap option_map]. rewrite Hkb. reflexivity.
    + rewrite Hi. cbn [fmap option_fmap option_map]. rewrite Hka. reflexivity.
  - rewrite selectFromGroups_map, length_map.
    unfold chosenRanked, Categories.CATEGORIES. cbn [map concat Categories.id].
    rewrite !length_app. cbn [length].
    pose proof (chosen_length l "ai-providers").
    pose proof (chosen_length l "business-ai").
    pose proof (chosen_length l "ai-safety"). lia.
Qed.
End SlotAssignment.

(** The safety article of the sample selection is the seventh of the
    list and is given post number 3, the first safety slot. *)
Lemma selected_articles_receive_their_slot_witness :
  exists slot,
    In slot PostingSchedule.POSTING_SCHEDULE /\
    PostingSchedule.postNumber slot = 3 /\
    option_map Filter.postNumber (Vocabulary.sampleSelected !! 6%nat)
    = Some (Some (PostingSchedule.postNumber slot)).
Proof.
  assert (Hsel : Filter.selectTopArticles (Some 2) Vocabulary.sampleScored
                 = Ok Vocabulary.sampleSelected) by (vm_compute; reflexivity).
  destruct (Vocabulary.sampleSelected !! 6%nat) as [a|] eqn:E;
    [|vm_compute in E; discriminate].
  destruct (selected_articles_receive_their_slot
              (Some 2) Vocabulary.sampleScored Vocabulary.sampleSelected 6 a Hsel E)
    as ((slot & Hin & _ & _ & Hn & _) & _).
  exists slot. split; [exact Hin|].
  vm_compute in E. injection E as <-.
  cbn [Filter.postNumber] in Hn. injection Hn as Hn.
  split; [symmetry; exact Hn|]. cbn [option_map Filter.postNumber]. by rewrite <- Hn.
Defined.

(** ** The shape of a collection result *)

Section ScraperShape.
Import Filter Validator Scraper Vocabulary.

Variable urlParses : string -> bool.
Variable Date_parse : string -> option Z.
Variable perplexitySearch : nat -> outcome (list RawItem).
Variable newsApiSearch : outcome (list RawItem).
Variable readSheet : outcome (list (list string)).
Variable category : Categories.Category.

Local Abbreviation primary :=
  (scrapeWithPerplexity urlParses Date_parse perplexitySearch category).
Local Abbreviation backup :=
  (scrapeWithNewsApi urlParses Date_parse newsApiSearch category).
Local Abbreviation collected :=
  (scrapeCategory urlParses Date_parse perplexitySearch newsApiSearch readSheet category).

Lemma validOnes_category (items : list RawItem) (cat api : string) (a : Article) :
  In a (validOnes urlParses Date_parse (map (fun i => enrichArticle i cat api) items)) ->
  Filter.category a = cat.
Proof.
  unfold validOnes. rewrite <- list_elem_of_In, list_elem_of_omap.
  intros (item & Hin & Hv).
  apply list_elem_of_In, in_map_iff in Hin as (raw & <- & _).
  destruct (valid urlParses Date_parse (enrichArticle raw cat api)); [|discriminate].
  destruct raw as [r|]; [|discriminate]. cbn [enrichArticle] in Hv.
  injection Hv as <-. reflexivity.
Qed.

Lemma perplexityAttempts_category (attempt left : nat) (e : string)
      (arts : list Article) (a : Article) :
  perplexityAttempts urlParses Date_parse perplexitySearch (Categories.id category)
                     attempt left e = Ok arts ->
  In a arts -> Filter.category a = Categories.id category.
Proof.
  revert attempt e. induction left as [|left IH]; intros attempt e; simpl.
  - discriminate.
  - destruct (perplexitySearch attempt) as [items|msg]; [|apply IH].
    destruct (existsb _ _); [apply IH|].
    intros [= <-]. apply validOnes_category.
Qed.

Lemma primary_category (a : Article) :
  In a (yielded primary) -> Filter.category a = Categories.id category.
Proof.
  unfold scrapeWithPerplexity.
  destruct (perplexityAttempts _ _ _ _ _ _ _) as [arts|msg] eqn:E; simpl; [|tauto].
  by apply (perplexityAttempts_category _ _ _ _ _ E).
Qed.

Lemma backup_category (a : Article) :
  In a (yielded backup) -> Filter.category a = Categories.id category.
Proof.
  unfold scrapeWithNewsApi.
  destruct newsApiSearch as [items|msg]; simpl; [|tauto].
  apply validOnes_category.
Qed.

Lemma previousDay_category (a : Article) :
  In a (getPreviousDayArticles readSheet (Categories.id category)) ->
  Filter.category a = Categories.id category.
Proof.
  unfold getPreviousDayArticles.
  destruct readSheet as [rows|msg]; [|intros []].
  destruct (length rows <=? 1)%nat; [intros []|].
  intros H. apply In_take in H. apply in_map_iff in H as (row & <- & _).
  reflexivity.
Qed.

Lemma previousDay_length :
  (length (getPreviousDayArticles readSheet (Categories.id category)) <= 15)%nat.
Proof.
  unfold getPreviousDayArticles.
  destruct readSheet as [rows|msg]; [|cbn; lia].
  destruct (length rows <=? 1)%nat; [cbn; lia|].
  rewrite length_take. unfold TARGET_ARTICLES_PER_CATEGORY. lia.
Qed.

(** What the last stage leaves, whatever the stages before recorded. *)
Lemma previousDayStage_shape fromPerplexity perr nerr :
  let r := fst (previousDayStage readSheet category fromPerplexity perr nerr) in
  let evs := snd (previousDayStage readSheet category fromPerplexity perr nerr) in
  (forall a, In a (articles r) -> Filter.category a = Categories.id category) /\
  Scraper.categoryId r = Categories.id category /\
  ((success r = true /\ resultApiUsed r = Some "previous-day"%string /\
    error r = None /\ evs = [] /\ (1 <= length (articles r) <= 15)%nat) \/
   (success r = false /\ resultApiUsed r = None /\ articles r = [] /\
    error r = Some "All scraping methods failed"%string /\
    evs = [CriticalFailure (Categories.name category)])).
Proof.
  unfold previousDayStage. cbv zeta.
  pose proof previousDay_length as Hlen.
  destruct (0 <? length _)%nat eqn:E; cbn [fst snd articles Scraper.categoryId success
                                          resultApiUsed error].
  - apply Nat.ltb_lt in E. split; [apply previousDay_category|].
    split; [reflexivity|]. left. repeat split; try reflexivity; lia.
  - split; [intros a []|]. split; [reflexivity|]. right. repeat split; reflexivity.
Qed.

(** X13. What the collection of a category returns: every article
    carries the id of the category; the collection succeeded exactly
    when it holds an article, exactly when a source label is recorded
    and exactly when no critical failure is reported; a failure records
    the error [All scraping methods failed].  The primary source alone
    gives at least five articles, with no upper limit; the merge gives
    five to fifteen; the previous day gives one to fifteen. *)
Theorem scrapeCategory_result_shape :
  let result :=
    scrapeCategory urlParses Date_parse perplexitySearch newsApiSearch readSheet
                   category in
  let r := fst result in
  let evs := snd result in
  (forall a, In a (articles r) -> Filter.category a = Categories.id category) /\
  Scraper.categoryId r = Categories.id category /\
  ((success r = true /\ evs = [] /\ error r = None /\
    ((resultApiUsed r = Some "perplexity"%string /\ (5 <= length (articles r))%nat) \/
     ((resultApiUsed r = Some "combined"%string \/
       resultApiUsed r = Some "newsapi"%string) /\
      (5 <= length (articles r) <= 15)%nat) \/
     (resultApiUsed r = Some "previous-day"%string /\
      (1 <= length (articles r) <= 15)%nat))) \/
   (success r = false /\ articles r = [] /\ resultApiUsed r = None /\
    error r = Some "All scraping methods failed"%string /\
    evs = [CriticalFailure (Categories.name category)])).
Proof.
  cbv zeta.
  assert (Hlast : forall fromPerplexity perr nerr,
            let r := fst (previousDayStage readSheet category fromPerplexity perr nerr) in
            let evs := snd (previousDayStage readSheet category fromPerplexity perr nerr) in
            (forall a, In a (articles r) -> Filter.category a = Categories.id category) /\
            Scraper.categoryId r = Categories.id category /\
            ((success r = true /\ evs = [] /\ error r = None /\
              ((resultApiUsed r = Some "perplexity"%string /\
                (5 <= length (articles r))%nat) \/
               ((resultApiUsed r = Some "combined"%string \/
                 resultApiUsed r = Some "newsapi"%string) /\
                (5 <= length (articles r) <= 15)%nat) \/
               (resultApiUsed r = Some "previous-day"%string /\
                (1 <= length (articles r) <= 15)%nat))) \/
             (success r = false /\ articles r = [] /\ resultApiUsed r = None /\
              error r = Some "All scraping methods failed"%string /\
              evs = [CriticalFailure (Categories.name category)]))).
  { intros fp perr nerr.
    destruct (previousDayStage_shape fp perr nerr) as (Hc & Hid & Hcase).
    cbv zeta. split; [exact Hc|]. split; [exact Hid|].
    destruct Hcase as [(Hs & Hl & He & Hev & Hn)|(Hs & Hl & Ha & He & Hev)].
    - left. repeat split; try assumption. right. right. split; [exact Hl|exact Hn].
    - right. repeat split; assumption. }
  assert (Hnews : forall fp perr,
            (forall a, In a (default [] fp) -> Filter.category a = Categories.id category) ->
            let r := fst (newsApiStage urlParses Date_parse newsApiSearch readSheet
                                       category fp perr) in
            let evs := snd (newsApiStage urlParses Date_parse newsApiSearch readSheet
                                         category fp perr) in
            (forall a, In a (articles r) -> Filter.category a = Categories.id category) /\
            Scraper.categoryId r = Categories.id category /\
            ((success r = true /\ evs = [] /\ error r = None /\
              ((resultApiUsed r = Some "perplexity"%string /\
                (5 <= length (articles r))%nat) \/
               ((resultApiUsed r = Some "combined"%string \/
                 resultApiUsed r = Some "newsapi"%string) /\
                (5 <= length (articles r) <= 15)%nat) \/
               (resultApiUsed r = Some "previous-day"%string /\
                (1 <= length (articles r) <= 15)%nat))) \/
             (success r = false /\ articles r = [] /\ resultApiUsed r = None /\
              error r = Some "All scraping methods failed"%string /\
              evs = [CriticalFailure (Categories.name category)]))).
  { intros fp perr Hfp. unfold newsApiStage.
    pose proof backup_category as Hb. unfold yielded in Hb.
    destruct backup as [B|berr]; [|apply Hlast].
    destruct (MIN_ARTICLES_PER_CATEGORY <=? _)%nat eqn:E; [|apply Hlast].
    apply Nat.leb_le in E. unfold MIN_ARTICLES_PER_CATEGORY in E.
    cbv zeta. cbn [fst snd articles Scraper.categoryId success resultApiUsed error].
    split.
    { intros a Ha. apply In_take in Ha. apply dedupFrom_In in Ha.
      apply in_app_or in Ha as [Ha|Ha]; [by apply Hfp|by apply Hb]. }
    split; [reflexivity|]. left. split; [reflexivity|]. split; [reflexivity|].
    split; [reflexivity|]. right. left. split.
    - destruct fp as [[|x fp']|]; auto.
    - rewrite length_take. unfold TARGET_ARTICLES_PER_CATEGORY. lia. }
  unfold scrapeCategory.
  pose proof primary_category as Hp. unfold yielded in Hp.
  destruct primary as [P|perr].
  - destruct (MIN_ARTICLES_PER_CATEGORY <=? length P)%nat eqn:E.
    + apply Nat.leb_le in E. unfold MIN_ARTICLES_PER_CATEGORY in E.
      cbn [fst snd articles Scraper.categoryId success resultApiUsed error].
      split; [exact Hp|]. split; [reflexivity|]. left.
      repeat split; try reflexivity. left. split; [reflexivity|exact E].
    + apply Hnews. exact Hp.
  - apply Hnews. intros a [].
Qed.
End ScraperShape.

(** ** What one invocation of the poster publishes *)

Section PublishSafety.
Import Scheduler Vocabulary.

Lemma postTweet_within_limit (w : Poster.World) (t tid : string) :
  Poster.postTweet w t = Ok tid ->
  TextUtils.calculateTweetLength t <= 280 /\ Poster.postRequest w t = Ok tid.
Proof.
  unfold Poster.postTweet. cbv zeta.
  destruct (TextUtils.MAX_TWEET_LENGTH <? _) eqn:E; [discriminate|].
  apply Z.ltb_ge in E. unfold TextUtils.MAX_TWEET_LENGTH in E. auto.
Qed.

(** X14. One invocation publishes at most one tweet, and only for the
    current post when it is [ready] and the run is no dry run; the text
    published counts at most 280 effective characters; the post is then
    marked [posted], also when logging it afterwards fails and the
    result reports a failure.  An invocation that publishes nothing
    either leaves no event, or alerts once and leaves the scheduler as
    it was. *)
Theorem run_publishes_at_most_once_within_limit
        (tza now : Z) (w : Poster.World) (s : State) :
  let s' := fst (fst (Poster.run tza now w s)) in
  let r := snd (fst (Poster.run tza now w s)) in
  let evs := snd (Poster.run tza now w s) in
  (exists t p tid,
     Poster.dryRun w = false /\
     TextUtils.calculateTweetLength t <= 280 /\
     getCurrentPost tza now s = Some p /\ status p = ready /\
     Poster.postRequest w t = Ok tid /\
     s' = markPosted now (id p) tid s /\
     ((evs = [Poster.Published t; Poster.Logged (id p)] /\
       Poster.success r = true) \/
      (exists msg, evs = [Poster.Published t; Poster.Alerted "poster" msg] /\
                   Poster.success r = false /\
                   Poster.logPostedTweet w p = Err msg))) \/
  (evs = [] /\ (s' = s \/ Poster.dryRun w = true)) \/
  (exists msg, evs = [Poster.Alerted "poster" msg] /\ s' = s /\
               Poster.success r = false /\ Poster.resultError r = Some msg).
Proof.
  cbv zeta. unfold Poster.run.
  destruct (getCurrentPost tza now s) as [p|]; [|right; left; cbn; auto].
  destruct (status p) eqn:Est; try (right; left; cbn; auto; fail).
  unfold Poster.caught.
  destruct (Poster.createTweetContent w p None) as [c|m];
    [|right; right; exists m; cbn; auto].
  destruct (Poster.isDuplicate w (Poster.text c)) as [dup|m];
    [|right; right; exists m; cbn; auto].
  destruct (if dup then _ else _) as [alt|m];
    [|right; right; exists m; cbn; auto].
  destruct (Poster.dryRun w) eqn:Edry.
  - right. left. cbn. auto.
  - destruct (Poster.postTweet w (Poster.text alt)) as [tid|m] eqn:Epost;
      [|right; right; exists m; cbn; auto].
    apply postTweet_within_limit in Epost as [Hlen Hreq].
    left. exists (Poster.text alt), p, tid.
    do 5 (split; [first [reflexivity|assumption]|]).
    destruct (Poster.logPostedTweet w p) as [[]|m]; cbn.
    + split; [reflexivity|]. left. auto.
    + split; [reflexivity|]. right. exists m. auto.
Qed.
End PublishSafety.

(** ** Deduplication by normalised URL *)

Section Deduplication.
Import JsString Filter Validator.

Lemma dedupFrom_sublist seen (l : list Article) : sublist (dedupFrom seen l) l.
Proof.
  revert seen. induction l as [|x l IH]; intros seen; cbn [dedupFrom]; [constructor|].
  destruct (String.eqb (url x) ""); [apply sublist_cons, IH|].
  cbv zeta. destruct (decide _); [apply sublist_cons, IH|apply sublist_skip, IH].
Qed.

Lemma dedupFrom_kept seen (l : list Article) (a : Article) :
  In a (dedupFrom seen l) -> url a <> ""%string /\ normalizeUrl (url a) ∉ seen.
Proof.
  revert seen. induction l as [|x l IH]; intros seen; cbn [dedupFrom]; [intros []|].
  destruct (String.eqb (url x) "") eqn:Eu; [apply IH|].
  cbv zeta. destruct (decide _) as [Hin|Hnot]; [apply IH|].
  intros [<-|H].
  - split; [by apply String.eqb_neq|exact Hnot].
  - destruct (IH _ H) as [Hu Hn]. split; [exact Hu|].
    intros Hs. apply Hn, elem_of_union. by right.
Qed.

Lemma dedupFrom_distinct seen (l : list Article) :
  NoDup ((fun a => normalizeUrl (url a)) <$> dedupFrom seen l).
Proof.
  revert seen. induction l as [|x l IH]; intros seen; cbn [dedupFrom];
    [constructor|].
  destruct (String.eqb (url x) ""); [apply IH|].
  cbv zeta. destruct (decide _) as [Hin|Hnot]; [apply IH|].
  cbn [fmap list_fmap]. apply NoDup_cons. split; [|apply IH].
  intros Hx. apply list_elem_of_fmap in Hx as (b & Hb & Hin).
  apply list_elem_of_In, dedupFrom_kept in Hin as [_ Hn].
  apply Hn. rewrite <- Hb. set_solver.
Qed.

Lemma dedupFrom_complete seen (l : list Article) (a : Article) :
  In a l -> url a <> ""%string ->
  normalizeUrl (url a) ∈ seen \/
  exists b, In b (dedupFrom seen l) /\ normalizeUrl (url b) = normalizeUrl (url a).
Proof.
  revert seen. induction l as [|x l IH]; intros seen; [intros []|].
  cbn [dedupFrom]. intros [->|Hin] Hu.
  - apply String.eqb_neq in Hu. rewrite Hu. cbv zeta.
    destruct (decide _) as [Hs|Hs]; [by left|].
    right. exists a. split; [by left|reflexivity].
  - destruct (String.eqb (url x) ""); [by apply IH|].
    cbv zeta. destruct (decide _) as [Hs|Hs]; [by apply IH|].
    destruct (IH ({[normalizeUrl (url x)]} ∪ seen) Hin Hu) as [H|(b & Hb & He)].
    + apply elem_of_union in H as [H|H]; [|by left].
      apply elem_of_singleton in H. right. exists x. split; [by left|by symmetry].
    + right. exists b. split; [by right|exact He].
Qed.

Lemma dedupFrom_idempotent seen (l : list Article) :
  dedupFrom seen (dedupFrom seen l) = dedupFrom seen l.
Proof.
  revert seen. induction l as [|x l IH]; intros seen; cbn [dedupFrom]; [reflexivity|].
  destruct (String.eqb (url x) "") eqn:Eu; [apply IH|].
  cbv zeta. destruct (decide _) as [Hs|Hs]; [apply IH|].
  cbn [dedupFrom]. rewrite Eu. cbv zeta. rewrite decide_False by exact Hs.
  by rewrite IH.
Qed.

(** X15. [deduplicateArticles] keeps the articles in their order and
    drops the others: no article without URL is kept, no two kept
    articles have the same normalised URL, every article with a URL has
    a kept article of the same normalised URL, and deduplicating twice
    changes nothing more. *)
Theorem deduplicateArticles_keeps_one_per_url (l : list Article) :
  sublist (deduplicateArticles l) l /\
  (forall a, In a (deduplicateArticles l) -> url a <> ""%string) /\
  NoDup ((fun a => normalizeUrl (url a)) <$> deduplicateArticles l) /\
  (forall a, In a l -> url a <> ""%string ->
     exists b, In b (deduplicateArticles l) /\
               normalizeUrl (url b) = normalizeUrl (url a)) /\
  deduplicateArticles (deduplicateArticles l) = deduplicateArticles l.
Proof.
  unfold deduplicateArticles. split; [apply dedupFrom_sublist|].
  split; [intros a Ha; by apply dedupFrom_kept in Ha as [Hu _]|].
  split; [apply dedupFrom_distinct|]. split; [|apply dedupFrom_idempotent].
  intros a Ha Hu. destruct (dedupFrom_complete ∅ l a Ha Hu) as [H|H]; [set_solver|exact H].
Qed.

Lemma dropQuery_none (s : list ascii) :
  (forall c, In c s -> eqc "?" c = false) -> dropQuery s = s.
Proof.
  induction s as [|c s IH]; intros H; [reflexivity|].
  cbn [dropQuery]. rewrite (H c) by (by left). cbn [andb].
  f_equal. apply IH. intros x Hx. apply H. by right.
Qed.

Lemma dropQuery_cut (s q : list ascii) :
  (forall c, In c s -> eqc "?" c = false) ->
  existsb isLineTerminator q = false ->
  dropQuery (s ++ "?"%char :: q) = s.
Proof.
  intros Hs Hq. induction s as [|c s IH].
  - cbn [app dropQuery]. change (eqc "?" "?") with true. by rewrite Hq.
  - cbn [app dropQuery]. rewrite (Hs c) by (by left). cbn [andb].
    f_equal. apply IH. intros x Hx. apply Hs. by right.
Qed.

Lemma dropTrailingSlash_slash (s : list ascii) :
  dropTrailingSlash (s ++ ["/"%char]) = s.
Proof.
  unfold dropTrailingSlash. rewrite rev_app_distr. cbn [rev app].
  change (eqc "/" "/") with true. cbv iota. apply rev_involutive.
Qed.

Lemma dropTrailingSlash_query (s q : list ascii) :
  exists q', dropTrailingSlash (s ++ "?"%char :: q) = s ++ "?"%char :: q' /\
             forall c, In c q' -> In c q.
Proof.
  induction q as [|c q0 _] using rev_ind.
  - exists []. split; [|intros c []].
    unfold dropTrailingSlash. rewrite rev_app_distr. cbn [rev app].
    change (eqc "/" "?") with false. reflexivity.
  - unfold dropTrailingSlash.
    replace (s ++ "?"%char :: q0 ++ [c]) with ((s ++ "?"%char :: q0) ++ [c])
      by (by rewrite <- app_assoc).
    rewrite rev_app_distr. cbn [rev app].
    destruct (eqc "/" c).
    + exists q0. split; [apply rev_involutive|].
      intros x Hx. apply in_or_app. by left.
    + exists (q0 ++ [c]). split; [by rewrite <- app_assoc|auto].
Qed.

Lemma chars_append (a b : string) : chars (a +:+ b) = chars a ++ chars b.
Proof.
  unfold chars. induction a as [|c a IH]; [reflexivity|].
  simpl. f_equal. exact IH.
Qed.

Lemma no_question_mark (s : list ascii) :
  existsb (eqc "?") s = false -> forall c, In c s -> eqc "?" c = false.
Proof.
  intros H c Hc. destruct (eqc "?" c) eqn:E; [|reflexivity].
  rewrite <- H. symmetry. apply existsb_exists. eauto.
Qed.

(** X16. The normalisation of a URL that holds no question mark removes
    one slash at its end, and a query added to it is cut off; both give
    the URL in lower case.  But a slash that stands before the query is
    kept: [u/?q] and [u?q] are normalised to different strings, so that
    two such articles both survive deduplication. *)
Theorem normalizeUrl_slash_before_query_is_kept (u q : string) :
  existsb (eqc "?") (chars u) = false ->
  existsb isLineTerminator (chars q) = false ->
  let lower := fun s => string_of_list_ascii (toLowerCase (chars s)) in
  normalizeUrl (u +:+ "/") = lower u /\
  normalizeUrl (u +:+ "?" +:+ q) = lower u /\
  normalizeUrl ((u +:+ "/") +:+ "?" +:+ q) = lower (u +:+ "/") /\
  normalizeUrl ((u +:+ "/") +:+ "?" +:+ q) <> normalizeUrl (u +:+ "?" +:+ q).
Proof.
  intros Hu Hq lower.
  assert (Hcut : forall v, existsb (eqc "?") (chars v) = false ->
                           normalizeUrl (v +:+ "?" +:+ q) = lower v).
  { intros v Hv. unfold normalizeUrl, lower. rewrite !chars_append.
    change (chars "?") with ["?"%char]. cbn [app].
    destruct (dropTrailingSlash_query (chars v) (chars q)) as (q' & -> & Hq').
    rewrite dropQuery_cut; [reflexivity|by apply no_question_mark|].
    destruct (existsb isLineTerminator q') eqn:E; [|reflexivity].
    apply existsb_exists in E as (c & Hc & Ht).
    rewrite <- Hq. symmetry. apply existsb_exists. eauto. }
  assert (H1 : normalizeUrl (u +:+ "/") = lower u).
  { unfold normalizeUrl, lower. rewrite chars_append.
    change (chars "/") with ["/"%char]. rewrite dropTrailingSlash_slash.
    rewrite dropQuery_none by (by apply no_question_mark). reflexivity. }
  assert (H3 : normalizeUrl ((u +:+ "/") +:+ "?" +:+ q) = lower (u +:+ "/")).
  { apply Hcut. rewrite chars_append, existsb_app, Hu. reflexivity. }
  split; [exact H1|]. split; [by apply Hcut|]. split; [exact H3|].
  rewrite H3, (Hcut u Hu). unfold lower. intros Heq.
  apply (f_equal chars) in Heq. rewrite !chars_of_list in Heq.
  apply (f_equal (@length ascii)) in Heq.
  unfold toLowerCase in Heq. rewrite !length_map, chars_append, length_app in Heq.
  cbn in Heq. lia.
Qed.

Lemma normalizeUrl_slash_before_query_is_kept_witness :
  normalizeUrl "https://A.example/one/?utm=feed" = "https://a.example/one/"%string /\
  normalizeUrl "https://A.example/one?utm=feed" = "https://a.example/one"%string.
Proof.
  destruct (normalizeUrl_slash_before_query_is_kept
              "https://A.example/one" "utm=feed" eq_refl eq_refl)
    as (_ & H2 & H3 & _).
  split; [exact H3|exact H2].
Defined.
End Deduplication.

(** ** Initialising the schedule of the day *)

Section DailySchedule.
Import Scheduler Vocabulary.

Lemma initialize_untouched (mk : PostingSchedule.TimeSlot -> ScheduledPost)
      (slots : list PostingSchedule.TimeSlot) (q : gmap string ScheduledPost)
      (k : string) :
  (forall slot, In slot slots -> k <> id (mk slot)) ->
  fold_left (fun q slot => <[id (mk slot) := mk slot]> q) slots q !! k = q !! k.
Proof.
  revert q. induction slots as [|x l IH]; intros q H; [reflexivity|].
  cbn [fold_left]. rewrite IH by (intros slot Hs; apply H; by right).
  apply lookup_insert_ne. intros Heq. apply (H x); [by left|by symmetry].
Qed.

Lemma initialize_stored (mk : PostingSchedule.TimeSlot -> ScheduledPost)
      (slots : list PostingSchedule.TimeSlot) (q : gmap string ScheduledPost)
      (slot : PostingSchedule.TimeSlot) :
  NoDup ((fun x => id (mk x)) <$> slots) -> In slot slots ->
  fold_left (fun q slot => <[id (mk slot) := mk slot]> q) slots q !! id (mk slot)
  = Some (mk slot).
Proof.
  revert q. induction slots as [|x l IH]; intros q Hnd Hin; [destruct Hin|].
  cbn [fmap list_fmap] in Hnd. apply NoDup_cons in Hnd as [Hx Hnd].
  cbn [fold_left]. destruct Hin as [->|Hin]; [|by apply IH].
  rewrite initialize_untouched; [apply lookup_insert_eq|].
  intros other Ho Heq. apply Hx. rewrite Heq.
  apply list_elem_of_fmap. exists other. split; [reflexivity|by apply list_elem_of_In].
Qed.

Lemma post_ids_distinct (tza now : Z) (today : string) (quote : option Z) :
  NoDup ((fun x => id (newPost tza now today quote x))
           <$> PostingSchedule.POSTING_SCHEDULE).
Proof.
  assert (Hn : NoDup (PostingSchedule.postNumber <$> PostingSchedule.POSTING_SCHEDULE))
    by (apply (bool_decide_unpack _); vm_compute; exact I).
  assert (Heq : (fun x => id (newPost tza now today quote x))
                  <$> PostingSchedule.POSTING_SCHEDULE
                = postIdOf today <$> (PostingSchedule.postNumber
                                        <$> PostingSchedule.POSTING_SCHEDULE))
    by (by rewrite <- list_fmap_compose).
  rewrite Heq. apply NoDup_fmap_2; [|exact Hn].
  intros n m H. unfold postIdOf in H.
  apply String.app_inj in H. apply String.app_inj in H.
  by apply pretty_Z_inj in H.
Qed.

(** X17. Initialising the schedule stores, whatever the queue held, a
    fresh [pending] post for each of the nine slots under the id
    [<today>-<post number>], with the slot's category, rank and quote
    flag, the quote of the day in the slots that carry one, and no
    article or tweet; the other posts of the queue and the record of
    posted ids are left as they were.  A post of today that was
    [posted] is thus set back to [pending] while its id stays
    recorded. *)
Theorem initializeDailySchedule_resets_the_nine_posts (tza now : Z) (s : State) :
  let s' := initializeDailySchedule tza now s in
  let today := DateUtils.getTodayString now in
  postedToday s' = postedToday s /\
  (forall slot, In slot PostingSchedule.POSTING_SCHEDULE ->
     exists p,
       queue s' !! postIdOf today (PostingSchedule.postNumber slot) = Some p /\
       id p = postIdOf today (PostingSchedule.postNumber slot) /\
       status p = pending /\ article p = None /\ tweetText p = None /\
       tweetId p = None /\ postedAt p = None /\ error p = None /\
       postNumber p = PostingSchedule.postNumber slot /\
       hour p = PostingSchedule.hour slot /\
       categoryId p = PostingSchedule.categoryId slot /\
       categoryRank p = PostingSchedule.categoryRank slot /\
       includeQuote p = PostingSchedule.includeQuote slot /\
       quoteId p = (if PostingSchedule.includeQuote slot
                    then MabQuotes.getQuoteForDay tza now else None)) /\
  (forall k,
     (forall slot, In slot PostingSchedule.POSTING_SCHEDULE ->
                   k <> postIdOf today (PostingSchedule.postNumber slot)) ->
     queue s' !! k = queue s !! k).
Proof.
  cbv zeta. unfold initializeDailySchedule. cbv zeta. cbn [queue postedToday].
  generalize (DateUtils.getTodayString now) (MabQuotes.getQuoteForDay tza now).
  intros today quote.
  split; [reflexivity|]. split.
  - intros slot Hin. exists (newPost tza now today quote slot).
    split.
    + apply (initialize_stored (newPost tza now today quote));
        [apply post_ids_distinct|exact Hin].
    + unfold newPost.
      cbn [id status article tweetText tweetId postedAt error postNumber hour
           categoryId categoryRank includeQuote quoteId].
      repeat split; reflexivity.
  - intros k Hk. apply (initialize_untouched (newPost tza now today quote)).
    exact Hk.
Qed.

Lemma initializeDailySchedule_resets_the_nine_posts_witness :
  let s1 := fst (fst (Poster.run 0 sampleNow okWorld readySchedule)) in
  option_map status (queue s1 !! "2024-03-12-1"%string) = Some posted /\
  option_map status
    (queue (initializeDailySchedule 0 sampleNow s1) !! "2024-03-12-1"%string)
  = Some pending /\
  "2024-03-12-1"%string ∈ postedToday (initializeDailySchedule 0 sampleNow s1).
Proof.
  intros s1. split; [vm_compute; reflexivity|].
  destruct (initializeDailySchedule_resets_the_nine_posts 0 sampleNow s1)
    as (Hposted & Hslots & _).
  destruct (Hslots (default (PostingSchedule.Build_TimeSlot 0 0 0 0 "" 0 false)
                            (head PostingSchedule.POSTING_SCHEDULE))
                   ltac:(vm_compute; tauto))
    as (p & Hp & _ & Hst & _).
  split.
  - change (postIdOf (DateUtils.getTodayString sampleNow) _)
      with (postIdOf (DateUtils.getTodayString sampleNow) 1) in Hp.
    assert (Hid : postIdOf (DateUtils.getTodayString sampleNow) 1 = "2024-03-12-1"%string)
      by (vm_compute; reflexivity).
    rewrite Hid in Hp. rewrite Hp. cbn [option_map]. by rewrite Hst.
  - rewrite Hposted. apply (bool_decide_unpack _). vm_compute. exact I.
Defined.
End DailySchedule.
